(* ===== verification/_CoqProject ===== *)
-Q . S2P
Prelude.v
PyStr.v
PySort.v
Image.v
Threshold.v
Contours.v
Suzuki.v
Cv2.v
Pipeline.v
Typing.v
Translate.v
MainLoop.v
Script.v
Frames.v
