(* ===== verification/Prelude.v ===== *)
(** * Game-Translator: a verification development of [src/main.py]

    ** The program
    [src/main.py] is one script.  [main] (lines 49-82) opens a 1920x1080
    pygame window and loops while [running]: it drains the event queue
    (a [QUIT] event clears [running]), copies the window's pixels with
    [pygame.surfarray.array3d], converts them to BGR, calls
    [process_frame] (lines 16-47) to read text from the copy, calls
    [detect_and_translate] (lines 11-14), which sends the text to the Cloud
    Translation client created at import time (line 9), and draws the
    translation centred on a black window.  [process_frame] converts the
    frame to gray, thresholds it adaptively, finds the external contours,
    keeps those of area greater than 1000, sorts them by decreasing area,
    and for the five largest crops the bounding box, resizes it to 500x200,
    runs Tesseract ([lang='chi_sim']) and strips the text; the texts are
    joined with single spaces.  Exceptions are not caught anywhere.

    ** Files, in dependency order
    - [Prelude] (this file): Python exceptions ([exn]) and the error monad
      [result] with [let? x := m in k]; Python slicing [py_slice];
      [mapM], the left-to-right loop whose first exception ends it; the hint
      databases [pyfacts] and [pyrw]; the tactics [inv_ok] and [forall_list].
    - [PyStr]: Python strings as code points; [str_strip] is CPython's
      [str.strip()] with its whitespace table [py_isspace]; [str_join] is
      [sep.join].
    - [PySort]: [sorted_rev], CPython's [sorted(key=..., reverse=True)]:
      reverse, stable ascending insertion ([binarysort]), reverse.
    - [Image]: numpy images as lists of rows; [cvtColor_gray] (OpenCV's
      fixed-point luma), [cvtColor_bgr], [crop] ([gray[y:y+h, x:x+w]]).
    - [Threshold]: [adaptiveThreshold] with the 11x11 replicated box mean
      ([box_sum], [box_mean_u8], OpenCV's [ColumnSum<ushort, uchar>]
      fixed point with [SHIFT = 23]) and the inverted binary table.
    - [Contours]: [contourArea] (shoelace, as OpenCV), [boundingRect],
      and the interface [ContourFinder] for [cv2.findContours].
    - [Suzuki]: [suzuki_external], OpenCV's border following (Suzuki and
      Abe) with [RETR_EXTERNAL] and [CHAIN_APPROX_SIMPLE], the executable
      instance [suzuki] of [ContourFinder] with its two laws proved.
    - [Cv2]: the module namespace [cv2_module] and [getattr] (the
      attribute reads [cv2.NAME]); the interface [Resizer] for
      [cv2.resize] (output shape and [uint8] samples) and its
      nearest-neighbour instance [nn_resizer].
    - [Pipeline]: [process_frame] statement by statement, with
      [filtered_contours] (line 27), [sorted_contours] (line 30),
      [selected] (line 34), [recognize_region] and [process_loop]
      (lines 33-46); the OCR engine is a section parameter.
    - [Typing]: the numpy types of the arrays [process_frame] builds
      ([bgr_typed], [gray_typed], [mask_typed]: shape and [uint8] or 0/255
      samples), one preservation lemma per operation.
    - [Translate]: [detect_and_translate]; the client is a parameter.
    - [MainLoop]: the window as a [surface], the frame clock [clock] and
      [clock_tick] ([clock.tick(30)]), the loop state [loop_state], one pass
      [loop_body], [run_loop] over batches of events (each with the time the
      pass's work takes), [main], the entry point [run_module]
      ([if __name__ == "__main__": main()]), and the step relation
      [reachable].
    - [Script]: the module body as statements ([stmt], [body]) run in
      order on the globals by [exec_stmts]: the imports of lines 1-6
      ([import_chain] loads a dotted name package by package),
      [client = translate.Client()] (line 9) and the [def]s; [run_script]
      is [python main.py] (or [import main]): the body, then [run_module].
    - [Frames]: the composition of [MainLoop] with [Typing]: the window
      invariant [frame_ok] (1920x1080, 8-bit pixels) that every pass keeps,
      under the two facts assumed of SDL (text rendered and blended in
      8-bit channels).

    ** What is proved
    - The program as written never gets past its first frame:
      [process_frame] reads [cv2.CHAIN_APPROLOGY_SIMPLE], which [cv2]
      does not have, so every call raises [AttributeError]
      ([Pipeline.process_frame_misspelt]) and [main] ends with that
      exception on its first pass, whatever the events
      ([MainLoop.main_raises_attribute_error]); run as a script it never
      completes a pass and never reaches [pygame.quit()]
      ([MainLoop.run_module_outcome]).  Before that, an empty frame
      ([mat_empty], numpy's [size == 0]) raises [cv2.error] in [cvtColor].
    - Only with a namespace in which that name resolves ([ns_ok], a
      hypothetical [cv2]: the installed one never satisfies it;
      [cv2_patched] is one), [process_frame] is the composition gray, threshold,
      contours, top five, OCR loop, join ([process_frame_eq]); a blank
      frame gives [""] ([process_frame_uniform]); its exceptions are exactly
      the OCR engine's, the first one in region order ([process_frame_error]);
      a returned text joins, in region order, the stripped OCR outputs of
      the [min 5 n] selected regions' resized crops ([process_frame_count]); when one contour passes the filter, the
      text is the stripped OCR output of its crop
      ([process_frame_single_region]).
    - Array types: a [uint8] frame of shape [(h, w, 3)] gives a [uint8]
      gray image of shape [(h, w)], a 0/255 mask of that shape, and for
      every selected contour a non-empty [uint8] crop and a [uint8]
      [(200, 500)] resized crop, the input [Image.fromarray] expects
      ([Typing.region_images_typed]); so [cv2.resize]'s assertion never
      fires on a visited region and Tesseract only ever receives [uint8]
      [(200, 500)] images with [lang='chi_sim']: engines that agree there
      give the same result ([Typing.process_frame_ocr_inputs]).
    - The selection: at most five regions, each of area above 1000, in
      non-increasing area ([selected_invariant]), and no region left out is
      larger than a selected one ([selected_top5]); of six qualifying
      regions of distinct areas exactly the smallest is left out
      ([selected_six_distinct]); the sort is stable and
      any stable descending sort gives the same list
      ([sorted_rev_stable_desc], [stable_desc_sort_eq], [sorted_rev_eq_ref]).
    - Image operations: the threshold's pixel-level specification and the
      blank case ([adaptiveThreshold_spec], [thresh_prog_uniform]);
      OpenCV's fixed-point mean is the rounded mean on every window sum of
      8-bit data, checked exhaustively ([box_mean_u8_121]); exact crops
      ([crop_sub]); 8-bit luma ([bgr2gray_u8]); border following keeps to
      the ink: every contour point is a non-zero pixel and no contour is
      empty ([suzuki_found_fg]), and every border trace completes within
      its fuel ([trace_border_complete]).
    - Strings: [str_strip] is the trimmed middle ([str_strip_iff]); joining
      loses nothing when no item holds the separator ([str_split_join]).
    - The loop: the first pass reads the program's own black window, not
      the game, and translates [""] ([first_pass_blank]); a failing
      translation call ends [main] ([main_translation_error]); every later
      pass captures the program's own rendering of the previous translation
      ([reachable_rendered]), since a pass redraws the whole window
      ([render_replaces_window_core]); the captured
      frame is the window transposed, 1920 rows of 1080
      ([captured_frame_transposed]); the loop stops at the first batch with
      a [QUIT] after finishing that pass ([run_loop_stops_at_quit]); every
      reachable state keeps a 1920x1080 window, shown on the display
      ([reachable_dims]); each pass lasts [max 33 work] ms, so the clock
      after [n] passes has advanced by their sum ([run_loop_cadence]).
    - The whole script: executing the module body refines its
      specification (check the imports' modules in source order, build the
      client, run the guard) ([Script.run_script_spec]); the first missing
      module raises before anything else ([run_script_missing_module]); a
      failing [translate.Client()] ends even a mere import
      ([run_script_client_error]); with everything installed, [python
      main.py] never completes a pass ([run_script_outcome]).
    - Loop and pipeline together: every frame [main] hands to
      [process_frame] is a [uint8] [(1920, 1080, 3)] array
      ([Frames.captured_frame_typed]), so the whole run of [main] depends on
      Tesseract only through its answers on [uint8] [(200, 500)] images
      with [lang='chi_sim'] ([Frames.main_ocr_inputs]).

    ** Bounds and fuel
    No definition of the program uses fuel: every loop of the program is
    over a finite list (events, contours, rows), and [run_loop] consumes one
    batch of events per pass, ending in [Pending] when the batches run out.
    The library model [Suzuki] follows each border for at most
    [8 (h + 2) (w + 2)] steps.  That is enough: the step of a trace is an
    injective map on the [8 h w] states (pixel, direction of the previous
    pixel), so by the pigeonhole principle a trace is back at its start
    within [8 h w] steps ([trace_border_complete]).  The
    exhaustive check of [box_mean_u8_121] covers the window sums
    [0 .. 121 * 255] that 8-bit data can produce.

    ** Not modelled
    The Tesseract engine, the translation client's constructor and its
    [translate] method (the statement of line 9 is modelled, what the
    constructor does with credentials is not), the font renderer and the
    alpha blend of [blit] are parameters: they are external libraries or
    network services.  Which modules are installed is a parameter too.
    [cv2.resize]'s bilinear interpolation is an interface ([Resizer]) with
    the property the program relies on (its fixed-point arithmetic differs
    between OpenCV's scalar and vector code paths); the Gaussian threshold method and
    other [cvtColor] codes, which the program does not use, raise in the
    model.  [SDL_Delay] is taken to sleep exactly the time asked;
    [pygame.display.set_caption] changes nothing the program reads. *)

From Stdlib Require Import ZArith Lia.
From stdpp Require Export base list strings sets.

Declare Scope py_scope.
Delimit Scope py_scope with py.
Open Scope Z_scope.

(** ** Python exceptions and the error monad *)

(** The exceptions the modelled code can raise.  [AttributeError] carries
    the module and the attribute looked up; [Cv2Error] an OpenCV assertion
    ([cv2.error]); [KeyError] a missing dictionary key; [LibError] a failure
    raised inside an opaque collaborator (Tesseract, the translation client);
    [ModuleNotFoundError] a module that is not installed ([No module named
    m]); [ImportError] a name a package does not provide ([cannot import name
    n from p]); [NameError] an unbound global. *)
Inductive exn :=
| AttributeError (module attr : string)
| Cv2Error (what : string)
| KeyError (key : string)
| LibError (lib : string)
| ModuleNotFoundError (name : string)
| ImportError (name package : string)
| NameError (name : string).

#[export] Instance exn_eq_dec : EqDecision exn.
Proof. solve_decision. Qed.

(** A Python computation either returns a value or raises. *)
Inductive result (A : Type) : Type :=
| Ok (a : A)
| Err (e : exn).
Arguments Ok {A} a.
Arguments Err {A} e.

Definition bind {A B} (m : result A) (k : A -> result B) : result B :=
  match m with
  | Ok a => k a
  | Err e => Err e
  end.

Notation "'let?' x ':=' m 'in' k" := (bind m (fun x => k))
  (at level 10, x name, m at level 100, k at level 200) : py_scope.
Open Scope py_scope.

Definition is_ok {A} (m : result A) : bool :=
  match m with Ok _ => true | Err _ => false end.

(** ** Python slicing, [l[a:b]] with step 1

    CPython's [PySlice_AdjustIndices]: a negative bound counts from the end,
    and both bounds are clamped to [0, len]; an empty slice results when the
    stop precedes the start. *)
Definition py_adjust (i : Z) (n : nat) : nat :=
  if i <? 0 then Z.to_nat (Z.max 0 (i + Z.of_nat n))
  else Z.to_nat (Z.min i (Z.of_nat n)).

Definition py_slice {A} (a b : Z) (l : list A) : list A :=
  let s := py_adjust a (length l) in
  let e := py_adjust b (length l) in
  take (e - s)%nat (drop s l).

(** ** Automation shared by the components *)

Create HintDb pyfacts discriminated.
Create Rewrite HintDb pyrw.

Lemma bind_Ok {A B} (a : A) (k : A -> result B) : bind (Ok a) k = k a.
Proof. reflexivity. Qed.

Lemma bind_Err {A B} (e : exn) (k : A -> result B) : bind (Err e) k = Err e.
Proof. reflexivity. Qed.

(** The monad law that flattens nested [let?]. *)
Lemma bind_assoc {A B C} (m : result A) (f : A -> result B) (k : B -> result C) :
  bind (bind m f) k = bind m (fun x => bind (f x) k).
Proof. by destruct m. Qed.

#[export] Hint Rewrite @bind_Ok @bind_Err @bind_assoc : pyrw.

(** Inversion of a successful bind. *)
Lemma bind_eq_Ok {A B} (m : result A) (k : A -> result B) b :
  bind m k = Ok b <-> exists a, m = Ok a /\ k a = Ok b.
Proof.
  destruct m as [a|e]; simpl; split.
  - eauto.
  - by intros (? & [= <-] & ?).
  - discriminate.
  - by intros (? & ? & ?).
Qed.

(** A bind fails with [e] when its first computation does. *)
Lemma bind_first_Err {A B} (m : result A) (k : A -> result B) e :
  m = Err e -> bind m k = Err e.
Proof. intros ->. reflexivity. Qed.

(** Destruct every successful bind in the hypotheses. *)
Ltac inv_ok :=
  repeat match goal with
  | H : bind _ _ = Ok _ |- _ =>
      apply bind_eq_Ok in H; destruct H as (? & ? & H)
  | H : Ok _ = Ok _ |- _ => injection H as H
  | H : Ok _ = Err _ |- _ => discriminate H
  | H : Err _ = Ok _ |- _ => discriminate H
  end.

(** With non-negative bounds a Python slice is a [take] of a [drop]. *)
Lemma py_slice_nonneg {A} (l : list A) (a b : Z) :
  0 <= a -> a <= b ->
  py_slice a b l = take (Z.to_nat (b - a)) (drop (Z.to_nat a) l).
Proof.
  intros Ha Hab. unfold py_slice, py_adjust.
  destruct (Z.ltb_spec a 0); [lia|]. destruct (Z.ltb_spec b 0); [lia|].
  destruct (decide (Z.to_nat a <= length l)%nat) as [Hle|Hgt].
  - rewrite (Z.min_l a) by lia.
    apply list_eq. intros i. rewrite !lookup_take, !lookup_drop.
    repeat case_decide; try reflexivity; first
      [ lia | symmetry; apply lookup_ge_None_2; lia | apply lookup_ge_None_2; lia ].
  - rewrite !drop_ge by lia. by rewrite !take_nil.
Qed.

(** [l[:n]] is [take n l]. *)
Lemma py_slice_prefix {A} (l : list A) (n : Z) :
  0 <= n -> py_slice 0 n l = take (Z.to_nat n) l.
Proof. intros Hn. rewrite py_slice_nonneg by lia. by rewrite Z.sub_0_r. Qed.

#[export] Hint Resolve Forall_take Forall_drop : pyfacts.

(** A slice keeps a property of every element. *)
Lemma Forall_py_slice {A} (P : A -> Prop) (a b : Z) (l : list A) :
  Forall P l -> Forall P (py_slice a b l).
Proof. intros H. unfold py_slice. auto with pyfacts. Qed.

Lemma Forall_zip_with {A B C} (P : C -> Prop) (f : A -> B -> C) (l : list A) (k : list B) :
  (forall x y, P (f x y)) -> Forall P (zip_with f l k).
Proof. intros Hf. revert k. induction l as [|x l IH]; intros [|y k]; simpl; constructor; auto. Qed.

#[export] Hint Resolve Forall_py_slice : pyfacts.

(** A filter keeps nothing when no element satisfies the predicate. *)
Lemma filter_none {A} (P : A -> Prop) `{!forall x, Decision (P x)} (l : list A) :
  (forall z, z ∈ l -> ~ P z) -> filter P l = [].
Proof.
  induction l as [|x t IH]; intros Hn; [done|].
  rewrite filter_cons, decide_False by (apply Hn; set_solver).
  apply IH. intros z Hz. apply Hn. set_solver.
Qed.

(** Reading past the end of a list gives the default. *)
Lemma nth_lookup_None {A} (l : list A) (i : nat) (d : A) : l !! i = None -> nth i l d = d.
Proof. intros H. apply nth_overflow, lookup_ge_None_1, H. Qed.

(** Split [Forall P [a; b; ...]] into the goals [P a], [P b], ... *)
Ltac forall_list := repeat first [apply Forall_nil_2 | apply Forall_cons_2].

(** ** Sequencing a computation over a list

    A Python [for] loop whose body may raise: the bodies run left to right
    and the first exception ends the loop. *)
Fixpoint mapM {A B} (f : A -> result B) (l : list A) : result (list B) :=
  match l with
  | [] => Ok []
  | x :: t => let? y := f x in let? ys := mapM f t in Ok (y :: ys)
  end.

Lemma mapM_Ok {A B} (f : A -> result B) (l : list A) (ys : list B) :
  mapM f l = Ok ys <-> Forall2 (fun x y => f x = Ok y) l ys.
Proof.
  revert ys. induction l as [|x t IH]; intros ys; simpl.
  - split; [intros [= <-]; constructor|intros H; by inversion H].
  - split.
    + intros H. inv_ok. subst. constructor; [done|by apply IH].
    + intros H. inversion H as [|? y ? ys' Hy Ht]; subst.
      rewrite Hy. simpl. apply IH in Ht. by rewrite Ht.
Qed.

(** The loop raises the exception of the first body that raises. *)
Lemma mapM_Err {A B} (f : A -> result B) (l : list A) (e : exn) :
  mapM f l = Err e <->
  exists l1 x l2, l = l1 ++ x :: l2 /\ Forall (fun y => is_ok (f y) = true) l1 /\ f x = Err e.
Proof.
  induction l as [|x t IH]; simpl.
  - split; [discriminate|]. intros (l1 & ? & ? & H & _). by destruct l1.
  - destruct (f x) as [y|e'] eqn:Hx; simpl.
    + destruct (mapM f t) as [ys|e''] eqn:Ht; simpl.
      * split; [discriminate|]. intros (l1 & z & l2 & Hl & Hok & Hz).
        destruct l1 as [|w l1]; simpl in Hl; injection Hl as Hw Hl; subst; [congruence|].
        apply Forall_cons in Hok as [_ Hok].
        assert (@Ok (list B) ys = Err e) as Hbad by (apply IH; exists l1, z, l2; auto).
        discriminate.
      * rewrite IH. split.
        -- intros (l1 & z & l2 & -> & Hok & Hz). exists (x :: l1), z, l2.
           split; [done|]. split; [|done]. constructor; [by rewrite Hx|done].
        -- intros (l1 & z & l2 & Hl & Hok & Hz).
           destruct l1 as [|w l1]; simpl in Hl; injection Hl as Hw Hl; subst; [congruence|].
           apply Forall_cons in Hok as [_ Hok]. exists l1, z, l2. auto.
    + split.
      * intros [= ->]. exists [], x, t. auto.
      * intros (l1 & z & l2 & Hl & Hok & Hz).
        destruct l1 as [|w l1]; simpl in Hl; injection Hl as Hw' Hl; subst; [congruence|].
        apply Forall_cons in Hok as [Hw _]. by rewrite Hx in Hw.
Qed.

(** [Forall2] weakened using the membership of the left element. *)
Lemma Forall2_impl_in {A B} (R R' : A -> B -> Prop) (l : list A) (k : list B) :
  Forall2 R l k -> (forall x y, x ∈ l -> R x y -> R' x y) -> Forall2 R' l k.
Proof.
  induction 1 as [|x y l k Hxy _ IH]; intros HR; constructor.
  - apply HR; [left|done].
  - apply IH. intros x' y' Hx'. apply HR. by right.
Qed.

Lemma mapM_length {A B} (f : A -> result B) (l : list A) (ys : list B) :
  mapM f l = Ok ys -> length ys = length l.
Proof. intros H%mapM_Ok. symmetry. by eapply Forall2_length. Qed.

(** The loop depends only on what the body does on the list's elements. *)
Lemma mapM_ext_in {A B} (f g : A -> result B) (l : list A) :
  (forall x, x ∈ l -> f x = g x) -> mapM f l = mapM g l.
Proof.
  induction l as [|x t IH]; intros Hfg; [done|]. cbn [mapM].
  rewrite Hfg by set_solver. by rewrite IH by set_solver.
Qed.

(** Reading a mapped list. *)
Lemma lookup_map {A B} (f : A -> B) (l : list A) (i : nat) : map f l !! i = f <$> l !! i.
Proof. revert i. induction l as [|x t IH]; intros [|i]; simpl; auto. Qed.

(** [lia] on goals with [mod] and [/] by constants. *)
Ltac lia_mod := Z.div_mod_to_equations; lia.

(** An invariant of the step of a [for] loop holds after the loop. *)
Lemma fold_left_inv {A B} (P : A -> Prop) (f : A -> B -> A) (l : list B) (a : A) :
  P a -> (forall a b, P a -> P (f a b)) -> P (fold_left f l a).
Proof. revert a. induction l as [|b t IH]; intros a Ha Hf; simpl; auto. Qed.

(** ** Orbits of a map on a finite set *)

Lemma iter_inv {A} (f : A -> A) (P : A -> Prop) (x : A) (k : nat) :
  (forall y, P y -> P (f y)) -> P x -> P (Nat.iter k f x).
Proof. intros Hf Hx. induction k as [|k IH]; simpl; auto. Qed.

(** A list [g 0, ..., g (n - 1)] with a duplicate has two equal entries. *)
Lemma not_NoDup_map_seq {A} `{EqDecision A} (g : nat -> A) (n : nat) :
  ~ NoDup (map g (seq 0 n)) -> exists i j, (i < j < n)%nat /\ g i = g j.
Proof.
  induction n as [|n IH]; intros Hnd; [exfalso; apply Hnd; constructor|].
  rewrite seq_S, map_app in Hnd. simpl in Hnd.
  destruct (decide (NoDup (map g (seq 0 n)))) as [Hn|Hn].
  - destruct (decide (g n ∈ map g (seq 0 n))) as [Hin|Hin].
    + apply list_elem_of_In, in_map_iff in Hin as (i & Hi & Hin). apply in_seq in Hin.
      exists i, n. split; [lia|done].
    + exfalso. apply Hnd, NoDup_app. split; [done|split; [|apply NoDup_singleton]].
      intros y Hy ->%list_elem_of_singleton. done.
  - destruct (IH Hn) as (i & j & ? & ?). exists i, j. split; [lia|done].
Qed.

(** An orbit inside a finite list [U] repeats within [length U] steps. *)
Lemma iter_pigeonhole {A} `{EqDecision A} (f : A -> A) (x : A) (U : list A) :
  (forall k, Nat.iter k f x ∈ U) ->
  exists a b, (a < b <= length U)%nat /\ Nat.iter a f x = Nat.iter b f x.
Proof.
  intros HU. set (l := map (fun k => Nat.iter k f x) (seq 0 (S (length U)))).
  assert (~ NoDup l) as Hnd.
  { intros Hnd. assert (incl l U) as Hincl.
    { intros y Hy. apply in_map_iff in Hy as (k & <- & _). apply list_elem_of_In, HU. }
    assert (length U < length l)%nat as Hlen by (unfold l; rewrite length_map, length_seq; lia).
    destruct (Permutation_pigeonhole Hincl Hlen) as (a & l3 & Hp).
    rewrite Hp in Hnd. apply NoDup_cons in Hnd as [Hnin _]. apply Hnin. left. }
  destruct (not_NoDup_map_seq _ _ Hnd) as (a & b & Hab & E). exists a, b. split; [lia|done].
Qed.

(** For a map injective on an invariant set, an orbit that repeats
    returns to its start. *)
Lemma iter_return {A} (f : A -> A) (P : A -> Prop) (x : A) (a b : nat) :
  (forall y, P y -> P (f y)) -> (forall y z, P y -> P z -> f y = f z -> y = z) -> P x ->
  (a < b)%nat -> Nat.iter a f x = Nat.iter b f x -> Nat.iter (b - a) f x = x.
Proof.
  intros Hf Hinj Hx. revert b. induction a as [|a IH]; intros b Hab E.
  - by rewrite Nat.sub_0_r.
  - destruct b as [|b]; [lia|]. simpl in E.
    apply Hinj in E; [|by apply iter_inv..]. simpl. apply IH; [lia|done].
Qed.
