(* ===== verification/PyStr.v ===== *)
(** * PyStr: Python [str] values, [str.strip()] and [str.join]

    A Python string is a sequence of Unicode code points, modelled as
    [list Z].  [str_strip] is CPython's [do_strip(self, BOTHSTRIP)]: it skips
    whitespace from the left, then from the right of what remains, with the
    whitespace set of [_PyUnicode_IsWhitespace] ([py_isspace]).  [str_join]
    is [sep.join(items)].  Used by [process_frame] (main.py lines 45 and 47). *)

From S2P Require Import Prelude.

Abbreviation pystr := (list Z).

(** A Python literal written in ASCII, as code points. *)
Definition of_ascii (s : string) : pystr :=
  map (fun c => Z.of_nat (Ascii.nat_of_ascii c)) (String.list_ascii_of_string s).

(** [Py_UNICODE_ISSPACE]: the code points for which [str.isspace()] holds. *)
Definition py_isspace (c : Z) : bool :=
  ((9 <=? c) && (c <=? 13)) || ((28 <=? c) && (c <=? 32)) ||
  (c =? 133) || (c =? 160) || (c =? 5760) ||
  ((8192 <=? c) && (c <=? 8202)) ||
  (c =? 8232) || (c =? 8233) || (c =? 8239) || (c =? 8287) || (c =? 12288).

Definition is_space (c : Z) : Prop := py_isspace c = true.

(** The left scan of [do_strip]: advance while the character is whitespace. *)
Fixpoint lstrip (s : pystr) : pystr :=
  match s with
  | [] => []
  | c :: t => if py_isspace c then lstrip t else s
  end.

(** The right scan of [do_strip], on what the left scan left. *)
Definition rstrip (s : pystr) : pystr := rev (lstrip (rev s)).

(** [s.strip()]. *)
Definition str_strip (s : pystr) : pystr := rstrip (lstrip s).

(** [sep.join(items)]: the items separated by [sep], [""] for no item. *)
Fixpoint str_join (sep : pystr) (items : list pystr) : pystr :=
  match items with
  | [] => []
  | [x] => x
  | x :: rest => x ++ sep ++ str_join sep rest
  end.

(** [s.split(c)] for a one-character separator [c] (the reference used to
    state that joining loses nothing): the fields between occurrences of
    [c]; [""] splits into [[""]]. *)
Fixpoint str_split (c : Z) (s : pystr) : list pystr :=
  match s with
  | [] => [[]]
  | x :: t =>
      if x =? c then [] :: str_split c t
      else match str_split c t with
           | [] => [[x]]
           | f :: fs => (x :: f) :: fs
           end
  end.

(** The trimmed form of a string: empty, or starting and ending with a
    character that is not whitespace. *)
Definition trimmed (m : pystr) : Prop :=
  m = [] \/ (exists c t, m = c :: t /\ py_isspace c = false) /\
            (exists c t, m = t ++ [c] /\ py_isspace c = false).

(** ** Lemmas on the scans *)

Lemma lstrip_spaces_app (p s : pystr) :
  Forall is_space p -> lstrip (p ++ s) = lstrip s.
Proof. induction 1 as [|c p Hc _ IH]; simpl; [done|]. by rewrite Hc. Qed.

Lemma lstrip_nonspace (c : Z) (t : pystr) :
  py_isspace c = false -> lstrip (c :: t) = c :: t.
Proof. intros H. simpl. by rewrite H. Qed.

Lemma lstrip_all_space (s : pystr) : Forall is_space s -> lstrip s = [].
Proof. intros H. rewrite <- (app_nil_r s). by rewrite lstrip_spaces_app. Qed.

(** The left scan removes a whitespace prefix and stops at a non-space. *)
Lemma lstrip_split (s : pystr) :
  exists p, s = p ++ lstrip s /\ Forall is_space p /\
    (lstrip s = [] \/ exists c t, lstrip s = c :: t /\ py_isspace c = false).
Proof.
  induction s as [|c t IH]; simpl.
  - exists []. auto.
  - destruct (py_isspace c) eqn:Hc.
    + destruct IH as (p & Hp & Hsp & Hend).
      exists (c :: p). simpl. rewrite <- Hp. repeat split; auto.
    + exists []. split; [done|]. split; [constructor|]. right. eauto.
Qed.

Lemma rstrip_spaces_app (m q : pystr) :
  Forall is_space q -> rstrip (m ++ q) = rstrip m.
Proof.
  intros Hq. unfold rstrip. rewrite rev_app_distr, lstrip_spaces_app; [done|].
  by apply Forall_rev.
Qed.

Lemma rstrip_nonspace (c : Z) (t : pystr) :
  py_isspace c = false -> rstrip (t ++ [c]) = t ++ [c].
Proof.
  intros H. unfold rstrip. rewrite rev_app_distr. simpl.
  rewrite H. simpl. by rewrite rev_involutive.
Qed.

Lemma rstrip_split (s : pystr) :
  exists q, s = rstrip s ++ q /\ Forall is_space q /\
    (rstrip s = [] \/ exists c t, rstrip s = t ++ [c] /\ py_isspace c = false).
Proof.
  destruct (lstrip_split (rev s)) as (p & Hp & Hsp & Hend).
  exists (rev p). unfold rstrip. split; [|split].
  - rewrite <- rev_app_distr, <- Hp. by rewrite rev_involutive.
  - by apply Forall_rev.
  - destruct Hend as [-> | (c & t & -> & Hc)]; [by left|].
    right. exists c, (rev t). done.
Qed.

(** A non-space head survives the right scan. *)
Lemma rstrip_cons_nonspace (c : Z) (t : pystr) :
  py_isspace c = false -> exists t', rstrip (c :: t) = c :: t'.
Proof.
  intros Hc. destruct (rstrip_split t) as (q & Hq & Hsq & _).
  exists (rstrip t). rewrite Hq at 1. rewrite app_comm_cons, rstrip_spaces_app by done.
  destruct (rstrip_split t) as (_ & _ & _ & [Ht | (d & u & Ht & Hd)]).
  - rewrite Ht. unfold rstrip. simpl. by rewrite Hc.
  - rewrite Ht, app_comm_cons. by rewrite rstrip_nonspace.
Qed.

#[export] Hint Resolve lstrip_spaces_app rstrip_spaces_app : pyfacts.

(** ** Lemmas on join and split *)

Lemma str_join_cons (sep x : pystr) (rest : list pystr) :
  rest <> [] -> str_join sep (x :: rest) = x ++ sep ++ str_join sep rest.
Proof. destruct rest; [done|reflexivity]. Qed.

Lemma str_split_not_nil (c : Z) (s : pystr) : str_split c s <> [].
Proof.
  induction s as [|x t IH]; simpl; [done|].
  destruct (x =? c); [done|]. by destruct (str_split c t).
Qed.

(** Splitting a field that has no separator, followed by the rest. *)
Lemma str_split_field (c : Z) (x rest : pystr) :
  ~ c ∈ x -> str_split c (x ++ c :: rest) = x :: str_split c rest.
Proof.
  induction x as [|y x IH]; intros Hx; simpl.
  - by rewrite Z.eqb_refl.
  - rewrite elem_of_cons in Hx.
    destruct (Z.eqb_spec y c); [subst; tauto|].
    rewrite IH by tauto. reflexivity.
Qed.

Lemma str_split_last (c : Z) (x : pystr) :
  ~ c ∈ x -> str_split c x = [x].
Proof.
  induction x as [|y x IH]; intros Hx; simpl; [done|].
  rewrite elem_of_cons in Hx.
  destruct (Z.eqb_spec y c); [subst; tauto|].
  rewrite IH by tauto. reflexivity.
Qed.

(** ** Properties of [str.strip()] *)

(** The strip of [s] is a trimmed infix of [s] framed by whitespace. *)
Lemma str_strip_decompose (s : pystr) :
  exists p q, s = p ++ str_strip s ++ q /\ Forall is_space p /\
    Forall is_space q /\ trimmed (str_strip s).
Proof.
  destruct (lstrip_split s) as (p & Hp & Hsp & Hl).
  destruct (rstrip_split (lstrip s)) as (q & Hq & Hsq & Hr).
  exists p, q. unfold str_strip. rewrite <- Hq. repeat split; [done..|].
  destruct Hr as [Hr | (d & u & Hr & Hd)]; [by left|]. right. split; [|eauto].
  destruct Hl as [Hl | (c & t & Hl & Hc)].
  - rewrite Hl in Hr. by destruct u.
  - rewrite Hl. destruct (rstrip_cons_nonspace c t Hc) as (t' & ->). eauto.
Qed.

(** Stripping a trimmed string framed by whitespace gives it back. *)
Lemma str_strip_frame (p m q : pystr) :
  Forall is_space p -> Forall is_space q -> trimmed m ->
  str_strip (p ++ m ++ q) = m.
Proof.
  intros Hp Hq Hm. unfold str_strip. rewrite lstrip_spaces_app by done.
  destruct Hm as [-> | ((c & t & -> & Hc) & (d & u & Hu & Hd))].
  - simpl. by rewrite lstrip_all_space.
  - rewrite <- app_comm_cons, lstrip_nonspace by done.
    rewrite app_comm_cons, rstrip_spaces_app by done.
    rewrite Hu. by apply rstrip_nonspace.
Qed.

(** [s.strip()] is exactly the trimmed middle of [s]: [str_strip s = m]
    holds if and only if [s] is [m] framed by two runs of Python whitespace
    and [m] is empty or starts and ends with a non-whitespace code point. *)
Lemma str_strip_iff (s m : pystr) :
  str_strip s = m <->
  exists p q, s = p ++ m ++ q /\ Forall is_space p /\ Forall is_space q /\ trimmed m.
Proof.
  split.
  - intros <-. apply str_strip_decompose.
  - intros (p & q & -> & Hp & Hq & Hm). by apply str_strip_frame.
Qed.

(** C34. [s.strip()] is exactly the trimmed middle of [s]: [str_strip s = m]
    holds if and only if [s] is [m] framed by two runs of Python whitespace
    and [m] is empty or starts and ends with a non-whitespace code point. *)
Theorem str_strip_spec (s m : pystr) :
  str_strip s = m <->
  exists p q, s = p ++ m ++ q /\ Forall is_space p /\ Forall is_space q /\ trimmed m.
Proof. apply str_strip_iff. Qed.

(** Stripping twice is stripping once. *)
Lemma str_strip_idempotent (s : pystr) : str_strip (str_strip s) = str_strip s.
Proof.
  destruct (str_strip_decompose s) as (p & q & _ & _ & _ & Hm).
  rewrite <- (app_nil_r (str_strip s)) at 1. rewrite <- (app_nil_l (str_strip s ++ [])).
  by apply str_strip_frame.
Qed.

(** A string strips to [""] exactly when it is all whitespace. *)
Lemma str_strip_empty_iff (s : pystr) : str_strip s = [] <-> Forall is_space s.
Proof.
  rewrite str_strip_iff. split.
  - intros (p & q & -> & Hp & Hq & _). simpl. by apply Forall_app.
  - intros Hs. exists s, []. rewrite !app_nil_r. repeat split; auto. by left.
Qed.

(** ** Properties of [sep.join] *)

(** Joining two non-empty sequences: the separator goes between them, and
    the order of the items is kept. *)
Lemma str_join_app (sep : pystr) (l1 l2 : list pystr) :
  l1 <> [] -> l2 <> [] ->
  str_join sep (l1 ++ l2) = str_join sep l1 ++ sep ++ str_join sep l2.
Proof.
  intros H1 H2. induction l1 as [|x l1 IH]; [done|].
  destruct l1 as [|y l1].
  - simpl. by destruct l2.
  - change ((x :: y :: l1) ++ l2) with (x :: ((y :: l1) ++ l2)).
    rewrite str_join_cons by done. rewrite IH by done. rewrite (str_join_cons sep x (y :: l1)) by done.
    by rewrite !app_assoc.
Qed.

(** The length of a join: the items plus one separator between each two. *)
Lemma str_join_length (sep : pystr) (items : list pystr) :
  length (str_join sep items) =
  (sum_list (map length items) + (length items - 1) * length sep)%nat.
Proof.
  induction items as [|x [|y rest] IH]; [done|simpl; lia|].
  rewrite str_join_cons by done. rewrite !length_app, IH. simpl. lia.
Qed.

(** C35. Joining with a one-character separator loses nothing: when no item
    contains the separator, splitting the joined string on it gives the
    items back, in order. *)
Theorem str_split_join (c : Z) (items : list pystr) :
  items <> [] -> Forall (fun x => ~ c ∈ x) items ->
  str_split c (str_join [c] items) = items.
Proof.
  intros Hne Hall. induction Hall as [|x rest Hx Hrest IH]; [done|].
  destruct rest as [|y rest].
  - simpl. by apply str_split_last.
  - rewrite str_join_cons by done. cbn [app].
    rewrite str_split_field by done. rewrite IH by done. reflexivity.
Qed.

(** Joining the fields of a split gives the string back. *)
Lemma str_join_split (c : Z) (s : pystr) : str_join [c] (str_split c s) = s.
Proof.
  induction s as [|x t IH]; [done|]. simpl.
  destruct (Z.eqb_spec x c) as [->|Hne].
  - rewrite str_join_cons by apply str_split_not_nil. by rewrite IH.
  - pose proof (str_split_not_nil c t) as Hnn.
    destruct (str_split c t) as [|f fs] eqn:Hs; [done|].
    destruct fs as [|g fs]; simpl in *; [by rewrite IH|].
    by rewrite IH.
Qed.

(** ** Witnesses *)

(** The ideographic space U+3000, common around Chinese OCR output, is
    stripped as well as newlines and ASCII spaces. *)
Example str_strip_example :
  str_strip [32; 12288; 20320; 32; 22909; 10; 12] = [20320; 32; 22909].
Proof. reflexivity. Qed.

Lemma str_split_join_witness :
  [of_ascii "a"; of_ascii "bc"] <> [] /\
  Forall (fun x => ~ 32 ∈ x) [of_ascii "a"; of_ascii "bc"] /\
  str_split 32 (str_join [32] [of_ascii "a"; of_ascii "bc"]) = [of_ascii "a"; of_ascii "bc"].
Proof.
  assert (Hall : Forall (fun x => ~ 32 ∈ x) [of_ascii "a"; of_ascii "bc"])
    by (constructor; [|constructor; [|constructor]]; simpl; set_solver).
  split; [done|]. split; [exact Hall|].
  apply (str_split_join 32 [of_ascii "a"; of_ascii "bc"]); [done|exact Hall].
Defined.
