(* ===== verification/PySort.v ===== *)
(** * PySort: CPython's [sorted(xs, key=key, reverse=True)]

    [list.sort] with [reverse=True] reverses the list, sorts it stably in
    ascending order comparing keys with [<] only, and reverses the result
    ([Objects/listobject.c], [list_sort_impl]).  On the short runs the
    program sorts, the stable ascending sort is [binarysort]: each element is
    inserted after every element whose key is not greater ([ins]).  Timsort's
    merging on long inputs is not written out: [stable_desc_sort_eq]
    shows that every stable descending sort returns the same list, so any
    stable implementation agrees with [sorted_rev].  Used for main.py
    line 30, [sorted(filtered_contours, key=cv2.contourArea, reverse=True)]. *)

From S2P Require Import Prelude.

Section PySorted.
Context {A : Type} (key : A -> Z).

(** [binarysort]'s insertion of a pivot into the sorted prefix: it goes
    to the first position whose element is strictly greater ([ISLT]). *)
Fixpoint ins (x : A) (l : list A) : list A :=
  match l with
  | [] => [x]
  | y :: t => if key x <? key y then x :: y :: t else y :: ins x t
  end.

(** The ascending pass: insert the elements one by one, left to right. *)
Fixpoint isort_acc (acc l : list A) : list A :=
  match l with
  | [] => acc
  | x :: t => isort_acc (ins x acc) t
  end.

Definition sort_asc (l : list A) : list A := isort_acc [] l.

(** [sorted(l, key=key, reverse=True)]. *)
Definition sorted_rev (l : list A) : list A := rev (sort_asc (rev l)).

(** A reference descending sort, written directly: each element, taken
    from the right, goes before the first element whose key is not
    greater. *)
Fixpoint ins_desc (x : A) (l : list A) : list A :=
  match l with
  | [] => [x]
  | y :: t => if key y <=? key x then x :: y :: t else y :: ins_desc x t
  end.

Definition sort_desc_ref (l : list A) : list A := foldr ins_desc [] l.

(** Strong sortedness under a comparison of keys, as a boolean test. *)
Fixpoint ssorted (R : Z -> Z -> bool) (l : list A) : bool :=
  match l with
  | [] => true
  | x :: t => forallb (fun y => R (key x) (key y)) t && ssorted R t
  end.

Definition sorted_desc (l : list A) : bool := ssorted (fun a b => b <=? a) l.
Definition sorted_asc (l : list A) : bool := ssorted Z.leb l.

(** [r] keeps, for every key value, the elements of [l] with that key in
    their order in [l]: stability, and a permutation of [l]. *)
Definition same_classes (l r : list A) : Prop :=
  forall k, filter (fun z => key z = k) r = filter (fun z => key z = k) l.

(** The contract of a stable descending sort. *)
Definition stable_desc_sort_of (l r : list A) : Prop :=
  sorted_desc r = true /\ same_classes l r.

(** ** Sortedness lemmas *)

Lemma ssorted_cons R x t :
  ssorted R (x :: t) = true <->
  (forall y, y ∈ t -> R (key x) (key y) = true) /\ ssorted R t = true.
Proof.
  simpl. rewrite andb_true_iff, forallb_forall.
  setoid_rewrite <- list_elem_of_In. done.
Qed.

Lemma ssorted_app_single R l x :
  ssorted R (l ++ [x]) = true <->
  ssorted R l = true /\ (forall y, y ∈ l -> R (key y) (key x) = true).
Proof.
  induction l as [|z l IH]; simpl.
  - split; [intros _; split; [done|set_solver]|done].
  - rewrite !andb_true_iff, !forallb_forall, IH.
    setoid_rewrite <- list_elem_of_In. split.
    + intros [Hz [Hl Hx]]. split; [split|].
      * intros y Hy. apply Hz. set_solver.
      * done.
      * intros y [->|Hy]%elem_of_cons; [apply Hz; set_solver|auto].
    + intros [[Hz Hl] Hx]. split; [|split; [done|intros y Hy; apply Hx; set_solver]].
      intros y [Hy|Hy%list_elem_of_singleton]%elem_of_app; [auto|subst; apply Hx; set_solver].
Qed.

(** Reversing turns a sorted list into one sorted the other way. *)
Lemma ssorted_rev R l :
  ssorted R l = true -> ssorted (fun a b => R b a) (rev l) = true.
Proof.
  induction l as [|x t IH]; [done|]. rewrite ssorted_cons. intros [Hx Ht].
  simpl. apply ssorted_app_single. split; [auto|].
  intros y Hy. apply Hx. apply list_elem_of_In, in_rev, list_elem_of_In, Hy.
Qed.

Lemma filter_rev (P : A -> Prop) `{!forall z, Decision (P z)} l :
  filter P (rev l) = rev (filter P l).
Proof.
  induction l as [|x t IH]; [done|]. simpl. rewrite filter_app, IH, filter_cons.
  simpl. rewrite filter_cons. case_decide; simpl; [done|by rewrite app_nil_r].
Qed.

(** ** The insertion step *)

Lemma ins_perm x l : ins x l ≡ₚ x :: l.
Proof.
  induction l as [|y t IH]; simpl; [done|].
  destruct (key x <? key y); [done|]. rewrite IH. constructor.
Qed.

Lemma ins_elem x l z : z ∈ ins x l <-> z = x \/ z ∈ l.
Proof. rewrite (ins_perm x l). apply elem_of_cons. Qed.

Lemma ins_sorted x l : sorted_asc l = true -> sorted_asc (ins x l) = true.
Proof.
  unfold sorted_asc. induction l as [|y t IH]; [done|].
  intros Hs. pose proof Hs as [Hy Ht]%ssorted_cons. simpl.
  destruct (Z.ltb_spec (key x) (key y)) as [Hlt|Hge].
  - apply ssorted_cons. split; [|done].
    intros z [->|Hz]%elem_of_cons; [apply Z.leb_le; lia|].
    apply Hy in Hz. apply Z.leb_le in Hz. apply Z.leb_le. lia.
  - apply ssorted_cons. split; [|auto].
    intros z [->|Hz]%ins_elem; [apply Z.leb_le; lia|auto].
Qed.

(** Inserting [x] appends it to the class of its key: it lands after every
    element with the same key. *)
Lemma ins_filter x l k :
  sorted_asc l = true ->
  filter (fun z => key z = k) (ins x l) =
  filter (fun z => key z = k) l ++ filter (fun z => key z = k) [x].
Proof.
  unfold sorted_asc. induction l as [|y t IH]; intros Hs; simpl; [done|].
  apply ssorted_cons in Hs as [Hy Ht].
  destruct (Z.ltb_spec (key x) (key y)) as [Hlt|Hge].
  - rewrite !filter_cons. simpl.
    destruct (decide (key x = k)) as [Hk|Hk].
    + assert (filter (fun z => key z = k) t = []) as ->.
      { apply filter_none. intros z Hz.
        specialize (Hy z Hz). apply Z.leb_le in Hy. lia. }
      repeat case_decide; simpl; [lia|done].
    + repeat case_decide; simpl; by rewrite ?app_nil_r.
  - rewrite filter_cons. simpl. rewrite filter_cons, IH by done.
    rewrite filter_cons. case_decide; done.
Qed.

Lemma isort_acc_sorted acc l :
  sorted_asc acc = true -> sorted_asc (isort_acc acc l) = true.
Proof. revert acc. induction l; simpl; auto using ins_sorted. Qed.

Lemma isort_acc_filter acc l k :
  sorted_asc acc = true ->
  filter (fun z => key z = k) (isort_acc acc l) =
  filter (fun z => key z = k) acc ++ filter (fun z => key z = k) l.
Proof.
  revert acc. induction l as [|x t IH]; intros acc Hs; simpl.
  - by rewrite app_nil_r.
  - rewrite IH by auto using ins_sorted. rewrite ins_filter by done.
    rewrite <- app_assoc. f_equal. by rewrite <- filter_app.
Qed.

(** ** Uniqueness of the stable descending sort *)

(** The head of a list sorted in descending order has the largest key. *)
Lemma sorted_desc_head x t z :
  sorted_desc (x :: t) = true -> z ∈ x :: t -> key z <= key x.
Proof.
  unfold sorted_desc. rewrite ssorted_cons. intros [Hx _] [->|Hz]%elem_of_cons; [lia|].
  apply Z.leb_le, Hx, Hz.
Qed.

Lemma same_classes_elem l r z : same_classes l r -> z ∈ l -> z ∈ r.
Proof.
  intros Hc Hz. specialize (Hc (key z)).
  assert (z ∈ filter (fun y => key y = key z) l) as Hf by (apply list_elem_of_filter; done).
  rewrite <- Hc in Hf. apply list_elem_of_filter in Hf. by destruct Hf.
Qed.

Lemma same_classes_sym l r : same_classes l r -> same_classes r l.
Proof. intros H k. by rewrite H. Qed.

(** Two lists sorted in descending order with the same key classes are
    equal. *)
Lemma sorted_desc_classes_eq r1 r2 :
  sorted_desc r1 = true -> sorted_desc r2 = true -> same_classes r1 r2 -> r1 = r2.
Proof.
  revert r2. induction r1 as [|x xs IH]; intros [|y ys] H1 H2 Hc.
  - done.
  - exfalso. apply (not_elem_of_nil y), (same_classes_elem (y :: ys) []);
      [by apply same_classes_sym|set_solver].
  - exfalso. apply (not_elem_of_nil x), (same_classes_elem (x :: xs) []);
      [done|set_solver].
  - assert (key x = key y) as Hxy.
    { assert (x ∈ x :: xs) as Hx by set_solver.
      assert (y ∈ y :: ys) as Hy by set_solver.
      pose proof (sorted_desc_head y ys x H2 (same_classes_elem _ _ x Hc Hx)).
      pose proof (sorted_desc_head x xs y H1
        (same_classes_elem _ _ y (same_classes_sym _ _ Hc) Hy)).
      lia. }
    pose proof (Hc (key x)) as Hx. rewrite !filter_cons in Hx.
    rewrite !decide_True in Hx by done. injection Hx as Hyx Hx. subst y.
    f_equal. apply IH.
    + unfold sorted_desc in *. by apply ssorted_cons in H1 as [_ ?].
    + unfold sorted_desc in *. by apply ssorted_cons in H2 as [_ ?].
    + intros k. destruct (decide (key x = k)) as [<-|Hk]; [done|].
      specialize (Hc k). rewrite !filter_cons, !decide_False in Hc by congruence.
      done.
Qed.

(** ** The reference insertion *)

Lemma ins_desc_perm x l : ins_desc x l ≡ₚ x :: l.
Proof.
  induction l as [|y t IH]; simpl; [done|].
  destruct (key y <=? key x); [done|]. rewrite IH. constructor.
Qed.

Lemma ins_desc_sorted x l : sorted_desc l = true -> sorted_desc (ins_desc x l) = true.
Proof.
  unfold sorted_desc. induction l as [|y t IH]; [done|].
  intros Hs. pose proof Hs as [Hy Ht]%ssorted_cons. simpl.
  destruct (Z.leb_spec (key y) (key x)) as [Hle|Hgt].
  - apply ssorted_cons. split; [|done].
    intros z [->|Hz]%elem_of_cons; [apply Z.leb_le; lia|].
    apply Hy in Hz. apply Z.leb_le in Hz. apply Z.leb_le. lia.
  - apply ssorted_cons. split; [|auto].
    intros z Hz. rewrite (ins_desc_perm x t) in Hz.
    apply elem_of_cons in Hz as [->|Hz]; [apply Z.leb_le; lia|auto].
Qed.

(** The reference insertion puts [x] first in the class of its key. *)
Lemma ins_desc_filter x l k :
  sorted_desc l = true ->
  filter (fun z => key z = k) (ins_desc x l) =
  filter (fun z => key z = k) [x] ++ filter (fun z => key z = k) l.
Proof.
  unfold sorted_desc. induction l as [|y t IH]; intros Hs; simpl.
  { by rewrite app_nil_r. }
  apply ssorted_cons in Hs as [Hy Ht].
  destruct (Z.leb_spec (key y) (key x)) as [Hle|Hgt].
  - rewrite !(filter_cons _ x), filter_nil. by case_decide.
  - rewrite filter_cons, IH by done. rewrite !filter_cons, filter_nil.
    repeat case_decide; simpl; solve [done | lia].
Qed.
End PySorted.

(** CPython's [sorted(l, key=key, reverse=True)] sorts stably in
    descending order: the result is in non-increasing key order and, for every
    key value, lists the elements of [l] with that key in their order in [l]. *)
Lemma sorted_rev_stable_desc {A} (key : A -> Z) (l : list A) :
  stable_desc_sort_of key l (sorted_rev key l).
Proof.
  split.
  - unfold sorted_desc, sorted_rev. apply ssorted_rev, isort_acc_sorted. done.
  - intros k. unfold sorted_rev, sort_asc.
    rewrite filter_rev, isort_acc_filter by done. simpl.
    by rewrite filter_rev, rev_involutive.
Qed.

(** C9. CPython's [sorted(l, key=key, reverse=True)] sorts stably in
    descending order: the result is in non-increasing key order and, for every
    key value, lists the elements of [l] with that key in their order in [l]. *)
Theorem sorted_rev_spec {A} (key : A -> Z) (l : list A) :
  stable_desc_sort_of key l (sorted_rev key l).
Proof. apply sorted_rev_stable_desc. Qed.

(** A stable descending sort is unique: any list meeting the contract
    [stable_desc_sort_of] for [l] (in particular Timsort's output on inputs of
    any length) equals [sorted_rev key l]. *)
Lemma stable_desc_sort_eq {A} (key : A -> Z) (l r : list A) :
  stable_desc_sort_of key l r -> r = sorted_rev key l.
Proof.
  intros [Hs Hc]. destruct (sorted_rev_stable_desc key l) as [Hs' Hc'].
  apply sorted_desc_classes_eq with key; [done..|].
  intros k. by rewrite Hc, Hc'.
Qed.

(** C10. A stable descending sort is unique: any list meeting the contract
    [stable_desc_sort_of] for [l] (in particular Timsort's output on inputs of
    any length) equals [sorted_rev key l]. *)
Theorem stable_desc_sort_unique {A} (key : A -> Z) (l r : list A) :
  stable_desc_sort_of key l r -> r = sorted_rev key l.
Proof. apply stable_desc_sort_eq. Qed.

(** The sorted list is a permutation of the input. *)
Lemma sorted_rev_perm {A} (key : A -> Z) (l : list A) : sorted_rev key l ≡ₚ l.
Proof.
  unfold sorted_rev, sort_asc.
  assert (forall acc m, isort_acc key acc m ≡ₚ acc ++ m) as Hacc.
  { intros acc m. revert acc. induction m as [|x t IH]; intros acc; simpl.
    - by rewrite app_nil_r.
    - rewrite IH, ins_perm. simpl. apply Permutation_middle. }
  rewrite Hacc. simpl. by rewrite rev_involutive.
Qed.

(** Reverse, stable ascending sort, reverse (CPython's way of honouring
    [reverse=True]) computes the same list as inserting each element, from
    the right, before the first element whose key is not greater. *)
Lemma sorted_rev_eq_ref {A} (key : A -> Z) (l : list A) :
  sorted_rev key l = sort_desc_ref key l.
Proof.
  symmetry. apply stable_desc_sort_eq. unfold sort_desc_ref.
  induction l as [|x t [IHs IHc]]; simpl; [done|]. split.
  - by apply ins_desc_sorted.
  - intros k. rewrite ins_desc_filter, IHc by done.
    rewrite (filter_cons _ x t), (filter_cons _ x []), filter_nil. by case_decide.
Qed.

(** Ties keep their input order: [(1, 0)] and [(1, 2)] have the same key
    and stay in the order they came in, after the larger keys 5 and 3. *)
Example sorted_rev_example :
  sorted_rev fst [(1, 0); (5, 1); (1, 2); (3, 3)] = [(5, 1); (3, 3); (1, 0); (1, 2)].
Proof. reflexivity. Qed.

(** A prefix of a strongly sorted list is strongly sorted. *)
Lemma ssorted_take {A} (key : A -> Z) R (l : list A) (n : nat) :
  ssorted key R l = true -> ssorted key R (take n l) = true.
Proof.
  revert n. induction l as [|x t IH]; intros [|n] Hs; simpl; [done..|].
  apply ssorted_cons in Hs as [Hx Ht]. apply ssorted_cons. split; [|auto].
  intros y Hy. apply Hx. apply elem_of_take in Hy as (i & Hi & _).
  by eapply list_elem_of_lookup_2.
Qed.

(** In a strongly sorted concatenation, every element of the first part is
    related to every element of the second. *)
Lemma ssorted_app {A} (key : A -> Z) R (l1 l2 : list A) :
  ssorted key R (l1 ++ l2) = true -> forall x y, x ∈ l1 -> y ∈ l2 -> R (key x) (key y) = true.
Proof.
  induction l1 as [|z l1 IH]; simpl; intros Hs x y Hx Hy; [by apply elem_of_nil in Hx|].
  apply andb_true_iff in Hs as [Hz Hs]. rewrite forallb_forall in Hz.
  apply elem_of_cons in Hx as [->|Hx]; [|eauto].
  apply Hz, list_elem_of_In, elem_of_app. by right.
Qed.

Lemma stable_desc_sort_unique_witness :
  stable_desc_sort_of fst [(1, 10); (2, 20); (1, 30); (2, 40)] [(2, 20); (2, 40); (1, 10); (1, 30)] /\
  [(2, 20); (2, 40); (1, 10); (1, 30)] = sorted_rev fst [(1, 10); (2, 20); (1, 30); (2, 40)].
Proof.
  assert (Hc : stable_desc_sort_of fst [(1, 10); (2, 20); (1, 30); (2, 40)]
                 [(2, 20); (2, 40); (1, 10); (1, 30)]).
  { split; [vm_compute; reflexivity|]. intros k. rewrite !filter_cons, !filter_nil; simpl.
    repeat case_decide; subst; try lia; reflexivity. }
  split; [exact Hc|]. apply (stable_desc_sort_unique fst _ _ Hc).
Defined.
