(* ===== verification/Image.v ===== *)
(** * Image: numpy image arrays, [cv2.cvtColor] and cropping

    A [uint8] image of shape [(rows, cols)] is a list of rows ([gray]); a
    three-channel one is a list of rows of [(c0, c1, c2)] triples ([image3]).
    [cvtColor_gray] is [cv2.cvtColor(frame, cv2.COLOR_BGR2GRAY)] (main.py
    line 18) with OpenCV's fixed-point luma ([RGB2Gray<uchar>]:
    [CV_DESCALE(b*1868 + g*9617 + r*4899, 14)]); [cvtColor_bgr] is
    [cv2.COLOR_RGB2BGR] (line 64); [crop] is [gray[y:y+h, x:x+w]]
    (line 38). *)

From S2P Require Import Prelude.

Abbreviation gray := (list (list Z)).
Abbreviation px3 := (Z * Z * Z)%type.
Abbreviation image3 := (list (list px3)).

(** OpenCV's conversion codes used by the program (the values of
    [cv2.COLOR_BGR2GRAY] and [cv2.COLOR_RGB2BGR]). *)
Definition COLOR_BGR2GRAY : Z := 6.
Definition COLOR_RGB2BGR : Z := 4.

Definition u8 (v : Z) : Prop := 0 <= v <= 255.

(** [img] has [h] rows of [w] samples each. *)
Definition has_shape {A} (img : list (list A)) (h w : nat) : Prop :=
  length img = h /\ Forall (fun row => length row = w) img.

(** The sample at row [i], column [j] ([0] outside the array). *)
Definition at2 (img : gray) (i j : nat) : Z := nth j (nth i img []) 0.

Definition all_px {A} (P : A -> Prop) (img : list (list A)) : Prop :=
  Forall (Forall P) img.

(** [CV_DESCALE(x, n)]: rounding right shift. *)
Definition descale (x : Z) (n : Z) : Z := Z.shiftr (x + Z.shiftl 1 (n - 1)) n.

(** Luma of one BGR pixel, [yuv_shift = 14]. *)
Definition bgr2gray_px (p : px3) : Z :=
  let '(b, g, r) := p in descale (b * 1868 + g * 9617 + r * 4899) 14.

Definition rgb2bgr_px (p : px3) : px3 :=
  let '(r, g, b) := p in (b, g, r).

(** [Mat::empty()] of a numpy array: no row, or rows of no column. *)
Definition mat_empty {A} (m : list (list A)) : bool :=
  match m with
  | [] => true
  | row :: _ => bool_decide (row = [])
  end.

(** [cv2.cvtColor] to one channel.  An empty source fails OpenCV's
    assertion [!_src.empty()]; codes other than [COLOR_BGR2GRAY] are not
    modelled and raise. *)
Definition cvtColor_gray (src : image3) (code : Z) : result gray :=
  if mat_empty src then Err (Cv2Error "!_src.empty()")
  else if decide (code = COLOR_BGR2GRAY) then Ok (map (map bgr2gray_px) src)
  else Err (Cv2Error "cvtColor code not modelled").

(** [cv2.cvtColor] between three-channel orders. *)
Definition cvtColor_bgr (src : image3) (code : Z) : result image3 :=
  if mat_empty src then Err (Cv2Error "!_src.empty()")
  else if decide (code = COLOR_RGB2BGR) then Ok (map (map rgb2bgr_px) src)
  else Err (Cv2Error "cvtColor code not modelled").

(** [img[y:y+h, x:x+w]]: rows, then columns, with Python slicing. *)
Definition crop {A} (img : list (list A)) (x y w h : Z) : list (list A) :=
  map (py_slice x (x + w)) (py_slice y (y + h) img).

(** ** Lemmas *)

Lemma descale_14 (x : Z) : descale x 14 = (x + 8192) / 16384.
Proof. unfold descale. rewrite Z.shiftr_div_pow2 by lia. reflexivity. Qed.

(** [cv2.cvtColor(frame, cv2.COLOR_BGR2GRAY)] maps 8-bit samples to
    an 8-bit luma: the fixed-point weighted sum never leaves [0, 255]. *)
Lemma bgr2gray_u8 (b g r : Z) : u8 b -> u8 g -> u8 r -> u8 (bgr2gray_px (b, g, r)).
Proof.
  unfold u8, bgr2gray_px. rewrite descale_14. intros Hb Hg Hr.
  split; [apply Z.div_pos; lia|]. apply Z.lt_succ_r, Z.div_lt_upper_bound; lia.
Qed.

(** C37. [cv2.cvtColor(frame, cv2.COLOR_BGR2GRAY)] maps 8-bit samples to
    an 8-bit luma: the fixed-point weighted sum never leaves [0, 255]. *)
Theorem bgr2gray_px_u8 (b g r : Z) : u8 b -> u8 g -> u8 r -> u8 (bgr2gray_px (b, g, r)).
Proof. apply bgr2gray_u8. Qed.

(** A grey pixel keeps its value: the three weights add up to [2^14]. *)
Lemma bgr2gray_px_grey (v : Z) : bgr2gray_px (v, v, v) = v.
Proof.
  unfold bgr2gray_px. rewrite descale_14.
  replace (v * 1868 + v * 9617 + v * 4899 + 8192) with (8192 + v * 16384) by lia.
  rewrite Z.div_add by lia. reflexivity.
Qed.

Lemma map_map_shape {A B} (f : A -> B) img h w :
  has_shape img h w -> has_shape (map (map f) img) h w.
Proof.
  intros [Hh Hw]. split; [by rewrite length_map|].
  apply Forall_map. eapply Forall_impl; [exact Hw|]. intros row Hr. by rewrite length_map.
Qed.

Lemma all_px_map {A B} (P : A -> Prop) (Q : B -> Prop) (f : A -> B) img :
  (forall p, P p -> Q (f p)) -> all_px P img -> all_px Q (map (map f) img).
Proof.
  intros Hf H. apply Forall_map. eapply Forall_impl; [exact H|].
  intros row Hr. apply Forall_map. eapply Forall_impl; [exact Hr|]. done.
Qed.

#[export] Hint Resolve map_map_shape all_px_map : pyfacts.

Lemma cvtColor_gray_ok (src : image3) :
  mat_empty src = false -> cvtColor_gray src COLOR_BGR2GRAY = Ok (map (map bgr2gray_px) src).
Proof. intros H. unfold cvtColor_gray. rewrite H. by rewrite decide_True. Qed.

(** Rows and columns of a crop inside the array. *)
Lemma length_py_slice_in {A} (l : list A) (a n : Z) :
  0 <= a -> 0 <= n -> a + n <= Z.of_nat (length l) ->
  length (py_slice a (a + n) l) = Z.to_nat n.
Proof.
  intros Ha Hn Hl. rewrite py_slice_nonneg by lia.
  rewrite length_take, length_drop. replace (a + n - a) with n by lia. lia.
Qed.

Lemma lookup_py_slice_in {A} (l : list A) (a n : Z) (i : nat) :
  0 <= a -> 0 <= n -> (i < Z.to_nat n)%nat ->
  py_slice a (a + n) l !! i = l !! (Z.to_nat a + i)%nat.
Proof.
  intros Ha Hn Hi. rewrite py_slice_nonneg by lia.
  rewrite lookup_take, decide_True by lia. by rewrite lookup_drop.
Qed.

(** A property of every in-range read is a property of every pixel. *)
Lemma all_px_at2 (P : Z -> Prop) (img : gray) h w :
  has_shape img h w ->
  (forall i j, (i < h)%nat -> (j < w)%nat -> P (at2 img i j)) -> all_px P img.
Proof.
  intros [Hh Hw] H. apply Forall_lookup_2. intros i row Hrow.
  apply Forall_lookup_2. intros j v Hv.
  pose proof (lookup_lt_Some _ _ _ Hrow) as Hi. pose proof (lookup_lt_Some _ _ _ Hv) as Hj.
  pose proof (Forall_lookup_1 _ _ _ _ Hw Hrow) as Hlen. simpl in Hlen.
  specialize (H i j ltac:(lia) ltac:(lia)). unfold at2 in H.
  by rewrite (nth_lookup_Some img i [] row Hrow), (nth_lookup_Some row j 0 v Hv) in H.
Qed.

(** [gray[y:y+h, x:x+w]] inside the array is the sub-array it names:
    [h] rows of [w] samples, the sample [(i, j)] being the source's
    [(y + i, x + j)]; nothing is clipped. *)
Lemma crop_sub (img : gray) (H W : nat) (x y w h : Z) :
  has_shape img H W -> 0 <= x -> 0 <= y -> 0 <= w -> 0 <= h ->
  x + w <= Z.of_nat W -> y + h <= Z.of_nat H ->
  has_shape (crop img x y w h) (Z.to_nat h) (Z.to_nat w) /\
  forall i j, (i < Z.to_nat h)%nat -> (j < Z.to_nat w)%nat ->
    at2 (crop img x y w h) i j = at2 img (Z.to_nat y + i) (Z.to_nat x + j).
Proof.
  intros [HH HW] Hx Hy Hw Hh Hxw Hyh. unfold crop. split; [split|].
  - rewrite length_map. apply length_py_slice_in; lia.
  - apply Forall_map, Forall_forall. intros row Hrow.
    rewrite py_slice_nonneg in Hrow by lia.
    apply elem_of_take in Hrow as (k & Hk & _). rewrite lookup_drop in Hk.
    pose proof (Forall_lookup_1 _ _ _ _ HW Hk) as Hlen. simpl in Hlen.
    apply length_py_slice_in; lia.
  - intros i j Hi Hj.
    destruct (lookup_lt_is_Some_2 img (Z.to_nat y + i)) as [row Hrow]; [lia|].
    pose proof (Forall_lookup_1 _ _ _ _ HW Hrow) as Hlen. simpl in Hlen.
    destruct (lookup_lt_is_Some_2 row (Z.to_nat x + j)) as [v Hv]; [lia|].
    unfold at2. rewrite (nth_lookup_Some img _ [] row Hrow), (nth_lookup_Some row _ 0 v Hv).
    assert (map (py_slice x (x + w)) (py_slice y (y + h) img) !! i = Some (py_slice x (x + w) row))
      as Hr by (rewrite lookup_map, lookup_py_slice_in, Hrow by lia; reflexivity).
    rewrite (nth_lookup_Some _ _ [] _ Hr). apply nth_lookup_Some.
    by rewrite lookup_py_slice_in by lia.
Qed.

(** C36. [gray[y:y+h, x:x+w]] inside the array is the sub-array it names:
    [h] rows of [w] samples, the sample [(i, j)] being the source's
    [(y + i, x + j)]; nothing is clipped. *)
Theorem crop_in (img : gray) (H W : nat) (x y w h : Z) :
  has_shape img H W -> 0 <= x -> 0 <= y -> 0 <= w -> 0 <= h ->
  x + w <= Z.of_nat W -> y + h <= Z.of_nat H ->
  has_shape (crop img x y w h) (Z.to_nat h) (Z.to_nat w) /\
  forall i j, (i < Z.to_nat h)%nat -> (j < Z.to_nat w)%nat ->
    at2 (crop img x y w h) i j = at2 img (Z.to_nat y + i) (Z.to_nat x + j).
Proof. apply crop_sub. Qed.

(** An array of [h > 0] rows of [w > 0] samples is not empty. *)
Lemma mat_empty_false {A} (img : list (list A)) h w :
  has_shape img h w -> (0 < h)%nat -> (0 < w)%nat -> mat_empty img = false.
Proof.
  intros [Hh Hw] Hph Hpw. destruct img as [|row t]; simpl in *; [lia|].
  apply Forall_cons in Hw as [Hrow _]. apply bool_decide_eq_false. intros ->. simpl in Hrow. lia.
Qed.

Lemma cvtColor_bgr_ok (src : image3) :
  mat_empty src = false -> cvtColor_bgr src COLOR_RGB2BGR = Ok (map (map rgb2bgr_px) src).
Proof. intros H. unfold cvtColor_bgr. rewrite H. by rewrite decide_True. Qed.

(** ** Witnesses *)

Lemma bgr2gray_px_u8_witness : u8 (bgr2gray_px (255, 0, 128)).
Proof. apply bgr2gray_px_u8; unfold u8; lia. Defined.

Lemma crop_in_witness :
  has_shape (crop [[1; 2; 3]; [4; 5; 6]] 1 0 2 2) 2%nat 2%nat /\
  forall i j, (i < 2)%nat -> (j < 2)%nat ->
    at2 (crop [[1; 2; 3]; [4; 5; 6]] 1 0 2 2) i j = at2 [[1; 2; 3]; [4; 5; 6]] (0 + i) (1 + j).
Proof.
  apply (crop_in [[1; 2; 3]; [4; 5; 6]] 2%nat 3%nat 1 0 2 2); try lia.
  split; [reflexivity|]. forall_list; reflexivity.
Defined.
