(* ===== verification/Threshold.v ===== *)
(** * Threshold: [cv2.adaptiveThreshold] with [ADAPTIVE_THRESH_MEAN_C]

    main.py line 21 calls
    [cv2.adaptiveThreshold(gray, 255, cv2.ADAPTIVE_THRESH_MEAN_C,
    cv2.THRESH_BINARY_INV, 11, 2)].  OpenCV ([imgproc/src/thresh.cpp])
    computes the local mean with [boxFilter] over an 11x11 window, borders
    replicated ([BORDER_REPLICATE]); for 8-bit data and a window of at most
    256 samples the column sums are [ushort] and the division by the window
    size is the fixed-point [(s + divDelta) * divScale >> SHIFT] with
    [SHIFT = 23] ([ColumnSum<ushort, uchar>]).  A pixel then becomes [tab[src - mean + 255]]
    with [tab[i] = (i - 255 <= -idelta) ? maxval : 0] for the inverted type.
    [box_mean_u8_121] shows that the fixed-point division is the rounded
    mean on every reachable window sum. *)

From S2P Require Import Prelude Image.

(** The values of the constants [cv2.ADAPTIVE_THRESH_MEAN_C],
    [cv2.ADAPTIVE_THRESH_GAUSSIAN_C], [cv2.THRESH_BINARY] and
    [cv2.THRESH_BINARY_INV]. *)
Definition ADAPTIVE_THRESH_MEAN_C : Z := 0.
Definition ADAPTIVE_THRESH_GAUSSIAN_C : Z := 1.
Definition THRESH_BINARY : Z := 0.
Definition THRESH_BINARY_INV : Z := 1.

(** [BORDER_REPLICATE]: an index outside [0, n) is clamped to the border. *)
Definition clampi (i n : Z) : Z := Z.max 0 (Z.min i (n - 1)).

Definition px_rep (img : gray) (h w i j : Z) : Z :=
  at2 img (Z.to_nat (clampi i h)) (Z.to_nat (clampi j w)).

Definition zsum (f : Z -> Z) (l : list Z) : Z := fold_right (fun x acc => f x + acc) 0 l.

(** The offsets [-r .. r] of a window of odd size [2r + 1]. *)
Definition offsets (r : Z) : list Z := map (fun k => Z.of_nat k - r) (seq 0 (Z.to_nat (2 * r + 1))).

(** The sum of the [ksize x ksize] window centred on [(i, j)]. *)
Definition box_sum (img : gray) (h w ksize i j : Z) : Z :=
  let r := ksize / 2 in
  zsum (fun di => zsum (fun dj => px_rep img h w (i + di) (j + dj)) (offsets r)) (offsets r).

(** [ColumnSum<ushort, uchar>::SHIFT]. *)
Definition SHIFT : Z := 23.

(** [ColumnSum<ushort, uchar>]'s constants for the divisor [d]:
    [divScale = floor(2^SHIFT / d)], [divDelta = d / 2], then one of them is
    incremented depending on the fractional part of [2^SHIFT / d]. *)
Definition box_div (d : Z) : Z * Z :=
  let q := 2 ^ SHIFT / d in
  let rem := 2 ^ SHIFT mod d in
  if 2 * rem <? d then (q, d / 2 + 1) else (q + 1, d / 2).

Definition box_mean_u8 (d s : Z) : Z :=
  let '(divScale, divDelta) := box_div d in Z.shiftr ((s + divDelta) * divScale) SHIFT.

(** The mean image [boxFilter(src, ..., Size(ksize, ksize), normalize=true)]. *)
Definition mean_img (src : gray) (ksize : Z) : gray :=
  let h := Z.of_nat (length src) in
  let w := Z.of_nat (length (nth 0 src [])) in
  imap (fun i row =>
          imap (fun j _ => box_mean_u8 (ksize * ksize) (box_sum src h w ksize (Z.of_nat i) (Z.of_nat j))) row)
       src.

(** [saturate_cast<uchar>] of an integral value. *)
Definition sat_u8 (v : Z) : Z := Z.max 0 (Z.min v 255).

(** The lookup table, indexed by [src - mean + 255]. *)
Definition thresh_tab (type imaxval idelta i : Z) : Z :=
  if decide (type = THRESH_BINARY) then (if i - 255 >? - idelta then imaxval else 0)
  else (if i - 255 <=? - idelta then imaxval else 0).

(** [cv2.adaptiveThreshold(src, maxValue, method, type, blockSize, delta)]
    for an integral [delta] (the program passes [2]).  The Gaussian method
    is not modelled and raises. *)
Definition adaptiveThreshold (src : gray) (maxValue method type blockSize delta : Z)
    : result gray :=
  if negb ((blockSize mod 2 =? 1) && (1 <? blockSize)) then
    Err (Cv2Error "blockSize % 2 == 1 && blockSize > 1")
  else if maxValue <? 0 then Ok (map (map (fun _ => 0)) src)
  else if negb ((type =? THRESH_BINARY) || (type =? THRESH_BINARY_INV)) then
    Err (Cv2Error "Unknown/unsupported threshold type")
  else if negb (method =? ADAPTIVE_THRESH_MEAN_C) then
    Err (Cv2Error "adaptive method not modelled")
  else
    let mean := mean_img src blockSize in
    let imaxval := sat_u8 maxValue in
    let idelta := delta in
    Ok (zip_with (zip_with (fun s m => thresh_tab type imaxval idelta (s - m + 255))) src mean).

(** ** The fixed-point mean *)

Definition round_div (s d : Z) : Z := (2 * s + d) / (2 * d).

(** [P] holds on the [n] integers from [s] on. *)
Fixpoint allZ (P : Z -> bool) (n : nat) (s : Z) : bool :=
  match n with
  | O => true
  | S m => P s && allZ P m (s + 1)
  end.

Lemma allZ_spec P n s x :
  allZ P n s = true -> s <= x < s + Z.of_nat n -> P x = true.
Proof.
  revert s. induction n as [|m IH]; intros s H Hx; simpl in *; [lia|].
  apply andb_true_iff in H as [Hs Hm].
  destruct (decide (x = s)) as [->|Hne]; [done|]. apply (IH (s + 1)); [done|lia].
Qed.

(** For the 11x11 window of the program, OpenCV's fixed-point division
    [(s + 61) * 69327 >> 23] of a window sum [s] of 8-bit samples is the sum
    divided by 121 and rounded to the nearest integer. *)
Lemma box_mean_u8_121 (s : Z) :
  0 <= s <= 121 * 255 -> box_mean_u8 121 s = round_div s 121.
Proof.
  intros Hs. apply Z.eqb_eq.
  apply (allZ_spec (fun s => box_mean_u8 121 s =? round_div s 121) 30856 0);
    [vm_compute; reflexivity | vm_compute Z.of_nat; lia].
Qed.

(** C31. For the 11x11 window of the program, OpenCV's fixed-point division
    [(s + 61) * 69327 >> 23] of a window sum [s] of 8-bit samples is the sum
    divided by 121 and rounded to the nearest integer. *)
Theorem box_mean_u8_round (s : Z) :
  0 <= s <= 121 * 255 -> box_mean_u8 121 s = round_div s 121.
Proof. apply box_mean_u8_121. Qed.

(** ** Reading the arrays *)

Lemma at2_lookup (img : gray) i j row v :
  img !! i = Some row -> row !! j = Some v -> at2 img i j = v.
Proof. intros Hi Hj. unfold at2. rewrite (nth_lookup_Some img i [] row Hi). by apply nth_lookup_Some. Qed.

(** Every read of an 8-bit image, in range or not, is an 8-bit value. *)
Lemma at2_u8 (img : gray) i j : all_px u8 img -> u8 (at2 img i j).
Proof.
  intros H. unfold at2.
  destruct (img !! i) as [row|] eqn:Hi.
  - rewrite (nth_lookup_Some img i [] row Hi).
    destruct (row !! j) as [v|] eqn:Hj.
    + rewrite (nth_lookup_Some row j 0 v Hj).
      eapply Forall_lookup_1 in H; [|exact Hi]. eapply Forall_lookup_1; eauto.
    + rewrite nth_lookup_None by done. unfold u8; lia.
  - rewrite (nth_lookup_None img i []) by done. destruct j; unfold u8; simpl; lia.
Qed.

Lemma shape_lookup {A} (img : list (list A)) h w i :
  has_shape img h w -> (i < h)%nat -> exists row, img !! i = Some row /\ length row = w.
Proof.
  intros [Hh Hw] Hi. destruct (lookup_lt_is_Some_2 img i) as [row Hrow]; [lia|].
  exists row. split; [done|]. exact (Forall_lookup_1 _ _ _ _ Hw Hrow).
Qed.

Lemma zsum_const (c : Z) (l : list Z) : zsum (fun _ => c) l = Z.of_nat (length l) * c.
Proof. induction l; simpl; [done|]. rewrite IHl. lia. Qed.

Lemma zsum_bounds (f : Z -> Z) (l : list Z) lo hi :
  (forall x, lo <= f x <= hi) ->
  Z.of_nat (length l) * lo <= zsum f l <= Z.of_nat (length l) * hi.
Proof. intros Hf. induction l as [|x l IH]; simpl; [lia|]. specialize (Hf x). lia. Qed.

Lemma length_offsets r : 0 <= r -> length (offsets r) = Z.to_nat (2 * r + 1).
Proof. intros _. unfold offsets. by rewrite length_map, length_seq. Qed.

(** A window of an 8-bit image sums to at most [121 * 255]. *)
Lemma box_sum_range (img : gray) h w i j :
  all_px u8 img -> 0 <= box_sum img h w 11 i j <= 121 * 255.
Proof.
  intros Hu. unfold box_sum. change (11 / 2) with 5.
  assert (length (offsets 5) = 11%nat) as Hl by reflexivity.
  assert (forall di, 0 <= zsum (fun dj => px_rep img h w (i + di) (j + dj)) (offsets 5) <= 11 * 255).
  { intros di. pose proof (zsum_bounds (fun dj => px_rep img h w (i + di) (j + dj)) (offsets 5) 0 255) as B.
    rewrite Hl in B. change (Z.of_nat 11) with 11 in B. apply B. intros x. apply at2_u8, Hu. }
  pose proof (zsum_bounds (fun di => zsum (fun dj => px_rep img h w (i + di) (j + dj)) (offsets 5))
                (offsets 5) 0 (11 * 255) H) as B. rewrite Hl in B. change (Z.of_nat 11) with 11 in B. lia.
Qed.

(** ** The program's call *)

(** The pixel that [adaptiveThreshold] writes at [(i, j)]. *)
Lemma adaptiveThreshold_at (src dst : gray) h w i j :
  adaptiveThreshold src 255 ADAPTIVE_THRESH_MEAN_C THRESH_BINARY_INV 11 2 = Ok dst ->
  has_shape src h w -> (0 < h)%nat -> (i < h)%nat -> (j < w)%nat ->
  at2 dst i j =
  thresh_tab THRESH_BINARY_INV 255 2
    (at2 src i j - box_mean_u8 121 (box_sum src (Z.of_nat h) (Z.of_nat w) 11 (Z.of_nat i) (Z.of_nat j)) + 255).
Proof.
  intros Hrun Hs Hh Hi Hj. unfold adaptiveThreshold in Hrun. simpl in Hrun.
  injection Hrun as <-.
  destruct (shape_lookup src h w i Hs Hi) as (row & Hrow & Hlen).
  destruct (shape_lookup src h w 0 Hs Hh) as (row0 & Hrow0 & Hlen0).
  destruct (lookup_lt_is_Some_2 row j) as [v Hv]; [lia|].
  assert (length src = h) as Hlen_src by apply Hs.
  apply (at2_lookup _ _ _ (zip_with (fun s m => thresh_tab THRESH_BINARY_INV 255 2 (s - m + 255))
           row (imap (fun j _ => box_mean_u8 (11 * 11)
                   (box_sum src (Z.of_nat h) (Z.of_nat w) 11 (Z.of_nat i) (Z.of_nat j))) row))).
  - rewrite lookup_zip_with, Hrow. simpl. unfold mean_img.
    rewrite list_lookup_imap, Hrow. simpl.
    rewrite (nth_lookup_Some src 0 [] row0 Hrow0), Hlen0, Hlen_src. reflexivity.
  - rewrite lookup_zip_with, Hv. simpl. rewrite list_lookup_imap, Hv. simpl.
    by rewrite (at2_lookup src i j row v Hrow Hv).
Qed.

Lemma zsum_ext (f g : Z -> Z) (l : list Z) : (forall x, f x = g x) -> zsum f l = zsum g l.
Proof. intros H. induction l; simpl; [done|]. by rewrite H, IHl. Qed.

(** In a non-empty image of one value, every replicated read gives it. *)
Lemma px_rep_uniform (img : gray) h w v i j :
  has_shape img h w -> (0 < h)%nat -> (0 < w)%nat -> all_px (fun p => p = v) img ->
  px_rep img (Z.of_nat h) (Z.of_nat w) i j = v.
Proof.
  intros Hs Hh Hw Hv. unfold px_rep, clampi.
  destruct (shape_lookup img h w (Z.to_nat (Z.max 0 (Z.min i (Z.of_nat h - 1)))) Hs)
    as (row & Hrow & Hlen); [lia|].
  destruct (lookup_lt_is_Some_2 row (Z.to_nat (Z.max 0 (Z.min j (Z.of_nat w - 1))))) as [x Hx]; [lia|].
  rewrite (at2_lookup _ _ _ _ _ Hrow Hx).
  pose proof (Forall_lookup_1 _ _ _ _ Hv Hrow) as Hr. exact (Forall_lookup_1 _ _ _ _ Hr Hx).
Qed.

(** The mean of a uniform window is its value. *)
Lemma box_mean_uniform (img : gray) h w v i j :
  has_shape img h w -> (0 < h)%nat -> (0 < w)%nat -> all_px (fun p => p = v) img -> u8 v ->
  box_mean_u8 121 (box_sum img (Z.of_nat h) (Z.of_nat w) 11 i j) = v.
Proof.
  intros Hs Hh Hw Hv Hu.
  assert (box_sum img (Z.of_nat h) (Z.of_nat w) 11 i j = 121 * v) as ->.
  { unfold box_sum. change (11 / 2) with 5.
    rewrite (zsum_ext _ (fun _ => 11 * v)).
    - rewrite zsum_const. change (Z.of_nat (length (offsets 5))) with 11. lia.
    - intros di. rewrite (zsum_ext _ (fun _ => v)); [by rewrite zsum_const|].
      intros dj. by apply px_rep_uniform. }
  rewrite box_mean_u8_121 by (unfold u8 in Hu; lia). unfold round_div.
  replace (2 * (121 * v) + 121) with (121 + v * 242) by lia.
  rewrite Z.div_add by lia. reflexivity.
Qed.

(** The program's call always returns an image, of the source's shape. *)
Lemma adaptiveThreshold_shape (src : gray) h w :
  has_shape src h w -> (0 < h)%nat ->
  exists dst, adaptiveThreshold src 255 ADAPTIVE_THRESH_MEAN_C THRESH_BINARY_INV 11 2 = Ok dst /\
              has_shape dst h w.
Proof.
  intros [Hh Hw] Hpos. eexists. split; [reflexivity|]. split.
  - rewrite length_zip_with. unfold mean_img. rewrite length_imap. lia.
  - apply Forall_lookup_2. intros i row Hrow.
    rewrite lookup_zip_with in Hrow. unfold mean_img in Hrow. rewrite list_lookup_imap in Hrow.
    destruct (src !! i) as [r|] eqn:Hr; [|discriminate]. simpl in Hrow. injection Hrow as <-.
    rewrite length_zip_with, length_imap. pose proof (Forall_lookup_1 _ _ _ _ Hw Hr). simpl in *. lia.
Qed.

(** C29. [cv2.adaptiveThreshold(gray, 255, ADAPTIVE_THRESH_MEAN_C,
    THRESH_BINARY_INV, 11, 2)] marks a pixel [255] exactly when it is at
    least 2 darker than the rounded mean of its 11x11 window (borders
    replicated), and [0] otherwise. *)
Theorem adaptiveThreshold_spec (src dst : gray) h w i j :
  adaptiveThreshold src 255 ADAPTIVE_THRESH_MEAN_C THRESH_BINARY_INV 11 2 = Ok dst ->
  has_shape src h w -> all_px u8 src -> (0 < h)%nat -> (i < h)%nat -> (j < w)%nat ->
  at2 dst i j =
  if at2 src i j + 2 <=? round_div (box_sum src (Z.of_nat h) (Z.of_nat w) 11 (Z.of_nat i) (Z.of_nat j)) 121
  then 255 else 0.
Proof.
  intros Hrun Hs Hu Hh Hi Hj. rewrite (adaptiveThreshold_at src dst h w i j) by done.
  rewrite box_mean_u8_121 by apply box_sum_range, Hu.
  unfold thresh_tab. rewrite decide_False by discriminate.
  set (m := round_div _ 121).
  destruct (Z.leb_spec (at2 src i j + 2) m).
  - rewrite (proj2 (Z.leb_le _ _)) by lia. reflexivity.
  - rewrite (proj2 (Z.leb_gt _ _)) by lia. reflexivity.
Qed.

(** A uniform image (a blank frame) thresholds to all zeros: no pixel is
    darker than its neighbourhood, so nothing is marked as ink. *)
Lemma thresh_prog_uniform (src dst : gray) h w v :
  adaptiveThreshold src 255 ADAPTIVE_THRESH_MEAN_C THRESH_BINARY_INV 11 2 = Ok dst ->
  has_shape src h w -> (0 < h)%nat -> (0 < w)%nat -> all_px (fun p => p = v) src -> u8 v ->
  all_px (fun p => p = 0) dst.
Proof.
  intros Hrun Hs Hh Hw Hv Hu.
  destruct (adaptiveThreshold_shape src h w Hs Hh) as (dst' & Hrun' & Hs').
  rewrite Hrun in Hrun'. injection Hrun' as <-.
  apply (all_px_at2 _ dst h w Hs'). intros i j Hi Hj.
  rewrite (adaptiveThreshold_at src dst h w i j) by done.
  rewrite box_mean_uniform with (v := v) by done.
  destruct (shape_lookup src h w i Hs Hi) as (row & Hrow & Hlen).
  destruct (lookup_lt_is_Some_2 row j) as [x Hx]; [lia|].
  rewrite (at2_lookup _ _ _ _ _ Hrow Hx).
  pose proof (Forall_lookup_1 _ _ _ _ (Forall_lookup_1 _ _ _ _ Hv Hrow) Hx) as ->.
  unfold thresh_tab. rewrite decide_False by discriminate.
  by replace (v - v + 255 - 255) with 0 by lia.
Qed.

(** C30. A uniform image (a blank frame) thresholds to all zeros: no pixel is
    darker than its neighbourhood, so nothing is marked as ink. *)
Theorem adaptiveThreshold_uniform (src dst : gray) h w v :
  adaptiveThreshold src 255 ADAPTIVE_THRESH_MEAN_C THRESH_BINARY_INV 11 2 = Ok dst ->
  has_shape src h w -> (0 < h)%nat -> (0 < w)%nat -> all_px (fun p => p = v) src -> u8 v ->
  all_px (fun p => p = 0) dst.
Proof. apply thresh_prog_uniform. Qed.

(** ** Witnesses *)

(** A dark dot on a light 3x3 patch is the only pixel marked as ink. *)
Definition dot_src : gray := [[200; 200; 200]; [200; 10; 200]; [200; 200; 200]].
Definition dot_dst : gray := [[0; 0; 0]; [0; 255; 0]; [0; 0; 0]].

Lemma adaptiveThreshold_spec_witness :
  at2 dot_dst 1 1 =
  (if at2 dot_src 1 1 + 2 <=? round_div (box_sum dot_src 3 3 11 1 1) 121 then 255 else 0).
Proof.
  apply (adaptiveThreshold_spec dot_src dot_dst 3 3 1 1).
  - vm_compute. reflexivity.
  - split; [reflexivity|]. repeat constructor.
  - repeat constructor; unfold u8; lia.
  - lia.
  - lia.
  - lia.
Defined.

Lemma adaptiveThreshold_uniform_witness : all_px (fun p => p = 0) [[0; 0]; [0; 0]].
Proof.
  apply (adaptiveThreshold_uniform [[7; 7]; [7; 7]] [[0; 0]; [0; 0]] 2 2 7).
  - vm_compute. reflexivity.
  - split; [reflexivity|]. repeat constructor.
  - lia.
  - lia.
  - repeat constructor.
  - unfold u8; lia.
Defined.

(** The image the program's call returns. *)
Definition thresh_prog (src : gray) : gray :=
  zip_with (zip_with (fun s m => thresh_tab THRESH_BINARY_INV 255 2 (s - m + 255))) src (mean_img src 11).

Lemma adaptiveThreshold_prog (src : gray) :
  adaptiveThreshold src 255 ADAPTIVE_THRESH_MEAN_C THRESH_BINARY_INV 11 2 = Ok (thresh_prog src).
Proof. reflexivity. Qed.

(** The window sum [1391] is where a 16-bit fixed point would round up. *)
Lemma box_mean_u8_round_witness : box_mean_u8 121 1391 = round_div 1391 121.
Proof. apply box_mean_u8_round. lia. Defined.
