(* ===== verification/Contours.v ===== *)
(** * Contours: [cv2.findContours], [cv2.contourArea], [cv2.boundingRect]

    A contour is the list of its integer points [(x, y)], as the [(n, 1, 2)]
    array [cv2.findContours] returns.  [contourArea] is OpenCV's
    [cv::contourArea(contour, oriented=false)]: half the absolute value of
    the shoelace sum, starting from the pair (last point, first point); it is
    exact in [double] on screen coordinates, so it is a rational with
    denominator 2 ([contourArea2] is twice it).  [boundingRect] is
    [pointSetBoundingRect]: [(xmin, ymin, xmax - xmin + 1, ymax - ymin + 1)],
    and [(0, 0, 0, 0)] for no point.  [ContourFinder] states what the
    pipeline relies on of [cv2.findContours] (nothing is found in an
    all-zero image; every contour is a non-empty list of points of the
    image); the border following itself is the instance [suzuki] of
    [Suzuki].  main.py lines 24, 27, 30 and 35. *)

From Stdlib Require Import QArith.
From S2P Require Import Prelude Image.

Abbreviation point := (Z * Z)%type.
Abbreviation contour := (list point).

(** The values of [cv2.RETR_EXTERNAL] and [cv2.CHAIN_APPROX_SIMPLE]. *)
Definition RETR_EXTERNAL : Z := 0.
Definition CHAIN_APPROX_SIMPLE : Z := 2.

(** ** [cv2.contourArea] *)

(** [a00 += prev.x * p.y - prev.y * p.x] over the points, [prev] starting
    at the last point. *)
Fixpoint shoelace_from (prev : point) (c : contour) : Z :=
  match c with
  | [] => 0
  | p :: t => (prev.1 * p.2 - prev.2 * p.1) + shoelace_from p t
  end.

Definition shoelace (c : contour) : Z :=
  match last c with
  | None => 0
  | Some q => shoelace_from q c
  end.

(** Twice the unoriented area. *)
Definition contourArea2 (c : contour) : Z := Z.abs (shoelace c).

(** [cv2.contourArea(c)], as the exact value of the returned [double]. *)
Definition contourArea (c : contour) : Q := Qmake (contourArea2 c) 2.

(** [cv2.contourArea(contour) > 1000] (main.py line 27). *)
Definition area_over_1000 (c : contour) : bool :=
  negb (Qle_bool (contourArea c) (inject_Z 1000)).

(** ** [cv2.boundingRect] *)

Record rect := Rect { rx : Z; ry : Z; rw : Z; rh : Z }.

Definition boundingRect (c : contour) : rect :=
  match c with
  | [] => Rect 0 0 0 0
  | p :: t =>
      let xmin := fold_left (fun m q => Z.min m q.1) t p.1 in
      let xmax := fold_left (fun m q => Z.max m q.1) t p.1 in
      let ymin := fold_left (fun m q => Z.min m q.2) t p.2 in
      let ymax := fold_left (fun m q => Z.max m q.2) t p.2 in
      Rect xmin ymin (xmax - xmin + 1) (ymax - ymin + 1)
  end.

(** A point of an image with [h] rows and [w] columns. *)
Definition in_image (h w : nat) (p : point) : Prop :=
  0 <= p.1 < Z.of_nat w /\ 0 <= p.2 < Z.of_nat h.

(** ** [cv2.findContours] *)

(** What the pipeline needs of [cv2.findContours(thresh, RETR_EXTERNAL,
    CHAIN_APPROX_SIMPLE)]: the contours of a binary image. *)
Class ContourFinder := {
  find_external : gray -> list contour;
  find_external_blank : forall img, all_px (fun p => p = 0) img -> find_external img = [];
  find_external_points : forall img h w c, has_shape img h w -> c ∈ find_external img ->
    c <> [] /\ Forall (in_image h w) c
}.

(** The call [cv2.findContours(image, mode, method)] returns the pair
    [(contours, hierarchy)]; only the program's mode and method are
    modelled, other values raise. *)
Definition findContours `{ContourFinder} (img : gray) (mode method : Z)
    : result (list contour * unit) :=
  if decide (mode = RETR_EXTERNAL /\ method = CHAIN_APPROX_SIMPLE)
  then Ok (find_external img, tt)
  else Err (Cv2Error "findContours mode or method not modelled").

(** ** Area lemmas *)

(** The filter of line 27 compares twice the area with 2000. *)
Lemma area_over_1000_iff (c : contour) : area_over_1000 c = true <-> 2000 < contourArea2 c.
Proof.
  unfold area_over_1000. rewrite negb_true_iff.
  destruct (Qle_bool _ _) eqn:E.
  - apply Qle_bool_iff in E. unfold Qle, contourArea in E. simpl in E. split; [discriminate|lia].
  - split; [intros _|done]. destruct (Z.lt_ge_cases 2000 (contourArea2 c)) as [?|Hge]; [done|].
    exfalso. assert (Qle_bool (contourArea c) (inject_Z 1000) = true) as E'; [|congruence].
    apply Qle_bool_iff. unfold Qle, contourArea. simpl. lia.
Qed.

(** Comparing the areas as [double]s is comparing [contourArea2]: sorting by
    [cv2.contourArea] is sorting by [contourArea2]. *)
Lemma contourArea_lt_iff (c1 c2 : contour) :
  (contourArea c1 < contourArea c2)%Q <-> contourArea2 c1 < contourArea2 c2.
Proof. unfold Qlt, contourArea. simpl. lia. Qed.

(** The area of an axis-aligned rectangle given by its four corners. *)
Lemma contourArea2_rect (x y w h : Z) :
  0 <= w -> 0 <= h ->
  contourArea2 [(x, y); (x, y + h); (x + w, y + h); (x + w, y)] = 2 * (w * h).
Proof.
  intros Hw Hh. unfold contourArea2, shoelace. simpl.
  replace ((x + w) * y - y * x + (x * (y + h) - y * x + (x * (y + h) - (y + h) * (x + w) +
    ((x + w) * y - (y + h) * (x + w) + 0)))) with (- (2 * (w * h))) by ring.
  rewrite Z.abs_opp. apply Z.abs_eq. nia.
Qed.

(** ** Bounding-rectangle lemmas *)

Lemma fold_min_le {A} (f : A -> Z) (t : list A) (a : Z) :
  fold_left (fun m q => Z.min m (f q)) t a <= a /\
  forall q, q ∈ t -> fold_left (fun m q => Z.min m (f q)) t a <= f q.
Proof.
  revert a. induction t as [|r t IH]; intros a; simpl.
  - split; [lia|]. intros q Hq. by apply elem_of_nil in Hq.
  - destruct (IH (Z.min a (f r))) as [H1 H2]. split; [lia|].
    intros q [->|Hq]%elem_of_cons; [lia|auto].
Qed.

Lemma fold_max_ge {A} (f : A -> Z) (t : list A) (a : Z) :
  a <= fold_left (fun m q => Z.max m (f q)) t a /\
  forall q, q ∈ t -> f q <= fold_left (fun m q => Z.max m (f q)) t a.
Proof.
  revert a. induction t as [|r t IH]; intros a; simpl.
  - split; [lia|]. intros q Hq. by apply elem_of_nil in Hq.
  - destruct (IH (Z.max a (f r))) as [H1 H2]. split; [lia|].
    intros q [->|Hq]%elem_of_cons; [lia|auto].
Qed.

(** The fold reaches the initial value or one of the values of the list. *)
Lemma fold_min_attained {A} (f : A -> Z) (P : Z -> Prop) (t : list A) (a : Z) :
  P a -> (forall q, q ∈ t -> P (f q)) -> P (fold_left (fun m q => Z.min m (f q)) t a).
Proof.
  revert a. induction t as [|r t IH]; intros a Ha Ht; simpl; [done|].
  apply IH; [|intros q Hq; apply Ht; set_solver].
  destruct (Z.min_spec a (f r)) as [[_ ->]|[_ ->]]; [done|apply Ht; set_solver].
Qed.

Lemma fold_max_attained {A} (f : A -> Z) (P : Z -> Prop) (t : list A) (a : Z) :
  P a -> (forall q, q ∈ t -> P (f q)) -> P (fold_left (fun m q => Z.max m (f q)) t a).
Proof.
  revert a. induction t as [|r t IH]; intros a Ha Ht; simpl; [done|].
  apply IH; [|intros q Hq; apply Ht; set_solver].
  destruct (Z.max_spec a (f r)) as [[_ ->]|[_ ->]]; first [done|apply Ht; set_solver].
Qed.

(** Every point of a contour lies in its bounding rectangle. *)
Lemma boundingRect_contains (c : contour) (p : point) :
  p ∈ c ->
  rx (boundingRect c) <= p.1 < rx (boundingRect c) + rw (boundingRect c) /\
  ry (boundingRect c) <= p.2 < ry (boundingRect c) + rh (boundingRect c).
Proof.
  destruct c as [|q t]; [by intros ?%elem_of_nil|]. simpl.
  destruct (fold_min_le fst t q.1) as [Hx1 Hx2].
  destruct (fold_max_ge fst t q.1) as [Hx3 Hx4].
  destruct (fold_min_le snd t q.2) as [Hy1 Hy2].
  destruct (fold_max_ge snd t q.2) as [Hy3 Hy4].
  intros [->|Hp]%elem_of_cons; [lia|].
  specialize (Hx2 p Hp). specialize (Hx4 p Hp). specialize (Hy2 p Hp). specialize (Hy4 p Hp). lia.
Qed.

(** The bounding rectangle of points of an image lies in the image and has
    at least one row and one column. *)
Lemma boundingRect_in_image (c : contour) (h w : nat) :
  c <> [] -> Forall (in_image h w) c ->
  0 <= rx (boundingRect c) /\ 1 <= rw (boundingRect c) /\
  rx (boundingRect c) + rw (boundingRect c) <= Z.of_nat w /\
  0 <= ry (boundingRect c) /\ 1 <= rh (boundingRect c) /\
  ry (boundingRect c) + rh (boundingRect c) <= Z.of_nat h.
Proof.
  destruct c as [|q t]; [done|]. intros _ Hall. simpl.
  apply Forall_cons in Hall as [[Hqx Hqy] Ht].
  rewrite Forall_forall in Ht.
  pose proof (fold_min_attained fst (fun v => 0 <= v < Z.of_nat w) t q.1 Hqx
                (fun r Hr => proj1 (Ht r Hr))).
  pose proof (fold_max_attained fst (fun v => 0 <= v < Z.of_nat w) t q.1 Hqx
                (fun r Hr => proj1 (Ht r Hr))).
  pose proof (fold_min_attained snd (fun v => 0 <= v < Z.of_nat h) t q.2 Hqy
                (fun r Hr => proj2 (Ht r Hr))).
  pose proof (fold_max_attained snd (fun v => 0 <= v < Z.of_nat h) t q.2 Hqy
                (fun r Hr => proj2 (Ht r Hr))).
  destruct (fold_min_le fst t q.1). destruct (fold_max_ge fst t q.1).
  destruct (fold_min_le snd t q.2). destruct (fold_max_ge snd t q.2).
  simpl in *. lia.
Qed.

