(* ===== verification/Suzuki.v ===== *)
(** * Suzuki: border following for [cv2.findContours]

    OpenCV's [cv::findContours] is Suzuki and Abe's border following
    ("Topological structural analysis of digitized binary images by border
    following", 1985), as written in [icvFindNextContour] and
    [icvFetchContour] of [imgproc/src/contours.cpp].  The image is
    binarised (non-zero is [1]) and surrounded by a frame of zeros
    ([img_px] reads [0] outside the image).  A raster scan meets the start
    of an outer border (a [1] with a [0] to its west) or of a hole border (a
    positive pixel with a [0] to its east); each border gets the next
    number [nbd], its parent is decided from the last border met on the row
    ([lnbd], Suzuki's Table 1), and the border is followed: the first
    non-zero neighbour clockwise ([cw_find]), then, pixel after pixel, the
    first non-zero neighbour counterclockwise after the previous pixel
    ([ccw_find]); a pixel is marked [-nbd] when its east neighbour is a
    [0] examined on the way, else [nbd] if it was still [1].  With
    [CHAIN_APPROX_SIMPLE] a point is kept when the direction of the step out
    of it differs from the step before ([chain_simple]); with
    [RETR_EXTERNAL] only the outer borders whose parent is the frame are
    returned, the last one found first (OpenCV inserts each contour at the
    head of its parent's list).  OpenCV's external mode does not trace the
    borders it skips; tracing them changes only the marks of pixels no
    external border passes through.  A border is followed for at most
    [8 (h + 2) (w + 2)] steps; the trace step is injective on the states
    (pixel, direction of the previous pixel), so a trace returns to its
    start within [8 h w] steps and the bound is enough
    ([trace_border_complete]). *)

From stdpp Require Import gmap.
From S2P Require Import Prelude Image Contours.

(** A pixel position [(row, column)]. *)
Abbreviation pos := (Z * Z)%type.

(** The binarised image with its frame of zeros. *)
Definition img_px (img : gray) (p : pos) : Z :=
  if bool_decide (0 <= p.1 /\ 0 <= p.2 /\ at2 img (Z.to_nat p.1) (Z.to_nat p.2) <> 0) then 1 else 0.

(** The eight directions, counterclockwise from east: OpenCV's chain codes. *)
Definition delta (d : Z) : pos :=
  match d mod 8 with
  | 0 => (0, 1) | 1 => (-1, 1) | 2 => (-1, 0) | 3 => (-1, -1)
  | 4 => (0, -1) | 5 => (1, -1) | 6 => (1, 0) | _ => (1, 1)
  end.

Definition nb (p : pos) (d : Z) : pos := (p.1 + (delta d).1, p.2 + (delta d).2).

(** The scanner's state: the marks written so far, the last border number,
    the last border met on the current row, the kind (hole?) and parent of
    each border, and the external contours found, the last one first. *)
Record scanner := Scanner {
  marks : gmap pos Z;
  nbd : Z;
  lnbd : Z;
  kinds : gmap Z (bool * Z);
  found : list contour
}.

Section Suzuki.
Variable img : gray.

(** The value of a pixel: its mark, or the binarised image. *)
Definition fval (m : gmap pos Z) (p : pos) : Z := default (img_px img p) (m !! p).

(** Step 3.1: the first non-zero neighbour clockwise, examining [s - 1],
    [s - 2], ... for [k] directions. *)
Fixpoint cw_find (m : gmap pos Z) (p : pos) (s : Z) (k : nat) : option Z :=
  match k with
  | O => None
  | S k' =>
      let s' := (s - 1) mod 8 in
      if bool_decide (fval m (nb p s') = 0) then cw_find m p s' k' else Some s'
  end.

(** Step 3.3: the first non-zero neighbour counterclockwise after [s],
    as the unreduced direction [s + 1 .. s + k]. *)
Fixpoint ccw_find (m : gmap pos Z) (p : pos) (s : Z) (k : nat) : option Z :=
  match k with
  | O => None
  | S k' => if bool_decide (fval m (nb p (s + 1)) = 0) then ccw_find m p (s + 1) k' else Some (s + 1)
  end.

(** Steps 3.3-3.5 from the pixel [i3] entered from direction [s]: the marks
    and the steps [(pixel, direction out of it)] up to the return to [i0]
    from [i1]. *)
Fixpoint follow (m : gmap pos Z) (n : Z) (i0 i1 i3 : pos) (s : Z) (fuel : nat)
    : option (gmap pos Z * list (pos * Z)) :=
  match fuel with
  | O => None
  | S fuel' =>
      match ccw_find m i3 s 8 with
      | None => None
      | Some su =>
          let s' := su mod 8 in
          let i4 := nb i3 s' in
          let m' := if bool_decide (8 < su) then <[i3 := - n]> m
                    else if bool_decide (fval m i3 = 1) then <[i3 := n]> m else m in
          if bool_decide (i4 = i0 /\ i3 = i1) then Some (m', [(i3, s')])
          else match follow m' n i0 i1 i4 ((s' + 4) mod 8) fuel' with
               | Some (m'', steps) => Some (m'', (i3, s') :: steps)
               | None => None
               end
      end
  end.

(** [CV_CHAIN_APPROX_SIMPLE]: a point [(x, y)] is written when the
    direction out of it differs from the last direction written. *)
Fixpoint chain_simple (prev : Z) (steps : list (pos * Z)) : contour :=
  match steps with
  | [] => []
  | (p, s) :: t =>
      if bool_decide (s = prev) then chain_simple prev t else (p.2, p.1) :: chain_simple s t
  end.

Definition trace_fuel : nat := (8 * (length img + 2) * (length (nth 0 img []) + 2))%nat.

(** [icvFetchContour] from [i0], the search starting at [s_end] (west for
    an outer border, east for a hole): the new marks and the contour. *)
Definition trace_border (m : gmap pos Z) (n : Z) (i0 : pos) (s_end : Z)
    : option (gmap pos Z * contour) :=
  match cw_find m i0 s_end 8 with
  | None => Some (<[i0 := - n]> m, [(i0.2, i0.1)])
  | Some s1 =>
      match follow m n i0 (nb i0 s1) i0 s1 trace_fuel with
      | Some (m', steps) => Some (m', chain_simple ((s1 + 4) mod 8) steps)
      | None => None
      end
  end.

(** Steps 1(a)/(b), 2 and 3 for a border starting at [p]. *)
Definition new_border (st : scanner) (p : pos) (is_hole : bool) (s_end : Z) : scanner :=
  let n := nbd st + 1 in
  let '(lhole, lparent) := default (true, 1) (kinds st !! lnbd st) in
  let parent := if is_hole then (if lhole then lparent else lnbd st)
                else (if lhole then lnbd st else lparent) in
  let kinds' := <[n := (is_hole, parent)]> (kinds st) in
  match trace_border (marks st) n p s_end with
  | Some (m', c) =>
      Scanner m' n (lnbd st) kinds'
        (if negb is_hole && bool_decide (parent = 1) then c :: found st else found st)
  | None => Scanner (marks st) n (lnbd st) kinds' (found st)
  end.

Definition set_lnbd (st : scanner) (l : Z) : scanner :=
  Scanner (marks st) (nbd st) l (kinds st) (found st).

(** One pixel of the raster scan, step 4 included. *)
Definition scan_px (st : scanner) (p : pos) : scanner :=
  let v := fval (marks st) p in
  if bool_decide (v = 0) then st else
  let st' :=
    if bool_decide (v = 1 /\ fval (marks st) (p.1, p.2 - 1) = 0) then new_border st p false 4
    else if bool_decide (1 <= v /\ fval (marks st) (p.1, p.2 + 1) = 0) then
      new_border (if bool_decide (1 < v) then set_lnbd st v else st) p true 0
    else st in
  let v' := fval (marks st') p in
  if bool_decide (v' = 1) then st' else set_lnbd st' (Z.abs v').

(** One row: [lnbd] starts at the frame. *)
Definition scan_row (st : scanner) (i : Z) : scanner :=
  fold_left (fun st j => scan_px st (i, j)) (map Z.of_nat (seq 0 (length (nth 0 img []))))
            (set_lnbd st 1).

Definition scan_image : scanner :=
  fold_left scan_row (map Z.of_nat (seq 0 (length img))) (Scanner ∅ 1 1 ∅ []).
End Suzuki.

(** [cv2.findContours(img, cv2.RETR_EXTERNAL, cv2.CHAIN_APPROX_SIMPLE)[0]]. *)
Definition suzuki_external (img : gray) : list contour := found (scan_image img).

(** A walk from [q] to [e]: each step leaves its pixel in its direction. *)
Fixpoint is_walk (q : pos) (steps : list (pos * Z)) (e : pos) : Prop :=
  match steps with
  | [] => q = e
  | (p, s) :: t => p = q /\ is_walk (nb p s) t e
  end.

(** Marks are non-zero and written only on pixels of the image's
    foreground. *)
Definition marks_ok (img : gray) (m : gmap pos Z) : Prop :=
  forall p v, m !! p = Some v -> img_px img p <> 0 /\ v <> 0.

(** The scanner's invariant: marks on the foreground, border numbers from
    [2] on, and every contour found a non-empty list of foreground points. *)
Definition scan_ok (img : gray) (st : scanner) : Prop :=
  marks_ok img (marks st) /\ 1 <= nbd st /\
  forall c, c ∈ found st -> c <> [] /\ forall q, q ∈ c -> img_px img (q.2, q.1) <> 0.

(** The border trace as a map on states [(pixel, direction of the
    previous pixel)]: the step of [follow], read on the binarised image. *)
Definition tstep (img : gray) (st : pos * Z) : pos * Z :=
  match ccw_find img ∅ st.1 st.2 8 with
  | Some su => (nb st.1 (su mod 8), (su mod 8 + 4) mod 8)
  | None => st
  end.

(** A state of a trace: a foreground pixel entered from a foreground
    neighbour. *)
Definition valid_state (img : gray) (st : pos * Z) : Prop :=
  img_px img st.1 <> 0 /\ img_px img (nb st.1 st.2) <> 0 /\ 0 <= st.2 < 8.

(** All states of an [h x w] image. *)
Definition trace_states (h w : nat) : list (pos * Z) :=
  list_prod (list_prod (map Z.of_nat (seq 0 h)) (map Z.of_nat (seq 0 w))) (map Z.of_nat (seq 0 8)).

(** ** Lemmas *)

(** A non-zero sample of an image of shape [h x w] is inside it. *)
Lemma at2_nonzero_lt (img : gray) h w i j :
  has_shape img h w -> at2 img i j <> 0 -> (i < h)%nat /\ (j < w)%nat.
Proof.
  intros [Hh Hw] Hnz. unfold at2 in Hnz.
  destruct (decide (i < h)%nat) as [Hi|Hi].
  - split; [done|]. destruct (img !! i) as [row|] eqn:Hrow; [|apply lookup_ge_None in Hrow; lia].
    rewrite (nth_lookup_Some img i [] row Hrow) in Hnz.
    rewrite <- (Forall_lookup_1 _ _ _ _ Hw Hrow).
    destruct (decide (j < length row)%nat); [done|]. rewrite nth_overflow in Hnz; [done|lia].
  - rewrite (nth_overflow img) in Hnz by lia. by destruct j.
Qed.

Lemma img_px_in (img : gray) h w p :
  has_shape img h w -> img_px img p <> 0 -> 0 <= p.1 < Z.of_nat h /\ 0 <= p.2 < Z.of_nat w.
Proof.
  unfold img_px. case_bool_decide as Hp; [|done]. intros Hs _.
  destruct Hp as (H1 & H2 & Hnz). destruct (at2_nonzero_lt img h w _ _ Hs Hnz). lia.
Qed.

Lemma delta_mod (d : Z) : delta (d mod 8) = delta d.
Proof. unfold delta. by rewrite Zmod_mod. Qed.

Lemma nb_mod (p : pos) (d : Z) : nb p (d mod 8) = nb p d.
Proof. unfold nb. by rewrite delta_mod. Qed.

Lemma delta_nonzero (d : Z) : delta d <> (0, 0).
Proof.
  unfold delta. pose proof (Z.mod_pos_bound d 8 ltac:(lia)).
  assert (d mod 8 = 0 \/ d mod 8 = 1 \/ d mod 8 = 2 \/ d mod 8 = 3 \/ d mod 8 = 4 \/
          d mod 8 = 5 \/ d mod 8 = 6 \/ d mod 8 = 7) as Hc by lia.
  destruct_or! Hc; rewrite Hc; discriminate.
Qed.

(** A walk whose steps all go in the direction [d] moves by a multiple of
    [delta d]. *)
Lemma walk_const (d : Z) (steps : list (pos * Z)) (q e : pos) :
  Forall (fun st => st.2 = d) steps -> is_walk q steps e ->
  e = (q.1 + Z.of_nat (length steps) * (delta d).1, q.2 + Z.of_nat (length steps) * (delta d).2).
Proof.
  revert q. induction steps as [|[p s] t IH]; intros q Hd Hw; simpl in *.
  - destruct q. simpl. subst. f_equal; lia.
  - apply Forall_cons in Hd as [Hs Hd]. simpl in Hs. destruct Hw as [-> Hw]. subst s.
    rewrite (IH _ Hd Hw). unfold nb. simpl. f_equal; lia.
Qed.

Lemma chain_simple_nil (prev : Z) (steps : list (pos * Z)) :
  chain_simple prev steps = [] -> Forall (fun st => st.2 = prev) steps.
Proof.
  induction steps as [|[p s] t IH]; simpl; [done|].
  case_bool_decide; [|done]. intros Ht. constructor; [done|]. by apply IH.
Qed.

Lemma chain_simple_elem (prev : Z) (steps : list (pos * Z)) (q : point) :
  q ∈ chain_simple prev steps -> exists p s, (p, s) ∈ steps /\ q = (p.2, p.1).
Proof.
  revert prev. induction steps as [|[p s] t IH]; intros prev; simpl; [set_solver|].
  case_bool_decide.
  - intros (p' & s' & ? & ?)%IH. exists p', s'. set_solver.
  - intros [->|(p' & s' & ? & ?)%IH]%elem_of_cons; [exists p, s; set_solver|].
    exists p', s'. set_solver.
Qed.

(** A closed walk keeps at least one point: its steps cannot all go the
    same way. *)
Lemma chain_simple_closed (prev : Z) (steps : list (pos * Z)) (q : pos) :
  is_walk q steps q -> steps <> [] -> chain_simple prev steps <> [].
Proof.
  intros Hw Hne Hc. apply chain_simple_nil in Hc.
  pose proof (walk_const prev steps q q Hc Hw) as He.
  destruct steps as [|st t]; [done|]. simpl in He.
  apply (delta_nonzero prev). destruct q as [q1 q2], (delta prev) as [d1 d2].
  injection He as E1 E2. f_equal; nia.
Qed.

Section SuzukiFacts.
Variable img : gray.

Lemma fval_fg (m : gmap pos Z) (p : pos) :
  marks_ok img m -> fval img m p <> 0 -> img_px img p <> 0.
Proof. unfold fval. intros Hm. destruct (m !! p) eqn:E; simpl; [by intros _; apply (Hm p z)|done]. Qed.

(** Marks never turn a pixel to or from zero. *)
Lemma fval_zero_iff (m : gmap pos Z) (p : pos) :
  marks_ok img m -> fval img m p = 0 <-> img_px img p = 0.
Proof.
  unfold fval. intros Hm. destruct (m !! p) as [v|] eqn:E; simpl; [|done].
  destruct (Hm p v E). tauto.
Qed.

Lemma marks_ok_insert (m : gmap pos Z) (p : pos) (v : Z) :
  marks_ok img m -> img_px img p <> 0 -> v <> 0 -> marks_ok img (<[p := v]> m).
Proof.
  intros Hm Hp Hv q u. destruct (decide (p = q)) as [->|Hne].
  - rewrite lookup_insert_eq. by intros [= <-].
  - rewrite lookup_insert_ne by done. apply Hm.
Qed.

(** A non-zero mark keeps every non-zero pixel non-zero. *)
Lemma fval_insert_nonzero (m : gmap pos Z) (p q : pos) (v : Z) :
  v <> 0 -> fval img m q <> 0 -> fval img (<[p := v]> m) q <> 0.
Proof.
  unfold fval. intros Hv Hq. destruct (decide (p = q)) as [->|Hne].
  - by rewrite lookup_insert_eq.
  - by rewrite lookup_insert_ne.
Qed.

Lemma cw_find_nonzero (m : gmap pos Z) (p : pos) (s : Z) (k : nat) (s' : Z) :
  cw_find img m p s k = Some s' -> fval img m (nb p s') <> 0.
Proof.
  revert s. induction k as [|k IH]; intros s; simpl; [done|].
  case_bool_decide; [apply IH|]. by intros [= <-].
Qed.

Lemma ccw_find_nonzero (m : gmap pos Z) (p : pos) (s : Z) (k : nat) (su : Z) :
  ccw_find img m p s k = Some su -> fval img m (nb p su) <> 0.
Proof.
  revert s. induction k as [|k IH]; intros s; simpl; [done|].
  case_bool_decide; [apply IH|]. by intros [= <-].
Qed.

(** The marks of one step of a border trace. *)
Lemma follow_step_marks (m : gmap pos Z) (n : Z) (i3 : pos) (su : Z) :
  marks_ok img m -> n <> 0 -> img_px img i3 <> 0 ->
  let m' := if bool_decide (8 < su) then <[i3 := - n]> m
            else if bool_decide (fval img m i3 = 1) then <[i3 := n]> m else m in
  marks_ok img m' /\ forall q, fval img m q <> 0 -> fval img m' q <> 0.
Proof.
  intros Hm Hn Hi m'. unfold m'.
  repeat case_bool_decide; (split; [try apply marks_ok_insert; auto; lia|]);
    intros q Hq; try apply fval_insert_nonzero; auto; lia.
Qed.

(** Following a border from a foreground pixel: the marks stay on the
    foreground, the steps are a non-empty walk of foreground pixels back to
    [i0]. *)
Lemma follow_spec (fuel : nat) (m : gmap pos Z) (n : Z) (i0 i1 i3 : pos) (s : Z) m' steps :
  marks_ok img m -> n <> 0 -> fval img m i3 <> 0 ->
  follow img m n i0 i1 i3 s fuel = Some (m', steps) ->
  marks_ok img m' /\ Forall (fun st => img_px img st.1 <> 0) steps /\ is_walk i3 steps i0 /\ steps <> [].
Proof.
  revert m i3 s m' steps. induction fuel as [|fuel IH]; intros m i3 s m' steps Hm Hn Hi3; cbn [follow]; [intros [=]|].
  destruct (ccw_find img m i3 s 8) as [su|] eqn:Hf; [|intros [=]].
  pose proof (fval_fg m i3 Hm Hi3) as Hfg.
  destruct (follow_step_marks m n i3 su Hm Hn Hfg) as [Hm' Hkeep].
  pose proof (ccw_find_nonzero _ _ _ _ _ Hf) as Hi4. rewrite <- nb_mod in Hi4.
  destruct (decide (nb i3 (su mod 8) = i0 /\ i3 = i1)) as [Hstop|Hstop];
    [rewrite bool_decide_eq_true_2 by done|rewrite bool_decide_eq_false_2 by done].
  - intros [= <- <-]. destruct Hstop as [Hstop _].
    split; [exact Hm'|split; [by constructor|split; [simpl; by rewrite Hstop|done]]].
  - destruct (follow _ _ _ _ _ _ _ fuel) as [[m'' t]|] eqn:Ht; [|intros [=]]. intros [= <- <-].
    destruct (IH _ _ _ _ _ Hm' Hn (Hkeep _ Hi4) Ht) as (Hm'' & Hfgs & Hw & _).
    split; [exact Hm''|split; [by constructor|split; [done|done]]].
Qed.

(** [icvFetchContour] from a foreground pixel returns a non-empty contour
    of foreground points, [(x, y)] for the pixel [(y, x)]. *)
Lemma trace_border_spec (m : gmap pos Z) (n : Z) (i0 : pos) (s_end : Z) m' c :
  marks_ok img m -> n <> 0 -> fval img m i0 <> 0 ->
  trace_border img m n i0 s_end = Some (m', c) ->
  marks_ok img m' /\ c <> [] /\ forall q, q ∈ c -> img_px img (q.2, q.1) <> 0.
Proof.
  intros Hm Hn Hi0. pose proof (fval_fg m i0 Hm Hi0) as Hfg. unfold trace_border.
  destruct (cw_find img m i0 s_end 8) as [s1|].
  - destruct (follow _ _ _ _ _ _ _ _) as [[m1 steps]|] eqn:Hf; [|intros [=]]. intros [= <- <-].
    destruct (follow_spec _ _ _ _ _ _ _ _ _ Hm Hn Hi0 Hf) as (Hm1 & Hfgs & Hw & Hne).
    split; [done|split; [by apply (chain_simple_closed _ _ i0)|]].
    intros q (p & s & Hps & ->)%chain_simple_elem. simpl.
    rewrite <- surjective_pairing. rewrite Forall_forall in Hfgs. exact (Hfgs _ Hps).
  - intros [= <- <-]. split; [apply marks_ok_insert; auto; lia|split; [done|]].
    intros q ->%list_elem_of_singleton. cbn [fst snd]. by rewrite <- surjective_pairing.
Qed.
End SuzukiFacts.

Section ScanFacts.
Variable img : gray.

Lemma new_border_ok (st : scanner) (p : pos) (is_hole : bool) (s_end : Z) :
  scan_ok img st -> fval img (marks st) p <> 0 -> scan_ok img (new_border img st p is_hole s_end).
Proof.
  intros (Hm & Hn & Hf) Hp. unfold new_border.
  destruct (default _ _) as [lhole lparent].
  destruct (trace_border _ _ _ _ _) as [[m' c]|] eqn:Ht.
  - destruct (trace_border_spec img (marks st) (nbd st + 1) p s_end m' c Hm ltac:(lia) Hp Ht)
      as (Hm' & Hc & Hq).
    split; [exact Hm'|split; [cbn; lia|]]. cbn. intros c'.
    destruct (negb _ && _); [|apply Hf]. intros [->|?]%elem_of_cons; auto.
  - split; [exact Hm|split; [cbn; lia|exact Hf]].
Qed.

Lemma set_lnbd_ok (st : scanner) (l : Z) : scan_ok img st -> scan_ok img (set_lnbd st l).
Proof. done. Qed.

Lemma scan_px_ok (st : scanner) (p : pos) : scan_ok img st -> scan_ok img (scan_px img st p).
Proof.
  intros Hst. unfold scan_px. case_bool_decide as Hv; [done|]. cbv zeta.
  repeat case_bool_decide; auto using new_border_ok, set_lnbd_ok.
Qed.

Lemma scan_image_ok : scan_ok img (scan_image img).
Proof.
  unfold scan_image. apply fold_left_inv.
  - split; [intros p v; cbn; by rewrite lookup_empty|split; [cbn; lia|cbn; set_solver]].
  - intros st i Hst. unfold scan_row. apply fold_left_inv; [by apply set_lnbd_ok|].
    intros st' j. apply scan_px_ok.
Qed.

(** Every point [(x, y)] of every contour found is a foreground pixel
    [img[y][x]] of the image, and no contour is empty. *)
Lemma suzuki_found_fg (c : contour) :
  c ∈ suzuki_external img ->
  c <> [] /\ forall q, q ∈ c -> 0 <= q.1 /\ 0 <= q.2 /\ at2 img (Z.to_nat q.2) (Z.to_nat q.1) <> 0.
Proof.
  intros Hc. destruct scan_image_ok as (_ & _ & Hf). destruct (Hf c Hc) as [Hne Hq].
  split; [done|]. intros q Hin. specialize (Hq q Hin). unfold img_px in Hq.
  case_bool_decide as Hp; [|done]. simpl in Hp. destruct Hp as (H1 & H2 & H3). auto.
Qed.

Lemma at2_blank (i j : nat) : all_px (fun p => p = 0) img -> at2 img i j = 0.
Proof.
  intros Hz. unfold at2. destruct (img !! i) as [row|] eqn:Hi.
  - rewrite (nth_lookup_Some img i [] row Hi). pose proof (Forall_lookup_1 _ _ _ _ Hz Hi) as Hr.
    destruct (row !! j) as [v|] eqn:Hj.
    + rewrite (nth_lookup_Some row j 0 v Hj). exact (Forall_lookup_1 _ _ _ _ Hr Hj).
    + apply lookup_ge_None in Hj. by rewrite nth_overflow.
  - apply lookup_ge_None in Hi. rewrite (nth_overflow img) by done. by destruct j.
Qed.

(** On an all-zero image the scan never leaves its initial marks and finds
    nothing. *)
Lemma suzuki_blank : all_px (fun p => p = 0) img -> suzuki_external img = [].
Proof.
  intros Hz. unfold suzuki_external, scan_image.
  assert (forall st p, marks st = ∅ -> scan_px img st p = st) as Hpx.
  { intros st p Hm. unfold scan_px.
    assert (fval img (marks st) p = 0) as ->.
    { rewrite Hm. unfold fval. rewrite lookup_empty. cbn [default]. unfold img_px.
      rewrite bool_decide_eq_false_2; [done|]. rewrite at2_blank by done. intros (_ & _ & H0). by apply H0. }
    by rewrite bool_decide_eq_true_2. }
  apply (fold_left_inv (fun st => marks st = ∅ /\ found st = [])); [done|].
  intros st i [Hm Hf]. unfold scan_row. apply fold_left_inv; [done|].
  intros st' j [Hm' Hf']. by rewrite Hpx.
Qed.
End ScanFacts.

Lemma suzuki_points (img : gray) h w c :
  has_shape img h w -> c ∈ suzuki_external img -> c <> [] /\ Forall (in_image h w) c.
Proof.
  intros Hs Hc. destruct (suzuki_found_fg img c Hc) as [Hne Hq]. split; [done|].
  apply Forall_forall. intros q Hin. destruct (Hq q Hin) as (H1 & H2 & Hnz).
  destruct (at2_nonzero_lt img h w _ _ Hs Hnz). unfold in_image. lia.
Qed.

#[export] Instance suzuki : ContourFinder := {|
  find_external := suzuki_external;
  find_external_blank := suzuki_blank;
  find_external_points := suzuki_points
|}.

(** C32. Border following returns contours of the image's ink: every point
    [(x, y)] of every contour is a non-zero pixel [img[y][x]] of the binary
    image, and no contour is empty. *)
Theorem suzuki_external_foreground (img : gray) (c : contour) :
  c ∈ suzuki_external img ->
  c <> [] /\ forall q, q ∈ c -> 0 <= q.1 /\ 0 <= q.2 /\ at2 img (Z.to_nat q.2) (Z.to_nat q.1) <> 0.
Proof. apply suzuki_found_fg. Qed.

(** ** Examples: OpenCV's conventions *)

(** A filled rectangle gives its four corners, top-left first, going down
    the left side; a blob inside a ring's hole is not external. *)
Example suzuki_rect_and_ring :
  suzuki_external [[0; 0; 0; 0; 0]; [0; 1; 1; 1; 0]; [0; 1; 1; 1; 0]; [0; 0; 0; 0; 0]] =
    [[(1, 1); (1, 2); (3, 2); (3, 1)]] /\
  suzuki_external [[1; 1; 1; 1; 1]; [1; 0; 0; 0; 1]; [1; 0; 1; 0; 1]; [1; 0; 0; 0; 1]; [1; 1; 1; 1; 1]] =
    [[(0, 0); (0, 4); (4, 4); (4, 0)]].
Proof. split; vm_compute; reflexivity. Qed.

(** The last contour found comes first; a single pixel is a one-point
    contour. *)
Example suzuki_order :
  suzuki_external [[1; 1; 0; 0; 0]; [1; 1; 0; 0; 1]; [0; 0; 0; 0; 0]; [0; 1; 0; 0; 0]] =
    [[(1, 3)]; [(4, 1)]; [(0, 0); (0, 1); (1, 1); (1, 0)]].
Proof. vm_compute. reflexivity. Qed.

Lemma suzuki_external_foreground_witness :
  [(1, 3)] ∈ suzuki_external [[1; 1; 0; 0; 0]; [1; 1; 0; 0; 1]; [0; 0; 0; 0; 0]; [0; 1; 0; 0; 0]] /\
  ([(1, 3)] : contour) <> [] /\
  forall q, q ∈ [(1, 3)] -> 0 <= q.1 /\ 0 <= q.2 /\
    at2 [[1; 1; 0; 0; 0]; [1; 1; 0; 0; 1]; [0; 0; 0; 0; 0]; [0; 1; 0; 0; 0]] (Z.to_nat q.2) (Z.to_nat q.1) <> 0.
Proof.
  assert (Hin : [(1, 3)] ∈ suzuki_external [[1; 1; 0; 0; 0]; [1; 1; 0; 0; 1]; [0; 0; 0; 0; 0]; [0; 1; 0; 0; 0]]).
  { vm_compute. left. }
  split; [exact Hin|]. exact (suzuki_external_foreground _ _ Hin).
Defined.

(** ** Every border trace completes *)

Lemma dir_cases (d : Z) :
  d mod 8 = 0 \/ d mod 8 = 1 \/ d mod 8 = 2 \/ d mod 8 = 3 \/ d mod 8 = 4 \/
  d mod 8 = 5 \/ d mod 8 = 6 \/ d mod 8 = 7.
Proof. pose proof (Z.mod_pos_bound d 8 ltac:(lia)). lia. Qed.

Lemma nb_congr (p : pos) (d d' : Z) : d mod 8 = d' mod 8 -> nb p d = nb p d'.
Proof. intros E. by rewrite <- (nb_mod p d), E, nb_mod. Qed.

(** Stepping back: the opposite direction is [d + 4]. *)
Lemma nb_back (p : pos) (d : Z) : nb (nb p d) ((d mod 8 + 4) mod 8) = p.
Proof.
  destruct p as [p1 p2]. unfold nb, delta. rewrite Zmod_mod.
  destruct (dir_cases d) as [E|[E|[E|[E|[E|[E|[E|E]]]]]]]; rewrite E; simpl; f_equal; lia.
Qed.

(** Two directions reaching the same neighbour are equal modulo 8. *)
Lemma nb_dir_inj (p : pos) (d d' : Z) : nb p d = nb p d' -> d mod 8 = d' mod 8.
Proof.
  destruct p as [p1 p2]. unfold nb, delta.
  destruct (dir_cases d) as [E|[E|[E|[E|[E|[E|[E|E]]]]]]]; rewrite E;
  destruct (dir_cases d') as [E'|[E'|[E'|[E'|[E'|[E'|[E'|E']]]]]]]; rewrite E'; simpl;
  intros [=]; lia.
Qed.

Lemma nb_cancel (p q : pos) (d : Z) : nb p d = nb q d -> p = q.
Proof. destruct p, q. unfold nb. simpl. intros [=]. f_equal; lia. Qed.

Lemma cw_find_range (img : gray) m p s k s' : cw_find img m p s k = Some s' -> 0 <= s' < 8.
Proof.
  revert s. induction k as [|k IH]; intros s; simpl; [done|].
  case_bool_decide; [apply IH|]. intros [= <-]. apply Z.mod_pos_bound. lia.
Qed.

Lemma ccw_find_some (img : gray) m p s k su :
  ccw_find img m p s k = Some su ->
  s < su <= s + Z.of_nat k /\ fval img m (nb p su) <> 0 /\
  forall j, s < j < su -> fval img m (nb p j) = 0.
Proof.
  revert s. induction k as [|k IH]; intros s; simpl; [done|].
  case_bool_decide as Hz.
  - intros (H1 & H2 & H3)%IH. split; [lia|split; [done|]].
    intros j Hj. destruct (decide (j = s + 1)) as [->|]; [done|]. apply H3. lia.
  - intros [= <-]. split; [lia|split; [done|]]. lia.
Qed.

Lemma ccw_find_none (img : gray) m p s k :
  ccw_find img m p s k = None -> forall j, s < j <= s + Z.of_nat k -> fval img m (nb p j) = 0.
Proof.
  revert s. induction k as [|k IH]; intros s; simpl; [intros _ j; lia|].
  case_bool_decide as Hz; [|done]. intros Hn j Hj.
  destruct (decide (j = s + 1)) as [->|]; [done|]. apply (IH (s + 1)); [done|lia].
Qed.

Section Termination.
Variable img : gray.

Lemma fval_empty (p : pos) : fval img ∅ p = img_px img p.
Proof. unfold fval. by rewrite lookup_empty. Qed.

(** The search reads only which pixels are zero, which marks do not
    change. *)
Lemma ccw_find_marks m p s k : marks_ok img m -> ccw_find img m p s k = ccw_find img ∅ p s k.
Proof.
  intros Hm. revert s. induction k as [|k IH]; intros s; simpl; [done|].
  rewrite fval_empty. pose proof (fval_zero_iff img m (nb p (s + 1)) Hm).
  case_bool_decide; case_bool_decide; try tauto; by rewrite IH.
Qed.

Lemma tstep_some (st : pos * Z) :
  valid_state img st -> exists su, ccw_find img ∅ st.1 st.2 8 = Some su.
Proof.
  intros (H1 & H2 & H3). destruct (ccw_find img ∅ st.1 st.2 8) as [su|] eqn:E; [eauto|].
  exfalso. apply H2. rewrite <- fval_empty, (nb_congr _ st.2 (st.2 + 8)) by lia_mod.
  apply (ccw_find_none _ _ _ _ _ E). simpl. lia.
Qed.

Lemma tstep_eq (st : pos * Z) su :
  ccw_find img ∅ st.1 st.2 8 = Some su -> tstep img st = (nb st.1 (su mod 8), (su mod 8 + 4) mod 8).
Proof. unfold tstep. by intros ->. Qed.

Lemma tstep_valid (st : pos * Z) : valid_state img st -> valid_state img (tstep img st).
Proof.
  intros Hv. destruct (tstep_some st Hv) as [su Hsu]. rewrite (tstep_eq _ _ Hsu).
  destruct (ccw_find_some _ _ _ _ _ _ Hsu) as (_ & Hnz & _). rewrite fval_empty in Hnz.
  destruct Hv as (H1 & _ & _). split; [by rewrite nb_mod|split].
  - simpl. pose proof (nb_back st.1 (su mod 8)) as Hb. rewrite Zmod_mod in Hb. by rewrite Hb.
  - apply Z.mod_pos_bound. lia.
Qed.

(** The trace step is injective on states: the previous pixel is the
    first foreground neighbour clockwise before the next one. *)
Lemma tstep_inj (a b : pos * Z) :
  valid_state img a -> valid_state img b -> tstep img a = tstep img b -> a = b.
Proof.
  intros Ha Hb. destruct (tstep_some a Ha) as [su Hsu], (tstep_some b Hb) as [tu Htu].
  rewrite (tstep_eq _ _ Hsu), (tstep_eq _ _ Htu). intros E. apply pair_equal_spec in E as [Ep Ed].
  assert (su mod 8 = tu mod 8) as Em by lia_mod.
  rewrite Em in Ep. apply nb_cancel in Ep.
  destruct a as [p s], b as [q t]. cbn [fst snd] in *. subst q.
  destruct (ccw_find_some _ _ _ _ _ _ Hsu) as (Rs & _ & Zs).
  destruct (ccw_find_some _ _ _ _ _ _ Htu) as (Rt & _ & Zt).
  destruct Ha as (_ & Hs & Rs8), Hb as (_ & Ht & Rt8). cbn [fst snd] in *.
  rewrite <- fval_empty in Hs, Ht.
  destruct (Z.lt_trichotomy (su - s) (tu - t)) as [Hlt|[Heq|Hgt]].
  - exfalso. apply Hs. rewrite (nb_congr _ s (tu - (su - s))) by lia_mod.
    apply Zt. cbn [fst snd] in *. lia.
  - f_equal. lia_mod.
  - exfalso. apply Ht. rewrite (nb_congr _ t (su - (tu - t))) by lia_mod.
    apply Zs. cbn [fst snd] in *. lia.
Qed.
Lemma valid_in_states h w (st : pos * Z) :
  has_shape img h w -> valid_state img st -> st ∈ trace_states h w.
Proof.
  intros Hs (H1 & _ & H3). destruct st as [[i j] d].
  destruct (img_px_in img h w (i, j) Hs H1) as [Hi Hj]. cbn [fst snd] in *.
  apply list_elem_of_In, in_prod_iff. rewrite in_prod_iff. unfold trace_states.
  split; [split|]; apply in_map_iff.
  - exists (Z.to_nat i). split; [lia|apply in_seq; lia].
  - exists (Z.to_nat j). split; [lia|apply in_seq; lia].
  - exists (Z.to_nat d). split; [lia|apply in_seq; lia].
Qed.

(** A trace returns to its starting state within [8 h w] steps. *)
Lemma trace_return h w (st : pos * Z) :
  has_shape img h w -> valid_state img st ->
  exists k, (1 <= k <= h * w * 8)%nat /\ Nat.iter k (tstep img) st = st.
Proof.
  intros Hs Hv.
  destruct (iter_pigeonhole (tstep img) st (trace_states h w)) as (a & b & Hab & E).
  { intros k. apply (valid_in_states h w), iter_inv; [exact Hs|apply tstep_valid|exact Hv]. }
  exists (b - a)%nat. unfold trace_states in Hab. rewrite !length_prod, !length_map, !length_seq in Hab.
  split; [lia|]. apply (iter_return _ (valid_state img)); [apply tstep_valid|apply tstep_inj|done|lia|done].
Qed.

(** [follow] reaches the stop of a trace whose state returns to the start
    [(i0, s1)] after [k + 1] steps, when the fuel exceeds [k]. *)
Lemma follow_complete (k fuel : nat) m n i0 i3 s s1 :
  marks_ok img m -> n <> 0 -> valid_state img (i3, s) ->
  Nat.iter (S k) (tstep img) (i3, s) = (i0, s1) -> (k < fuel)%nat ->
  follow img m n i0 (nb i0 s1) i3 s fuel <> None.
Proof.
  revert m i3 s fuel. induction k as [|k IH]; intros m i3 s fuel Hm Hn Hv Hit Hk;
    (destruct fuel as [|fuel]; [lia|]); cbn [follow]; rewrite (ccw_find_marks m) by done;
    destruct (tstep_some _ Hv) as [su Hsu]; cbn [fst snd] in Hsu; rewrite Hsu;
    pose proof (tstep_eq (i3, s) su Hsu) as Hts; cbn [fst snd] in Hts.
  - simpl in Hit. rewrite Hts in Hit. injection Hit as Hi4 Hs1.
    rewrite bool_decide_eq_true_2; [done|]. split; [done|].
    rewrite <- Hs1, <- Hi4. pose proof (nb_back i3 (su mod 8)) as Hb. rewrite Zmod_mod in Hb. by rewrite Hb.
  - destruct (bool_decide _); [done|].
    destruct (follow_step_marks img m n i3 su Hm Hn (proj1 Hv)) as [Hm' _].
    destruct (follow _ _ _ _ _ _ _ fuel) as [[m'' t]|] eqn:Hf; [done|].
    exfalso. refine (IH _ _ _ fuel Hm' Hn _ _ ltac:(lia) Hf).
    + rewrite <- Hts. by apply tstep_valid.
    + rewrite <- Hts, <- Nat.iter_succ_r. exact Hit.
Qed.
End Termination.

(** Border following always completes: on an [h x w] image, from a
    foreground pixel, [trace_border] returns within its fuel. *)
Lemma trace_border_complete (img : gray) h w m n i0 s_end :
  has_shape img h w -> marks_ok img m -> n <> 0 -> fval img m i0 <> 0 ->
  exists m' c, trace_border img m n i0 s_end = Some (m', c).
Proof.
  intros Hs Hm Hn Hi0. pose proof (fval_fg img m i0 Hm Hi0) as Hfg. unfold trace_border.
  destruct (cw_find img m i0 s_end 8) as [s1|] eqn:Hcw; [|eauto].
  assert (valid_state img (i0, s1)) as Hv.
  { split; [done|split; [exact (fval_fg img m _ Hm (cw_find_nonzero _ _ _ _ _ _ Hcw))|]].
    exact (cw_find_range _ _ _ _ _ _ Hcw). }
  destruct (trace_return img h w _ Hs Hv) as ([|k] & Hk & Hit); [lia|].
  destruct (follow img m n i0 (nb i0 s1) i0 s1 (trace_fuel img)) as [[m' steps]|] eqn:Hf; [eauto|].
  exfalso. refine (follow_complete img k _ m n i0 i0 s1 s1 Hm Hn Hv Hit _ Hf).
  destruct (img_px_in img h w i0 Hs Hfg) as [Hh _].
  destruct Hs as [Hlen Hrows]. unfold trace_fuel. rewrite Hlen.
  destruct img as [|row rows]; [simpl in Hlen; lia|].
  apply Forall_cons in Hrows as [Hrow _]. simpl. rewrite Hrow. nia.
Qed.

(** C33. Border following terminates within its bound: on an image of
    shape [h x w], from any foreground pixel and with marks that keep the
    foreground, [trace_border] returns its marks and contour; the fuel
    [8 (h + 2) (w + 2)] is enough, so no border is ever dropped. *)
Theorem trace_border_total (img : gray) h w m n i0 s_end :
  has_shape img h w -> marks_ok img m -> n <> 0 -> fval img m i0 <> 0 ->
  exists m' c, trace_border img m n i0 s_end = Some (m', c).
Proof. apply trace_border_complete. Qed.

Lemma trace_border_total_witness :
  has_shape [[0; 1; 1]; [1; 1; 0]; [0; 1; 0]] 3 3 /\ marks_ok [[0; 1; 1]; [1; 1; 0]; [0; 1; 0]] ∅ /\
  2 <> 0 /\ fval [[0; 1; 1]; [1; 1; 0]; [0; 1; 0]] ∅ (0, 1) <> 0 /\
  exists m' c, trace_border [[0; 1; 1]; [1; 1; 0]; [0; 1; 0]] ∅ 2 (0, 1) 4 = Some (m', c).
Proof.
  assert (Hs : has_shape [[0; 1; 1]; [1; 1; 0]; [0; 1; 0]] 3 3) by (split; [reflexivity|forall_list; reflexivity]).
  assert (Hm : marks_ok [[0; 1; 1]; [1; 1; 0]; [0; 1; 0]] ∅) by (intros p v; by rewrite lookup_empty).
  assert (Hf : fval [[0; 1; 1]; [1; 1; 0]; [0; 1; 0]] ∅ (0, 1) <> 0) by (vm_compute; discriminate).
  split; [exact Hs|split; [exact Hm|split; [lia|split; [exact Hf|]]]].
  exact (trace_border_total _ 3 3 ∅ 2 (0, 1) 4 Hs Hm ltac:(lia) Hf).
Defined.
