(* ===== verification/Cv2.v ===== *)
(** * Cv2: the [cv2] module's namespace and [cv2.resize]

    [process_frame] reads its constants as attributes of the module object
    [cv2] ([cv2.COLOR_BGR2GRAY], ...); an attribute the module lacks raises
    [AttributeError: module 'cv2' has no attribute ...] at the point where
    Python evaluates it.  [cv2_module] holds the constants the program reads
    (and their neighbours), with OpenCV's values; [getattr] is the
    attribute read.  [cv2.resize(src, (w, h))] raises on an empty source
    ([!ssize.empty()]) and otherwise returns an [h x w] image; its bilinear
    interpolation is not written out ([Resizer] is the interface, [nn_resize]
    an executable instance used by the witnesses).  main.py lines 18, 21,
    24, 41 and 64. *)

From stdpp Require Import gmap.
From S2P Require Import Prelude Image Threshold Contours.

(** ** The module namespace *)

Definition cv2_constants : list (string * Z) :=
  [("COLOR_BGR2GRAY", COLOR_BGR2GRAY); ("COLOR_RGB2BGR", COLOR_RGB2BGR);
   ("ADAPTIVE_THRESH_MEAN_C", ADAPTIVE_THRESH_MEAN_C);
   ("ADAPTIVE_THRESH_GAUSSIAN_C", ADAPTIVE_THRESH_GAUSSIAN_C);
   ("THRESH_BINARY", THRESH_BINARY); ("THRESH_BINARY_INV", THRESH_BINARY_INV);
   ("RETR_EXTERNAL", RETR_EXTERNAL); ("RETR_LIST", 1);
   ("CHAIN_APPROX_NONE", 1); ("CHAIN_APPROX_SIMPLE", CHAIN_APPROX_SIMPLE)]%string.

(** The installed [cv2] module, as far as its integer constants go. *)
Definition cv2_module : gmap string Z := list_to_map cv2_constants.

(** [getattr(cv2, name)] for an integer constant. *)
Definition getattr (ns : gmap string Z) (name : string) : result Z :=
  match ns !! name with
  | Some v => Ok v
  | None => Err (AttributeError "cv2" name)
  end.

(** ** [cv2.resize] *)

(** What the program relies on of [cv2.resize(src, (w, h))]: an [h x w]
    result whose samples are [uchar]s (every interpolation of OpenCV ends in
    [saturate_cast<uchar>]). *)
Class Resizer := {
  resize_linear : gray -> Z -> Z -> gray;
  resize_linear_shape : forall src w h, 0 < w -> 0 < h ->
    has_shape (resize_linear src w h) (Z.to_nat h) (Z.to_nat w);
  resize_linear_u8 : forall src w h, all_px u8 src -> all_px u8 (resize_linear src w h)
}.

(** [cv2.resize(src, (w, h))], default [INTER_LINEAR]. *)
Definition cv2_resize `{Resizer} (src : gray) (w h : Z) : result gray :=
  if mat_empty src then Err (Cv2Error "!ssize.empty()") else Ok (resize_linear src w h).

(** Nearest-neighbour sampling, an executable instance of the interface. *)
Definition nn_resize (src : gray) (w h : Z) : gray :=
  let rows := length src in
  let cols := length (nth 0 src []) in
  map (fun i => map (fun j => at2 src (i * rows / Z.to_nat h) (j * cols / Z.to_nat w))
                    (seq 0 (Z.to_nat w)))
      (seq 0 (Z.to_nat h)).

Lemma nn_resize_shape (src : gray) w h :
  0 < w -> 0 < h -> has_shape (nn_resize src w h) (Z.to_nat h) (Z.to_nat w).
Proof.
  intros _ _. unfold nn_resize. split; [by rewrite length_map, length_seq|].
  apply Forall_forall. intros row Hrow. apply list_elem_of_In, in_map_iff in Hrow as (i & <- & _).
  by rewrite length_map, length_seq.
Qed.

Lemma nn_resize_u8 (src : gray) w h : all_px u8 src -> all_px u8 (nn_resize src w h).
Proof.
  intros Hu. unfold nn_resize. apply Forall_forall. intros row Hrow.
  apply list_elem_of_In, in_map_iff in Hrow as (i & <- & _).
  apply Forall_forall. intros v Hv. apply list_elem_of_In, in_map_iff in Hv as (j & <- & _).
  by apply at2_u8.
Qed.

#[export] Instance nn_resizer : Resizer := {|
  resize_linear := nn_resize;
  resize_linear_shape := nn_resize_shape;
  resize_linear_u8 := nn_resize_u8
|}.

(** ** Lemmas *)

(** The program's misspelt constant is not an attribute of [cv2]. *)
Lemma getattr_misspelt :
  getattr cv2_module "CHAIN_APPROLOGY_SIMPLE" = Err (AttributeError "cv2" "CHAIN_APPROLOGY_SIMPLE").
Proof. reflexivity. Qed.

Lemma cv2_resize_ok `{Resizer} (src : gray) w h :
  mat_empty src = false -> cv2_resize src w h = Ok (resize_linear src w h).
Proof. intros He. unfold cv2_resize. by rewrite He. Qed.

