(* ===== verification/Pipeline.v ===== *)
(** * Pipeline: [process_frame] (main.py lines 16-47)

    [process_frame ns frame] follows the body of [process_frame] statement by
    statement, reading the constants from the module namespace [ns] in the
    order Python evaluates them: grayscale conversion, adaptive threshold,
    [cv2.findContours] (whose third argument is the misspelt
    [cv2.CHAIN_APPROLOGY_SIMPLE]), the area filter ([filtered_contours]),
    the descending sort ([sorted_contours]), the first five
    ([sorted_contours[:5]]), the loop that crops, resizes, recognises and
    strips each region ([recognize_region], [process_loop]), and the join.
    The OCR engine [pytesseract.image_to_string] is a parameter of the
    section: it is an opaque collaborator that may raise. *)

From stdpp Require Import gmap.
From S2P Require Import Prelude PyStr PySort Image Threshold Contours Suzuki Cv2.

(** A namespace in which the names [process_frame] reads resolve to the
    constants the code means. *)
Definition ns_ok (ns : gmap string Z) : Prop :=
  ns !! "COLOR_BGR2GRAY"%string = Some COLOR_BGR2GRAY /\
  ns !! "ADAPTIVE_THRESH_MEAN_C"%string = Some ADAPTIVE_THRESH_MEAN_C /\
  ns !! "THRESH_BINARY_INV"%string = Some THRESH_BINARY_INV /\
  ns !! "RETR_EXTERNAL"%string = Some RETR_EXTERNAL /\
  ns !! "CHAIN_APPROLOGY_SIMPLE"%string = Some CHAIN_APPROX_SIMPLE.

(** [cv2] with the misspelt name made an alias of [CHAIN_APPROX_SIMPLE]:
    the namespace under which the code runs as intended. *)
Definition cv2_patched : gmap string Z :=
  <["CHAIN_APPROLOGY_SIMPLE"%string := CHAIN_APPROX_SIMPLE]> cv2_module.

(** [[contour for contour in contours if cv2.contourArea(contour) > 1000]]. *)
Definition filtered_contours (contours : list contour) : list contour :=
  filter (fun c => area_over_1000 c = true) contours.

(** [sorted(filtered_contours, key=cv2.contourArea, reverse=True)]. *)
Definition sorted_contours (fc : list contour) : list contour :=
  sorted_rev contourArea2 fc.

(** The regions the loop visits: [sorted_contours[:5]]. *)
Definition selected (contours : list contour) : list contour :=
  py_slice 0 5 (sorted_contours (filtered_contours contours)).

Section Pipeline.
Context `{ContourFinder} `{Resizer}.

(** [pytesseract.image_to_string(Image.fromarray(img), lang=lang)]. *)
Variable image_to_string : gray -> pystr -> result pystr.

(** One iteration of the loop (lines 35-45). *)
Definition recognize_region (g : gray) (c : contour) : result pystr :=
  let r := boundingRect c in
  let roi := crop g (rx r) (ry r) (rw r) (rh r) in
  let? resized_roi := cv2_resize roi 500 200 in
  let? text := image_to_string resized_roi (of_ascii "chi_sim") in
  Ok (str_strip text).

(** The loop with its accumulator [processed_texts] (lines 33-45). *)
Fixpoint process_loop (g : gray) (cs : list contour) (processed_texts : list pystr)
    : result (list pystr) :=
  match cs with
  | [] => Ok processed_texts
  | c :: t =>
      let? s := recognize_region g c in
      process_loop g t (processed_texts ++ [s])
  end.

Definition process_frame (ns : gmap string Z) (frame : image3) : result pystr :=
  let? c1 := getattr ns "COLOR_BGR2GRAY" in
  let? g := cvtColor_gray frame c1 in
  let? c2 := getattr ns "ADAPTIVE_THRESH_MEAN_C" in
  let? c3 := getattr ns "THRESH_BINARY_INV" in
  let? thresh := adaptiveThreshold g 255 c2 c3 11 2 in
  let? c4 := getattr ns "RETR_EXTERNAL" in
  let? c5 := getattr ns "CHAIN_APPROLOGY_SIMPLE" in
  let? found := findContours thresh c4 c5 in
  let contours := found.1 in
  let? processed_texts := process_loop g (selected contours) [] in
  Ok (str_join (of_ascii " ") processed_texts).
End Pipeline.

(** ** The selection (lines 27, 30, 34) *)

Lemma selected_take (contours : list contour) :
  selected contours = take 5 (sorted_contours (filtered_contours contours)).
Proof. unfold selected. by rewrite py_slice_prefix. Qed.

Lemma filtered_contours_area (contours : list contour) :
  Forall (fun c => 2000 < contourArea2 c) (filtered_contours contours).
Proof.
  apply Forall_forall. intros c Hc. apply list_elem_of_filter in Hc as [Hc _].
  by apply area_over_1000_iff.
Qed.

(** C6. The regions the loop visits are at most five, each of area greater
    than 1000 (twice the area greater than 2000), in non-increasing order of
    area. *)
Theorem selected_invariant (contours : list contour) :
  (length (selected contours) <= 5)%nat /\
  Forall (fun c => 2000 < contourArea2 c) (selected contours) /\
  sorted_desc contourArea2 (selected contours) = true.
Proof.
  rewrite selected_take. split; [|split].
  - rewrite length_take. lia.
  - apply Forall_take. unfold sorted_contours. rewrite (sorted_rev_perm contourArea2 _).
    apply filtered_contours_area.
  - apply ssorted_take. apply (sorted_rev_stable_desc contourArea2).
Qed.

(** C7. The selection is the five largest qualifying contours: together
    with the qualifying contours it leaves out it is a permutation of them,
    and none left out is larger than any selected one. *)
Theorem selected_top5 (contours : list contour) :
  selected contours ++ drop 5 (sorted_contours (filtered_contours contours))
    ≡ₚ filtered_contours contours /\
  forall c s, c ∈ drop 5 (sorted_contours (filtered_contours contours)) ->
    s ∈ selected contours -> contourArea2 c <= contourArea2 s.
Proof.
  rewrite selected_take. split.
  - rewrite take_drop. apply sorted_rev_perm.
  - intros c s Hc Hs. apply Z.leb_le.
    destruct (sorted_rev_stable_desc contourArea2 (filtered_contours contours)) as [Hsorted _].
    rewrite <- (take_drop 5 (sorted_rev _ _)) in Hsorted.
    exact (ssorted_app contourArea2 _ _ _ Hsorted s c Hs Hc).
Qed.

(** C8. The spec's six-region scenario: when six contours qualify and
    their areas are distinct, the loop visits exactly five of them, in
    descending order of area, and leaves out the one of least area. *)
Theorem selected_six_distinct (contours : list contour) :
  length (filtered_contours contours) = 6%nat ->
  NoDup (map contourArea2 (filtered_contours contours)) ->
  exists s, selected contours ++ [s] ≡ₚ filtered_contours contours /\
    length (selected contours) = 5%nat /\
    sorted_desc contourArea2 (selected contours) = true /\
    forall c, c ∈ selected contours -> contourArea2 s < contourArea2 c.
Proof.
  intros Hlen Hnd. rewrite selected_take. unfold sorted_contours.
  set (fc := filtered_contours contours) in *.
  pose proof (sorted_rev_perm contourArea2 fc) as Hp.
  destruct (sorted_rev_stable_desc contourArea2 fc) as [Hs _].
  assert (length (sorted_rev contourArea2 fc) = 6%nat) as Hl by by rewrite (Permutation_length Hp).
  rewrite <- (take_drop 5 (sorted_rev contourArea2 fc)) in Hp, Hs.
  assert (length (drop 5 (sorted_rev contourArea2 fc)) = 1%nat) as Hd by (rewrite length_drop; lia).
  destruct (drop 5 _) as [|s [|]]; simpl in Hd; try lia.
  apply ssorted_app_single in Hs as [Hs Hle].
  exists s. split; [done|]. split; [rewrite length_take; lia|]. split; [exact Hs|].
  intros c Hc. specialize (Hle c Hc). apply Z.leb_le in Hle.
  apply (Permutation_map contourArea2) in Hp. rewrite <- Hp, map_app, NoDup_app in Hnd.
  destruct Hnd as (_ & Hdis & _).
  assert (contourArea2 c <> contourArea2 s); [|lia].
  intros Heq. apply (Hdis (contourArea2 c)); [by apply list_elem_of_fmap_2|]. rewrite Heq. by left.
Qed.

(** The selected contours of a binary image are non-empty lists of its
    points. *)
Lemma selected_in_image `{ContourFinder} (t : gray) h w c :
  has_shape t h w -> c ∈ selected (find_external t) -> c <> [] /\ Forall (in_image h w) c.
Proof.
  intros Hts Hc. rewrite selected_take in Hc. apply elem_of_take in Hc as (i & Hi & _).
  apply list_elem_of_lookup_2 in Hi. unfold sorted_contours in Hi.
  rewrite (sorted_rev_perm contourArea2 _) in Hi. apply list_elem_of_filter in Hi as [_ Hi].
  by apply (find_external_points _ h w c Hts).
Qed.

Section PipelineFacts.
Context `{ContourFinder} `{Resizer}.
Variable image_to_string : gray -> pystr -> result pystr.

Lemma process_loop_mapM (g : gray) (cs : list contour) (acc : list pystr) :
  process_loop image_to_string g cs acc =
  let? ts := mapM (recognize_region image_to_string g) cs in Ok (acc ++ ts).
Proof.
  revert acc. induction cs as [|c t IH]; intros acc; simpl.
  - by rewrite app_nil_r.
  - destruct (recognize_region image_to_string g c) as [s|e]; simpl; [|done].
    rewrite IH. destruct (mapM _ t); simpl; [|done]. by rewrite <- app_assoc.
Qed.

Lemma getattr_ok (ns : gmap string Z) name v : ns !! name = Some v -> getattr ns name = Ok v.
Proof. unfold getattr. by intros ->. Qed.

(** Under a namespace where the constants resolve, [process_frame]
    converts the frame to gray, thresholds it, finds the external contours
    of the binary image, and joins with single spaces the stripped OCR
    texts of the selected regions, raising the first error of the loop. *)
Lemma process_frame_eq (ns : gmap string Z) (frame : image3) :
  ns_ok ns -> mat_empty frame = false ->
  process_frame image_to_string ns frame =
  let g := map (map bgr2gray_px) frame in
  let? ts := mapM (recognize_region image_to_string g)
                  (selected (find_external (thresh_prog g))) in
  Ok (str_join (of_ascii " ") ts).
Proof.
  intros (H1 & H2 & H3 & H4 & H5) Hne. unfold process_frame.
  rewrite (getattr_ok _ _ _ H1). cbn [bind]. rewrite cvtColor_gray_ok by done. cbn [bind].
  rewrite (getattr_ok _ _ _ H2), (getattr_ok _ _ _ H3). cbn [bind].
  rewrite adaptiveThreshold_prog. cbn [bind].
  rewrite (getattr_ok _ _ _ H4), (getattr_ok _ _ _ H5). cbn [bind].
  unfold findContours. rewrite decide_True by done. cbn [bind fst].
  rewrite process_loop_mapM. destruct (mapM _ _); reflexivity.
Qed.

(** With the installed [cv2] module, [process_frame] never returns:
    an empty frame fails [cvtColor]'s assertion, and any other frame
    raises [AttributeError] when Python evaluates
    [cv2.CHAIN_APPROLOGY_SIMPLE] on line 24, before [findContours] runs. *)
Lemma process_frame_misspelt (frame : image3) :
  process_frame image_to_string cv2_module frame =
  Err (if mat_empty frame then Cv2Error "!_src.empty()"
       else AttributeError "cv2" "CHAIN_APPROLOGY_SIMPLE").
Proof.
  unfold process_frame.
  assert (getattr cv2_module "COLOR_BGR2GRAY" = Ok COLOR_BGR2GRAY) as -> by (vm_compute; done).
  assert (getattr cv2_module "ADAPTIVE_THRESH_MEAN_C" = Ok ADAPTIVE_THRESH_MEAN_C) as -> by (vm_compute; done).
  assert (getattr cv2_module "THRESH_BINARY_INV" = Ok THRESH_BINARY_INV) as -> by (vm_compute; done).
  assert (getattr cv2_module "RETR_EXTERNAL" = Ok RETR_EXTERNAL) as -> by (vm_compute; done).
  cbn [bind]. destruct (mat_empty frame) eqn:He; [unfold cvtColor_gray; by rewrite He|].
  rewrite cvtColor_gray_ok by done. cbn [bind]. rewrite adaptiveThreshold_prog. cbn [bind].
  rewrite getattr_misspelt. reflexivity.
Qed.

(** C1. With the installed [cv2] module, [process_frame] never returns:
    an empty frame fails [cvtColor]'s assertion, and any other frame
    raises [AttributeError] when Python evaluates
    [cv2.CHAIN_APPROLOGY_SIMPLE] on line 24, before [findContours] runs. *)
Theorem process_frame_attribute_error (frame : image3) :
  process_frame image_to_string cv2_module frame =
  Err (if mat_empty frame then Cv2Error "!_src.empty()"
       else AttributeError "cv2" "CHAIN_APPROLOGY_SIMPLE").
Proof. apply process_frame_misspelt. Qed.

(** A blank frame (every pixel the same colour), under a namespace
    where the constants resolve, gives the empty text: the threshold marks
    nothing, no contour is found and the loop does not run. *)
Lemma process_frame_uniform (ns : gmap string Z) (frame : image3) h w b gr r :
  ns_ok ns -> has_shape frame h w -> (0 < h)%nat -> (0 < w)%nat ->
  all_px (fun p => p = (b, gr, r)) frame -> u8 b -> u8 gr -> u8 r ->
  process_frame image_to_string ns frame = Ok [].
Proof.
  intros Hns Hs Hh Hw Hv Hb Hg Hr.
  rewrite process_frame_eq by eauto using mat_empty_false. cbv zeta.
  set (g := map (map bgr2gray_px) frame).
  assert (all_px (fun p => p = bgr2gray_px (b, gr, r)) g) as Hgv.
  { apply (all_px_map (fun p => p = (b, gr, r))); [by intros ? ->|done]. }
  pose proof (thresh_prog_uniform g (thresh_prog g) h w _ (adaptiveThreshold_prog g)
                (map_map_shape _ _ _ _ Hs) Hh Hw Hgv (bgr2gray_u8 b gr r Hb Hg Hr)) as Hz.
  rewrite (find_external_blank _ Hz). reflexivity.
Qed.

(** C11. A blank frame (every pixel the same colour), under a namespace
    where the constants resolve (a [cv2] in which [CHAIN_APPROLOGY_SIMPLE] exists; the installed one
    has no such name and raises instead, see C1), gives the empty text: the threshold marks
    nothing, no contour is found and the loop does not run. *)
Theorem process_frame_blank (ns : gmap string Z) (frame : image3) h w b gr r :
  ns_ok ns -> has_shape frame h w -> (0 < h)%nat -> (0 < w)%nat ->
  all_px (fun p => p = (b, gr, r)) frame -> u8 b -> u8 gr -> u8 r ->
  process_frame image_to_string ns frame = Ok [].
Proof. apply process_frame_uniform. Qed.

(** The loop body on a contour of the image: no OpenCV call raises; the
    OCR engine reads the resized crop of the contour's bounding box. *)
Lemma recognize_region_in_image (g : gray) h w (c : contour) :
  has_shape g h w -> c <> [] -> Forall (in_image h w) c ->
  let r := boundingRect c in
  recognize_region image_to_string g c =
  let? text := image_to_string (resize_linear (crop g (rx r) (ry r) (rw r) (rh r)) 500 200)
                               (of_ascii "chi_sim") in
  Ok (str_strip text).
Proof.
  intros Hs Hc Hin. cbv zeta.
  destruct (boundingRect_in_image c h w Hc Hin) as (? & ? & ? & ? & ? & ?).
  assert (has_shape (crop g (rx (boundingRect c)) (ry (boundingRect c)) (rw (boundingRect c))
            (rh (boundingRect c))) (Z.to_nat (rh (boundingRect c))) (Z.to_nat (rw (boundingRect c))))
    as Hcs.
  { eapply proj1. apply (crop_sub g h w); first [exact Hs | lia]. }
  unfold recognize_region.
  rewrite (cv2_resize_ok _ _ _ (mat_empty_false _ _ _ Hcs ltac:(lia) ltac:(lia))). reflexivity.
Qed.

(** A region the loop visits on a frame: its recognition is the OCR of
    its resized bounding-box crop, stripped; no OpenCV call raises. *)
Lemma recognize_selected (frame : image3) h w (c : contour) :
  has_shape frame h w -> (0 < h)%nat -> (0 < w)%nat ->
  let g := map (map bgr2gray_px) frame in
  c ∈ selected (find_external (thresh_prog g)) ->
  recognize_region image_to_string g c =
  let? text := image_to_string (resize_linear (crop g (rx (boundingRect c)) (ry (boundingRect c))
                                  (rw (boundingRect c)) (rh (boundingRect c))) 500 200)
                               (of_ascii "chi_sim") in
  Ok (str_strip text).
Proof.
  intros Hs Hh Hw g Hc.
  assert (has_shape g h w) as Hg by (by apply map_map_shape).
  destruct (adaptiveThreshold_shape g h w Hg Hh) as (t & Ht & Hts).
  rewrite adaptiveThreshold_prog in Ht. injection Ht as <-.
  destruct (selected_in_image (thresh_prog g) h w c Hts Hc) as [Hne Hpts].
  exact (recognize_region_in_image g h w c Hg Hne Hpts).
Qed.

(** C12. Under a namespace where the constants resolve (a [cv2] in which [CHAIN_APPROLOGY_SIMPLE] exists; the installed one
    has no such name and raises instead, see C1), the exceptions of
    [process_frame] on a frame are exactly those of the OCR engine: the call
    raises [e] if and only if, taking the selected regions in order, the
    OCR of every region before some region [c] returns and the OCR of the
    resized bounding-box crop of [c] raises [e]. *)
Theorem process_frame_error (ns : gmap string Z) (frame : image3) h w e :
  ns_ok ns -> has_shape frame h w -> (0 < h)%nat -> (0 < w)%nat ->
  let g := map (map bgr2gray_px) frame in
  process_frame image_to_string ns frame = Err e <->
  exists l1 c l2,
    selected (find_external (thresh_prog g)) = l1 ++ c :: l2 /\
    Forall (fun y => is_ok (recognize_region image_to_string g y) = true) l1 /\
    image_to_string (resize_linear (crop g (rx (boundingRect c)) (ry (boundingRect c))
                                          (rw (boundingRect c)) (rh (boundingRect c))) 500 200)
                    (of_ascii "chi_sim") = Err e.
Proof.
  intros Hns Hs Hh Hw g. rewrite process_frame_eq by eauto using mat_empty_false.
  subst g. cbv zeta. split.
  - intros Herr. destruct (mapM _ _) as [ts|e'] eqn:Hm; [discriminate|]. injection Herr as ->.
    apply mapM_Err in Hm as (l1 & c & l2 & Hl & Hok & Hc). exists l1, c, l2.
    split; [done|]. split; [done|].
    rewrite (recognize_selected frame h w c Hs Hh Hw) in Hc by (rewrite Hl; set_solver).
    by destruct (image_to_string _ _).
  - intros (l1 & c & l2 & Hl & Hok & Hc).
    assert (mapM (recognize_region image_to_string (map (map bgr2gray_px) frame))
              (selected (find_external (thresh_prog (map (map bgr2gray_px) frame)))) = Err e)
      as ->; [|reflexivity].
    apply mapM_Err. exists l1, c, l2. split; [done|]. split; [done|].
    rewrite (recognize_selected frame h w c Hs Hh Hw) by (rewrite Hl; set_solver). by rewrite Hc.
Qed.

(** C14. Under a namespace where the constants resolve (a [cv2] in which
    [CHAIN_APPROLOGY_SIMPLE] exists; the installed one has no such name, see
    C1), a text [process_frame] returns is the join with single spaces, in
    the order of the selected regions, of the stripped OCR outputs of their
    resized bounding-box crops: exactly [min 5 n] strings, [n] being the
    number of contours whose area exceeds 1000. *)
Theorem process_frame_count (ns : gmap string Z) (frame : image3) h w (s : pystr) :
  ns_ok ns -> has_shape frame h w -> (0 < h)%nat -> (0 < w)%nat ->
  let g := map (map bgr2gray_px) frame in
  process_frame image_to_string ns frame = Ok s ->
  exists ts, s = str_join (of_ascii " ") ts /\
    length ts = Nat.min 5 (length (filtered_contours (find_external (thresh_prog g)))) /\
    Forall2 (fun c t => exists raw,
        image_to_string (resize_linear (crop g (rx (boundingRect c)) (ry (boundingRect c))
                                         (rw (boundingRect c)) (rh (boundingRect c))) 500 200)
                        (of_ascii "chi_sim") = Ok raw /\ t = str_strip raw)
      (selected (find_external (thresh_prog g))) ts.
Proof.
  intros Hns Hs Hh Hw g. rewrite process_frame_eq by eauto using mat_empty_false. subst g. cbv zeta.
  destruct (mapM _ _) as [ts|e] eqn:Hm; [|discriminate]. intros [= <-].
  exists ts. split; [done|]. split.
  - rewrite (mapM_length _ _ _ Hm), selected_take, length_take.
    unfold sorted_contours. by rewrite (Permutation_length (sorted_rev_perm _ _)).
  - apply mapM_Ok in Hm. apply (Forall2_impl_in _ _ _ _ Hm). intros c t Hc Ht.
    rewrite (recognize_selected frame h w c Hs Hh Hw Hc) in Ht.
    destruct (image_to_string _ _) as [raw|]; [|done]. injection Ht as <-. by exists raw.
Qed.
(** C15. The spec's one-region scenario, under a namespace where the
    constants resolve (a [cv2] in which [CHAIN_APPROLOGY_SIMPLE] exists; the installed one
    has no such name and raises instead, see C1): when exactly one contour of the
    thresholded frame passes the area filter, [process_frame] returns the
    stripped OCR text of that contour's bounding box, cropped from the gray
    frame and resized to 500x200, or raises what the OCR engine raises. *)
Theorem process_frame_single_region (ns : gmap string Z) (frame : image3) h w (c : contour) :
  ns_ok ns -> has_shape frame h w -> (0 < h)%nat -> (0 < w)%nat ->
  let g := map (map bgr2gray_px) frame in
  filtered_contours (find_external (thresh_prog g)) = [c] ->
  let r := boundingRect c in
  process_frame image_to_string ns frame =
  let? text := image_to_string (resize_linear (crop g (rx r) (ry r) (rw r) (rh r)) 500 200)
                               (of_ascii "chi_sim") in
  Ok (str_strip text).
Proof.
  intros Hns Hs Hh Hw g Hf r. rewrite process_frame_eq by eauto using mat_empty_false.
  subst g. cbv zeta.
  assert (selected (find_external (thresh_prog (map (map bgr2gray_px) frame))) = [c]) as Hsel by (unfold selected; by rewrite Hf).
  rewrite Hsel. cbn [mapM]. rewrite (recognize_selected frame h w c Hs Hh Hw) by (rewrite Hsel; set_solver).
  by destruct (image_to_string _ _).
Qed.
End PipelineFacts.

(** ** Scenarios of the specification *)

(** The rectangle with corner [(x, y)], [w] wide and [h] high, as a contour. *)
Definition rect_contour (x y w h : Z) : contour :=
  [(x, y); (x, y + h); (x + w, y + h); (x + w, y)].

(** Six qualifying regions of distinct areas: the five largest are kept, in
    descending order of area, and the smallest is dropped. *)
Example selected_six_regions :
  selected [rect_contour 0 0 40 40; rect_contour 0 0 60 60; rect_contour 0 0 35 35;
            rect_contour 0 0 90 90; rect_contour 0 0 50 50; rect_contour 0 0 70 70] =
  [rect_contour 0 0 90 90; rect_contour 0 0 70 70; rect_contour 0 0 60 60;
   rect_contour 0 0 50 50; rect_contour 0 0 40 40].
Proof. vm_compute. reflexivity. Qed.

(** A block of area 5000 among noise contours of area under 1000: the block
    alone is selected. *)
Example selected_block_and_noise :
  selected [rect_contour 5 5 10 10; rect_contour 100 100 100 50;
            rect_contour 0 0 30 30; rect_contour 7 3 1 999] =
  [rect_contour 100 100 100 50].
Proof. vm_compute. reflexivity. Qed.

(** ** Witnesses *)

Definition ocr_hello : gray -> pystr -> result pystr := fun _ _ => Ok (of_ascii " hello").
Definition ocr_fails : gray -> pystr -> result pystr := fun _ _ => Err (LibError "tesseract").

Lemma ns_ok_patched : ns_ok cv2_patched.
Proof. repeat split; vm_compute; reflexivity. Qed.

Definition frame_2x2 : image3 := [[(10, 20, 30); (10, 20, 30)]; [(10, 20, 30); (10, 20, 30)]].

Lemma process_frame_blank_witness : process_frame ocr_hello cv2_patched frame_2x2 = Ok [].
Proof.
  apply (process_frame_blank ocr_hello cv2_patched frame_2x2 2 2 10 20 30);
    [exact ns_ok_patched | split; [reflexivity | forall_list; reflexivity] | lia | lia
    | forall_list; forall_list; reflexivity | unfold u8; lia ..].
Defined.

(** A 40x40 light frame with a dark 35x35 square: the threshold marks the
    inner border of the square, one contour of area 1156 is found, and the
    OCR engine is called once. *)
Definition square_frame : image3 :=
  map (fun i => map (fun j => if (3 <=? i) && (i <=? 37) && (3 <=? j) && (j <=? 37)
                             then (20, 20, 20) else (230, 230, 230))
                    (map Z.of_nat (seq 0 40)))
      (map Z.of_nat (seq 0 40)).

Definition square_box : contour := [(3, 3); (3, 37); (37, 37); (37, 3)].

Lemma square_frame_selected :
  selected (find_external (thresh_prog (map (map bgr2gray_px) square_frame))) = [square_box].
Proof. vm_compute. reflexivity. Qed.

Lemma square_frame_shape : has_shape square_frame 40 40.
Proof. split; [reflexivity|]. vm_compute. forall_list; reflexivity. Qed.

Lemma square_frame_hello : process_frame ocr_hello cv2_patched square_frame = Ok (of_ascii "hello").
Proof.
  rewrite process_frame_eq by (exact ns_ok_patched || reflexivity). cbv zeta.
  rewrite square_frame_selected. lazy. reflexivity.
Qed.

Lemma process_frame_count_witness :
  ns_ok cv2_patched /\ has_shape square_frame 40 40 /\ (0 < 40)%nat /\
  exists ts, of_ascii "hello" = str_join (of_ascii " ") ts /\
    length ts = Nat.min 5 (length (filtered_contours
                  (find_external (thresh_prog (map (map bgr2gray_px) square_frame))))) /\
    Forall2 (fun c t => exists raw,
        ocr_hello (resize_linear (crop (map (map bgr2gray_px) square_frame)
                    (rx (boundingRect c)) (ry (boundingRect c))
                    (rw (boundingRect c)) (rh (boundingRect c))) 500 200)
                  (of_ascii "chi_sim") = Ok raw /\ t = str_strip raw)
      (selected (find_external (thresh_prog (map (map bgr2gray_px) square_frame)))) ts.
Proof.
  split; [exact ns_ok_patched|split; [exact square_frame_shape|split; [lia|]]].
  exact (process_frame_count ocr_hello cv2_patched square_frame 40 40 (of_ascii "hello")
           ns_ok_patched square_frame_shape ltac:(lia) ltac:(lia) square_frame_hello).
Defined.

Lemma process_frame_error_witness :
  process_frame ocr_fails cv2_patched square_frame = Err (LibError "tesseract").
Proof.
  pose proof (process_frame_error ocr_fails cv2_patched square_frame 40 40 (LibError "tesseract")
                ns_ok_patched square_frame_shape ltac:(lia) ltac:(lia)) as Herr.
  cbv zeta in Herr. apply Herr. exists [], square_box, [].
  split; [exact square_frame_selected|]. split; [constructor|reflexivity].
Defined.

(** ** The area filter reads the contour's own area *)

(** The spec (section 4.2) describes the filter on the area of the enclosing
    rectangle; line 27 filters on [cv2.contourArea], the polygon's area. A
    diagonal stroke has a 101x101 bounding rectangle but no area, and is
    dropped. *)
Example diagonal_stroke_dropped :
  filtered_contours [[(0, 0); (100, 100)]] = [] /\
  rw (boundingRect [(0, 0); (100, 100)]) * rh (boundingRect [(0, 0); (100, 100)]) = 10201.
Proof. split; vm_compute; reflexivity. Qed.

Lemma process_frame_single_region_witness :
  ns_ok cv2_patched /\ has_shape square_frame 40 40 /\ (0 < 40)%nat /\ (0 < 40)%nat /\
  filtered_contours (find_external (thresh_prog (map (map bgr2gray_px) square_frame))) = [square_box] /\
  process_frame ocr_hello cv2_patched square_frame =
  let r := boundingRect square_box in
  let? text := ocr_hello (resize_linear (crop (map (map bgr2gray_px) square_frame) (rx r) (ry r) (rw r) (rh r))
                                        500 200) (of_ascii "chi_sim") in
  Ok (str_strip text).
Proof.
  assert (Hf : filtered_contours (find_external (thresh_prog (map (map bgr2gray_px) square_frame)))
               = [square_box]) by (vm_compute; reflexivity).
  split; [exact ns_ok_patched|split; [exact square_frame_shape|split; [lia|split; [lia|split; [exact Hf|]]]]].
  exact (process_frame_single_region ocr_hello cv2_patched square_frame 40 40 square_box
           ns_ok_patched square_frame_shape ltac:(lia) ltac:(lia) Hf).
Defined.

(** Six squares of sides 40 to 45: six qualifying contours of distinct
    areas. *)
Definition square_at (k : Z) : contour := [(0, 0); (0, k); (k, k); (k, 0)].
Definition six_squares : list contour := map square_at [42; 40; 45; 41; 44; 43].

Lemma selected_six_distinct_witness :
  length (filtered_contours six_squares) = 6%nat /\
  NoDup (map contourArea2 (filtered_contours six_squares)) /\
  exists s, selected six_squares ++ [s] ≡ₚ filtered_contours six_squares /\
    length (selected six_squares) = 5%nat /\
    sorted_desc contourArea2 (selected six_squares) = true /\
    forall c, c ∈ selected six_squares -> contourArea2 s < contourArea2 c.
Proof.
  assert (Hl : length (filtered_contours six_squares) = 6%nat) by reflexivity.
  assert (Hnd : NoDup (map contourArea2 (filtered_contours six_squares)))
    by (apply (bool_decide_unpack _); vm_compute; reflexivity).
  split; [exact Hl|split; [exact Hnd|]].
  exact (selected_six_distinct six_squares Hl Hnd).
Defined.

(** The square of side 40 is the one left out. *)
Example six_squares_selected : selected six_squares = map square_at [45; 44; 43; 42; 41].
Proof. vm_compute. reflexivity. Qed.
