(* ===== verification/Typing.v ===== *)
(** * Typing: the arrays of [process_frame] are well-typed numpy arrays

    [process_frame] (main.py lines 16-47) hands numpy arrays from call to
    call: the captured frame ([uint8], shape [(h, w, 3)]), the gray image
    ([uint8], [(h, w)]), the mask [thresh] of [adaptiveThreshold] (values
    [0] and [255]), the region of interest [gray[y:y+h, x:x+w]] and its
    resized copy, which [Image.fromarray] turns into an 8-bit gray image for
    Tesseract.  [bgr_typed], [gray_typed] and [mask_typed] are these array
    types; each operation preserves them (one lemma per operation), and
    [region_images_typed] composes the lemmas along the pipeline. *)

From stdpp Require Import gmap.
From S2P Require Import Prelude PyStr PySort Image Threshold Contours Suzuki Cv2 Pipeline.

(** A [uint8] colour pixel. *)
Definition px_u8 (p : px3) : Prop := u8 p.1.1 /\ u8 p.1.2 /\ u8 p.2.

(** A [uint8] array of shape [(h, w, 3)]. *)
Definition bgr_typed (img : image3) (h w : nat) : Prop := has_shape img h w /\ all_px px_u8 img.

(** A [uint8] array of shape [(h, w)]. *)
Definition gray_typed (img : gray) (h w : nat) : Prop := has_shape img h w /\ all_px u8 img.

(** A binary mask of shape [(h, w)]: every sample is [0] or [255]. *)
Definition mask_typed (img : gray) (h w : nat) : Prop :=
  has_shape img h w /\ all_px (fun v => v = 0 \/ v = 255) img.

(** ** One lemma per operation *)

(** [cv2.cvtColor(frame, cv2.COLOR_BGR2GRAY)] maps a colour frame to a
    gray image of the same shape. *)
Lemma cvtColor_gray_typed (frame : image3) h w :
  bgr_typed frame h w -> (0 < h)%nat -> (0 < w)%nat ->
  cvtColor_gray frame COLOR_BGR2GRAY = Ok (map (map bgr2gray_px) frame) /\
  gray_typed (map (map bgr2gray_px) frame) h w.
Proof.
  intros [Hs Hu] Hh Hw. split; [apply cvtColor_gray_ok; by apply (mat_empty_false _ h w)|].
  split; [by apply map_map_shape|]. apply (all_px_map px_u8); [|done].
  intros [[b g] r] (Hb & Hg & Hr). by apply bgr2gray_u8.
Qed.

Lemma thresh_tab_binary (v : Z) :
  thresh_tab THRESH_BINARY_INV 255 2 v = 0 \/ thresh_tab THRESH_BINARY_INV 255 2 v = 255.
Proof. unfold thresh_tab. rewrite decide_False by discriminate. destruct (_ <=? _); auto. Qed.

(** The program's [adaptiveThreshold] call maps a gray image to a mask of
    the same shape. *)
Lemma thresh_typed (g : gray) h w : has_shape g h w -> (0 < h)%nat -> mask_typed (thresh_prog g) h w.
Proof.
  intros Hs Hh. destruct (adaptiveThreshold_shape g h w Hs Hh) as (t & Ht & Hts).
  rewrite adaptiveThreshold_prog in Ht. injection Ht as <-. split; [done|].
  apply Forall_zip_with. intros row m. apply Forall_zip_with. intros s v. apply thresh_tab_binary.
Qed.

(** Slicing keeps the samples' type. *)
Lemma all_px_crop {A} (P : A -> Prop) (img : list (list A)) x y w h :
  all_px P img -> all_px P (crop img x y w h).
Proof. intros H. unfold crop, all_px. apply Forall_map. apply Forall_py_slice. eauto using Forall_impl with pyfacts. Qed.

(** [gray[y:y+h, x:x+w]] inside the image is a gray image of shape [(h, w)]. *)
Lemma crop_typed (g : gray) (H W : nat) (x y w h : Z) :
  gray_typed g H W -> 0 <= x -> 0 <= y -> 0 <= w -> 0 <= h ->
  x + w <= Z.of_nat W -> y + h <= Z.of_nat H ->
  gray_typed (crop g x y w h) (Z.to_nat h) (Z.to_nat w).
Proof.
  intros [Hs Hu] Hx Hy Hw Hh Hxw Hyh. split; [|by apply all_px_crop].
  by destruct (crop_sub g H W x y w h Hs Hx Hy Hw Hh Hxw Hyh).
Qed.

(** [cv2.resize(roi, (500, 200))] gives a [200 x 500] gray image. *)
Lemma resize_typed `{Resizer} (roi : gray) h w :
  gray_typed roi h w -> gray_typed (resize_linear roi 500 200) 200 500.
Proof.
  intros [_ Hu]. split; [exact (resize_linear_shape roi 500 200 ltac:(lia) ltac:(lia))|].
  by apply resize_linear_u8.
Qed.

Lemma region_images_typed_core `{ContourFinder} `{Resizer} (frame : image3) h w c :
  bgr_typed frame h w -> (0 < h)%nat -> (0 < w)%nat ->
  let g := map (map bgr2gray_px) frame in
  c ∈ selected (find_external (thresh_prog g)) ->
  let r := boundingRect c in
  let roi := crop g (rx r) (ry r) (rw r) (rh r) in
  gray_typed g h w /\ mask_typed (thresh_prog g) h w /\
  1 <= rw r /\ 1 <= rh r /\ gray_typed roi (Z.to_nat (rh r)) (Z.to_nat (rw r)) /\
  gray_typed (resize_linear roi 500 200) 200 500.
Proof.
  intros Hf Hh Hw g Hc. cbv zeta.
  destruct (cvtColor_gray_typed frame h w Hf Hh Hw) as [_ Hg]. fold g in Hg.
  pose proof (thresh_typed g h w (proj1 Hg) Hh) as Ht.
  destruct (selected_in_image (thresh_prog g) h w c (proj1 Ht) Hc) as [Hne Hpts].
  destruct (boundingRect_in_image c h w Hne Hpts) as (Hx & Hrw & Hxw & Hy & Hrh & Hyh).
  set (r := boundingRect c) in *.
  assert (gray_typed (crop g (rx r) (ry r) (rw r) (rh r)) (Z.to_nat (rh r)) (Z.to_nat (rw r))) as Hroi
    by (apply (crop_typed g h w); first [exact Hg | lia]).
  split; [exact Hg|split; [exact Ht|split; [lia|split; [lia|split; [exact Hroi|]]]]].
  exact (resize_typed _ _ _ Hroi).
Qed.

(** C16. The arrays of [process_frame] are well-typed: on a [uint8] frame of
    shape [(h, w, 3)], the gray image is a [uint8] array of shape [(h, w)],
    [thresh] a [0]/[255] mask of the same shape, and for every region the
    loop visits, its bounding box is at least 1x1, the region of interest
    is a [uint8] array of shape [(rh, rw)] and the image handed to
    Tesseract a [uint8] array of shape [(200, 500)]. *)
Theorem region_images_typed `{ContourFinder} `{Resizer} (frame : image3) h w c :
  bgr_typed frame h w -> (0 < h)%nat -> (0 < w)%nat ->
  let g := map (map bgr2gray_px) frame in
  c ∈ selected (find_external (thresh_prog g)) ->
  let r := boundingRect c in
  let roi := crop g (rx r) (ry r) (rw r) (rh r) in
  gray_typed g h w /\ mask_typed (thresh_prog g) h w /\
  1 <= rw r /\ 1 <= rh r /\ gray_typed roi (Z.to_nat (rh r)) (Z.to_nat (rw r)) /\
  gray_typed (resize_linear roi 500 200) 200 500.
Proof. apply region_images_typed_core. Qed.

(** The call [cv2.resize(roi, (500, 200))] of a region the loop visits
    passes [resize]'s assertion [!ssize.empty()], so the region's text is
    Tesseract's output on the resized crop, a [uint8] [200 x 500] image. *)
Lemma recognize_region_ocr_input `{ContourFinder} `{Resizer}
    (ocr : gray -> pystr -> result pystr) (frame : image3) h w c :
  bgr_typed frame h w -> (0 < h)%nat -> (0 < w)%nat ->
  let g := map (map bgr2gray_px) frame in
  c ∈ selected (find_external (thresh_prog g)) ->
  let r := boundingRect c in
  let resized := resize_linear (crop g (rx r) (ry r) (rw r) (rh r)) 500 200 in
  recognize_region ocr g c = (let? text := ocr resized (of_ascii "chi_sim") in Ok (str_strip text)) /\
  gray_typed resized 200 500.
Proof.
  intros Hf Hh Hw g Hc. cbv zeta.
  destruct (region_images_typed_core frame h w c Hf Hh Hw Hc) as (_ & _ & Hrw & Hrh & [Hs _] & Ht).
  split; [|exact Ht]. unfold recognize_region, cv2_resize. subst g. cbv zeta.
  rewrite (mat_empty_false _ _ _ Hs) by lia. reflexivity.
Qed.

Lemma process_frame_ocr_inputs_core `{ContourFinder} `{Resizer}
    (ocr1 ocr2 : gray -> pystr -> result pystr) (ns : gmap string Z) (frame : image3) h w :
  ns_ok ns -> bgr_typed frame h w -> (0 < h)%nat -> (0 < w)%nat ->
  (forall img, gray_typed img 200 500 -> ocr1 img (of_ascii "chi_sim") = ocr2 img (of_ascii "chi_sim")) ->
  process_frame ocr1 ns frame = process_frame ocr2 ns frame.
Proof.
  intros Hns Hf Hh Hw Hocr.
  assert (mat_empty frame = false) as Hne by (apply (mat_empty_false _ h w); [apply Hf|lia..]).
  rewrite !process_frame_eq by done. cbv zeta.
  erewrite mapM_ext_in; [reflexivity|]. intros c Hc.
  destruct (recognize_region_ocr_input ocr1 frame h w c Hf Hh Hw Hc) as [-> Ht].
  destruct (recognize_region_ocr_input ocr2 frame h w c Hf Hh Hw Hc) as [-> _].
  by rewrite Hocr.
Qed.

(** C17. Tesseract only ever sees [uint8] images of shape [(200, 500)] and
    the language [chi_sim]: on a [uint8] frame, two OCR engines that agree
    on those inputs give [process_frame] the same result, text or
    exception. *)
Theorem process_frame_ocr_inputs `{ContourFinder} `{Resizer}
    (ocr1 ocr2 : gray -> pystr -> result pystr) (ns : gmap string Z) (frame : image3) h w :
  ns_ok ns -> bgr_typed frame h w -> (0 < h)%nat -> (0 < w)%nat ->
  (forall img, gray_typed img 200 500 -> ocr1 img (of_ascii "chi_sim") = ocr2 img (of_ascii "chi_sim")) ->
  process_frame ocr1 ns frame = process_frame ocr2 ns frame.
Proof. apply process_frame_ocr_inputs_core. Qed.

(** ** Witness: the 40x40 frame with a dark square *)

Lemma square_frame_typed : bgr_typed square_frame 40 40.
Proof.
  split; [exact square_frame_shape|]. unfold square_frame, all_px.
  apply Forall_map, Forall_forall. intros i _. apply Forall_map, Forall_forall. intros j _.
  destruct (_ && _); unfold px_u8, u8; simpl; lia.
Qed.

Lemma region_images_typed_witness :
  bgr_typed square_frame 40 40 /\ (0 < 40)%nat /\ (0 < 40)%nat /\
  square_box ∈ selected (find_external (thresh_prog (map (map bgr2gray_px) square_frame))) /\
  let g := map (map bgr2gray_px) square_frame in
  let r := boundingRect square_box in
  let roi := crop g (rx r) (ry r) (rw r) (rh r) in
  gray_typed g 40 40 /\ mask_typed (thresh_prog g) 40 40 /\
  1 <= rw r /\ 1 <= rh r /\ gray_typed roi (Z.to_nat (rh r)) (Z.to_nat (rw r)) /\
  gray_typed (resize_linear roi 500 200) 200 500.
Proof.
  assert (Hc : square_box ∈ selected (find_external (thresh_prog (map (map bgr2gray_px) square_frame))))
    by (rewrite square_frame_selected; left).
  split; [exact square_frame_typed|split; [lia|split; [lia|split; [exact Hc|]]]].
  exact (region_images_typed square_frame 40 40 square_box square_frame_typed ltac:(lia) ltac:(lia) Hc).
Defined.

(** An engine that refuses any image without 200 rows. *)
Definition ocr_rows_checked : gray -> pystr -> result pystr :=
  fun img lang => if bool_decide (length img = 200%nat) then ocr_hello img lang else ocr_fails img lang.

Lemma ocr_rows_checked_agrees (img : gray) :
  gray_typed img 200 500 -> ocr_hello img (of_ascii "chi_sim") = ocr_rows_checked img (of_ascii "chi_sim").
Proof. intros [[Hl _] _]. unfold ocr_rows_checked. by rewrite bool_decide_eq_true_2. Qed.

Lemma process_frame_ocr_inputs_witness :
  ns_ok cv2_patched /\ bgr_typed square_frame 40 40 /\ (0 < 40)%nat /\ (0 < 40)%nat /\
  (forall img, gray_typed img 200 500 ->
     ocr_hello img (of_ascii "chi_sim") = ocr_rows_checked img (of_ascii "chi_sim")) /\
  process_frame ocr_hello cv2_patched square_frame = process_frame ocr_rows_checked cv2_patched square_frame.
Proof.
  split; [exact ns_ok_patched|split; [exact square_frame_typed|split; [lia|split; [lia|split]]]].
  - exact ocr_rows_checked_agrees.
  - exact (process_frame_ocr_inputs ocr_hello ocr_rows_checked cv2_patched square_frame 40 40
             ns_ok_patched square_frame_typed ltac:(lia) ltac:(lia) ocr_rows_checked_agrees).
Defined.
