(* ===== verification/Translate.v ===== *)
(** * Translate: [detect_and_translate] (main.py lines 11-14)

    [client.translate(text, target_language='en-US')] is a network call to
    the Cloud Translation API through the module-level [client]; it is a
    parameter [client_translate] of the section, returning the response as a
    dictionary from keys to strings, or raising.  The function then reads
    [result['translatedText']], which raises [KeyError] when the key is
    missing. *)

From stdpp Require Import gmap.
From S2P Require Import Prelude PyStr.

Section Translate.
Variable client_translate : pystr -> pystr -> result (gmap string pystr).

Definition detect_and_translate (text : pystr) : result pystr :=
  let? res := client_translate text (of_ascii "en-US") in
  match res !! "translatedText"%string with
  | Some t => Ok t
  | None => Err (KeyError "translatedText")
  end.

End Translate.
