(* ===== verification/MainLoop.v ===== *)
(** * MainLoop: [main] (main.py lines 49-82)

    The display surface [game_window] is a [surface]: its width, height and
    the colour of each pixel [(x, y)].  [set_mode] creates it black.  One
    pass of [while running:] ([loop_body]) drains the event queue (a
    [QUIT] event clears [running], which is tested only at the next pass),
    copies the window with [pygame.surfarray.array3d] (an array indexed
    [[x][y]], so of shape [(width, height, 3)]), converts it to BGR, runs
    [process_frame] and [detect_and_translate], fills the window black, blits
    the rendered text centred at [(width // 2, height // 2)], flips and
    ticks the clock ([clock_tick], which sleeps out the rest of a 33 ms
    frame).  [run_loop] runs passes while [running] holds, one batch of events
    and the time the pass's work takes per pass; an exception ends [main]
    (there is no handler).  The font
    renderer and the per-pixel alpha blend of [blit] are parameters. *)

From stdpp Require Import gmap.
From S2P Require Import Prelude PyStr Image Threshold Contours Suzuki Cv2 Pipeline Translate.

Record surface := Surface { sw : Z; sh : Z; spix : Z -> Z -> px3 }.

(** A rendered text: its size and, per pixel, a colour and an alpha. *)
Record text_surface := TextSurface { tw : Z; th : Z; tpix : Z -> Z -> px3 * Z }.

Definition BLACK : px3 := (0, 0, 0).
Definition WHITE : px3 := (255, 255, 255).

(** [pygame.QUIT]. *)
Definition QUIT : Z := 256.

Record event := Event { etype : Z }.

(** [pygame.time.Clock()]: the [SDL_GetTicks()] reading, in ms, at its
    creation or at the end of its last [tick]. *)
Record clock := Clock { last_tick : Z }.

Record loop_state := LoopState {
  running : bool;
  game_window : surface;
  shown : surface;     (** what the last [pygame.display.flip()] showed *)
  ticks : nat;         (** calls of [clock.tick(30)] *)
  clk : clock
}.

(** [surface.fill(colour)]. *)
Definition fill (s : surface) (c : px3) : surface := Surface (sw s) (sh s) (fun _ _ => c).

(** [pygame.surfarray.array3d(s)]: [a[x][y]] is the pixel [(x, y)]. *)
Definition array3d (s : surface) : image3 :=
  map (fun x => map (fun y => spix s x y) (map Z.of_nat (seq 0 (Z.to_nat (sh s)))))
      (map Z.of_nat (seq 0 (Z.to_nat (sw s)))).

(** [text_surface.get_rect(center=(cx, cy))]: the top-left corner, with
    SDL's integer halving ([Rect] centre setter: [x = cx - w / 2]). *)
Definition rect_center (ts : text_surface) (cx cy : Z) : Z * Z :=
  (cx - Z.quot (tw ts) 2, cy - Z.quot (th ts) 2).

(** [clock.tick(framerate)] when [SDL_GetTicks()] reads [now]
    ([clock_tick_base] of pygame's [time.c]): the frame lasts [endtime] ms,
    [(int)((1.0f / framerate) * 1000.0f)]; the clock sleeps
    [endtime - (now - last_tick)] ms when that is positive ([SDL_Delay],
    taken as exact), records the time it wakes and returns the ms passed
    since the previous tick. *)
Definition clock_tick (c : clock) (endtime now : Z) : clock * Z :=
  let rawpassed := now - last_tick c in
  let delay := Z.max 0 (endtime - rawpassed) in
  let nowtime := now + delay in
  (Clock nowtime, nowtime - last_tick c).

(** [endtime] for [clock.tick(30)]: the float [1.0f / 30 * 1000.0f] is
    [33.333336], truncated to [33]. *)
Definition frame_ms : Z := 1000 / 30.

(** The event loop of lines 59-61. *)
Definition handle_events (running : bool) (events : list event) : bool :=
  fold_left (fun r e => if decide (etype e = QUIT) then false else r) events running.

Definition has_quit (events : list event) : bool :=
  existsb (fun e => bool_decide (etype e = QUIT)) events.

Definition width : Z := 1920.
Definition height : Z := 1080.

(** [pygame.display.set_mode((width, height))]: a black window. *)
Definition init_state : loop_state :=
  let w := Surface width height (fun _ _ => BLACK) in
  LoopState true w w 0 (Clock 0).

(** How [main] ends after the given batches of events. *)
Inductive outcome :=
| Exited (st : loop_state)          (** [running] became false: [pygame.quit()] *)
| Raised (e : exn) (st : loop_state)  (** an exception left [main] *)
| Pending (st : loop_state).        (** still running when the batches end *)

Section MainLoop.
Context `{ContourFinder} `{Resizer}.
Variable image_to_string : gray -> pystr -> result pystr.
Variable client_translate : pystr -> pystr -> result (gmap string pystr).
(** [pygame.font.SysFont(name, size)] and [font.render(text, antialias,
    colour)]: the font library. *)
Context {font : Type}.
Variable sys_font : string -> Z -> font.
Variable font_render : font -> pystr -> bool -> px3 -> text_surface.
(** How [blit] mixes a source pixel with its alpha into a destination pixel. *)
Variable blend : px3 * Z -> px3 -> px3.
(** The [cv2] module the program runs against. *)
Variable ns : gmap string Z.

(** [dst.blit(src, (x, y))], clipped to the destination. *)
Definition blit (dst : surface) (src : text_surface) (x y : Z) : surface :=
  Surface (sw dst) (sh dst) (fun px py =>
    if bool_decide (x <= px < x + tw src /\ y <= py < y + th src /\
                    0 <= px < sw dst /\ 0 <= py < sh dst)
    then blend (tpix src (px - x) (py - y)) (spix dst px py)
    else spix dst px py).

(** One pass of the loop body (lines 59-80); its work, up to the call of
    [clock.tick(30)], takes [work] ms. *)
Definition loop_body (st : loop_state) (events : list event) (work : Z) : result loop_state :=
  let running' := handle_events (running st) events in
  let? code := getattr ns "COLOR_RGB2BGR" in
  let? screen := cvtColor_bgr (array3d (game_window st)) code in
  let? text := process_frame image_to_string ns screen in
  let? translated_text := detect_and_translate client_translate text in
  let w1 := fill (game_window st) BLACK in
  let font := sys_font "arial" 24 in
  let text_surface := font_render font translated_text true WHITE in
  let '(x, y) := rect_center text_surface (width / 2) (height / 2) in
  let w2 := blit w1 text_surface x y in
  let '(clock', _) := clock_tick (clk st) frame_ms (last_tick (clk st) + work) in
  Ok (LoopState running' w2 w2 (S (ticks st)) clock').

(** [while running: ...], one batch of events and one work time per pass. *)
Fixpoint run_loop (st : loop_state) (batches : list (list event * Z)) : outcome :=
  if running st then
    match batches with
    | [] => Pending st
    | (events, work) :: rest =>
        match loop_body st events work with
        | Ok st' => run_loop st' rest
        | Err e => Raised e st
        end
    end
  else Exited st.

Definition main (batches : list (list event * Z)) : outcome := run_loop init_state batches.

(** [if __name__ == "__main__": main()] (lines 84-85): run as a script the
    module calls [main]; imported under another name it defines the
    functions and runs nothing ([None]). *)
Definition run_module (module_name : string) (batches : list (list event * Z)) : option outcome :=
  if bool_decide (module_name = "__main__") then Some (main batches) else None.
End MainLoop.

(** Two surfaces are equivalent when they have the same size and the same
    pixels: all that [array3d] and the display observe. *)
#[export] Instance surface_equiv : Equiv surface := fun a b =>
  sw a = sw b /\ sh a = sh b /\ forall x y, spix a x y = spix b x y.

(** ** Lemmas *)

Lemma length_seqZ (n : nat) : length (map Z.of_nat (seq 0 n)) = n.
Proof. by rewrite length_map, length_seq. Qed.

(** [array3d] has one row per column [x] of the surface. *)
Lemma array3d_shape (s : surface) :
  has_shape (array3d s) (Z.to_nat (sw s)) (Z.to_nat (sh s)).
Proof.
  unfold array3d. split; [by rewrite length_map, length_seqZ|].
  apply Forall_forall. intros row Hrow. apply list_elem_of_In, in_map_iff in Hrow as (x & <- & _).
  by rewrite length_map, length_seqZ.
Qed.

Lemma array3d_not_empty (s : surface) : 0 < sw s -> 0 < sh s -> mat_empty (array3d s) = false.
Proof. intros Hw Hh. apply (mat_empty_false _ _ _ (array3d_shape s)); lia. Qed.

(** The captured frame of a window of positive size is not empty. *)
Lemma capture_not_empty (s : surface) :
  0 < sw s -> 0 < sh s -> mat_empty (map (map rgb2bgr_px) (array3d s)) = false.
Proof. intros Hw Hh. apply (mat_empty_false _ _ _ (map_map_shape _ _ _ _ (array3d_shape s))); lia. Qed.

Lemma array3d_lookup (s : surface) (i j : nat) :
  (i < Z.to_nat (sw s))%nat -> (j < Z.to_nat (sh s))%nat ->
  (array3d s !! i) ≫= (fun row => row !! j) = Some (spix s (Z.of_nat i) (Z.of_nat j)).
Proof.
  intros Hi Hj. unfold array3d. rewrite lookup_map, lookup_map, lookup_seq_lt by done. simpl.
  by rewrite lookup_map, lookup_map, lookup_seq_lt by done.
Qed.

(** Draining the queue clears [running] exactly when a [QUIT] is in it. *)
Lemma handle_events_spec (r : bool) (events : list event) :
  handle_events r events = r && negb (has_quit events).
Proof.
  unfold handle_events. revert r. induction events as [|e t IH]; intros r; simpl.
  - by rewrite andb_true_r.
  - rewrite IH. case_decide; case_bool_decide; simpl; try done; by destruct r.
Qed.

#[export] Instance surface_equivalence : Equivalence (≡@{surface}).
Proof.
  split.
  - intros a. by repeat split.
  - intros a b (Hw & Hh & Hp). repeat split; auto.
  - intros a b c (Hw & Hh & Hp) (Hw' & Hh' & Hp'). repeat split; [congruence|congruence|].
    intros x y. by rewrite Hp, Hp'.
Qed.

#[export] Instance array3d_proper : Proper ((≡) ==> (=)) array3d.
Proof.
  intros a b (Hw & Hh & Hp). unfold array3d. rewrite Hw, Hh.
  apply map_ext. intros x. apply map_ext. intros y. apply Hp.
Qed.

#[export] Instance fill_proper : Proper ((≡) ==> (=) ==> (≡)) fill.
Proof. intros a b (Hw & Hh & _) c ? <-. repeat split; simpl; auto. Qed.

#[export] Instance blit_proper blend : Proper ((≡) ==> (=) ==> (=) ==> (=) ==> (≡)) (blit blend).
Proof.
  intros a b (Hw & Hh & Hp) ts ? <- x ? <- y ? <-. unfold blit.
  repeat split; simpl; auto. intros px py. by rewrite Hw, Hh, Hp.
Qed.

Section MainLoopFacts.
Context `{ContourFinder} `{Resizer}.
Variable image_to_string : gray -> pystr -> result pystr.
Variable client_translate : pystr -> pystr -> result (gmap string pystr).
Context {font : Type}.
Variable sys_font : string -> Z -> font.
Variable font_render : font -> pystr -> bool -> px3 -> text_surface.
Variable blend : px3 * Z -> px3 -> px3.

(** The window one pass draws for a translated text. *)
Definition render_frame (w : surface) (translated : pystr) : surface :=
  let ts := font_render (sys_font "arial" 24) translated true WHITE in
  let '(x, y) := rect_center ts (width / 2) (height / 2) in
  blit blend (fill w BLACK) ts x y.

(** The clock a pass leaves, when its work took [work] ms. *)
Definition next_clock (c : clock) (work : Z) : clock := (clock_tick c frame_ms (last_tick c + work)).1.

Lemma loop_body_unfold ns st events work :
  ns !! "COLOR_RGB2BGR"%string = Some COLOR_RGB2BGR ->
  0 < sw (game_window st) -> 0 < sh (game_window st) ->
  loop_body image_to_string client_translate sys_font font_render blend ns st events work =
  let? text := process_frame image_to_string ns (map (map rgb2bgr_px) (array3d (game_window st))) in
  let? tr := detect_and_translate client_translate text in
  Ok (LoopState (handle_events (running st) events) (render_frame (game_window st) tr)
                (render_frame (game_window st) tr) (S (ticks st)) (next_clock (clk st) work)).
Proof.
  intros Hns Hw Hh. unfold loop_body. rewrite (getattr_ok _ _ _ Hns). cbn [bind].
  rewrite cvtColor_bgr_ok; [cbn [bind]|].
  - destruct (process_frame _ _ _); cbn [bind]; [|done].
    destruct (detect_and_translate _ _); cbn [bind]; [|done].
    unfold render_frame, next_clock. by destruct (rect_center _ _ _), (clock_tick _ _ _).
  - by apply array3d_not_empty.
Qed.

Lemma main_first_pass_raises (events : list event) (work : Z) (rest : list (list event * Z)) :
  main image_to_string client_translate sys_font font_render blend cv2_module ((events, work) :: rest) =
  Raised (AttributeError "cv2" "CHAIN_APPROLOGY_SIMPLE") init_state.
Proof.
  unfold main. cbn [run_loop running init_state].
  rewrite loop_body_unfold by (vm_compute; reflexivity).
  rewrite process_frame_misspelt, capture_not_empty by (vm_compute; reflexivity). reflexivity.
Qed.

(** C2. With the installed [cv2] module the program cannot run a single
    pass: whatever events the first pass drains (a [QUIT] included),
    [process_frame] raises [AttributeError] on its first frame, [main]
    ends with that exception, and the translation client is never called. *)
Theorem main_raises_attribute_error (events : list event) (work : Z) (rest : list (list event * Z)) :
  main image_to_string client_translate sys_font font_render blend cv2_module ((events, work) :: rest) =
  Raised (AttributeError "cv2" "CHAIN_APPROLOGY_SIMPLE") init_state.
Proof. apply main_first_pass_raises. Qed.

Lemma run_module_outcome_core (module_name : string) (batches : list (list event * Z)) :
  match run_module image_to_string client_translate sys_font font_render blend cv2_module
          module_name batches with
  | None => module_name <> "__main__"
  | Some o => module_name = "__main__" /\
      (batches = [] /\ o = Pending init_state \/
       o = Raised (AttributeError "cv2" "CHAIN_APPROLOGY_SIMPLE") init_state)
  end.
Proof.
  unfold run_module. case_bool_decide as Hn; [split; [done|]|done].
  destruct batches as [|[events work] rest]; [by left|right].
  apply main_first_pass_raises.
Qed.

(** C3. Run as [python main.py], the program never completes a pass of its
    loop: with no event batch at all it is still waiting in its first pass
    in the initial state, and otherwise it ends with the [AttributeError] of
    [process_frame], in the initial state, never with [pygame.quit()];
    imported under any other name it runs nothing. *)
Theorem run_module_outcome (module_name : string) (batches : list (list event * Z)) :
  match run_module image_to_string client_translate sys_font font_render blend cv2_module
          module_name batches with
  | None => module_name <> "__main__"
  | Some o => module_name = "__main__" /\
      (batches = [] /\ o = Pending init_state \/
       o = Raised (AttributeError "cv2" "CHAIN_APPROLOGY_SIMPLE") init_state)
  end.
Proof. apply run_module_outcome_core. Qed.

(** What a successful pass does to the state. *)
Lemma loop_body_Ok ns st events work st' :
  loop_body image_to_string client_translate sys_font font_render blend ns st events work = Ok st' ->
  exists tr, running st' = handle_events (running st) events /\
    game_window st' = render_frame (game_window st) tr /\
    shown st' = game_window st' /\ ticks st' = S (ticks st) /\ clk st' = next_clock (clk st) work.
Proof.
  unfold loop_body. intros Hb. inv_ok.
  match goal with Ht : detect_and_translate _ _ = Ok ?t |- _ => exists t end.
  unfold render_frame, next_clock. destruct (rect_center _ _ _) as [cx cy].
  destruct (clock_tick _ _ _) as [c' tp]. injection Hb as <-.
  repeat split.
Qed.

(** The states [main] can reach, pass by pass; a pass's work takes a
    non-negative time. *)
Inductive reachable (ns : gmap string Z) : loop_state -> Prop :=
| reach_init : reachable ns init_state
| reach_pass st events work st' :
    reachable ns st -> running st = true -> 0 <= work ->
    loop_body image_to_string client_translate sys_font font_render blend ns st events work = Ok st' ->
    reachable ns st'.

Lemma render_frame_dims w tr : sw (render_frame w tr) = sw w /\ sh (render_frame w tr) = sh w.
Proof. unfold render_frame. by destruct (rect_center _ _ _). Qed.

(** Every state [main] reaches keeps a 1920x1080 window and shows on the
    display what it drew in the window. *)
Lemma reachable_dims ns st :
  reachable ns st ->
  sw (game_window st) = width /\ sh (game_window st) = height /\ shown st = game_window st.
Proof.
  induction 1 as [|st events work st' _ IH _ _ Hpass]; [done|].
  destruct (loop_body_Ok _ _ _ _ _ Hpass) as (tr & _ & Hw & Hs & _).
  rewrite Hs, Hw. destruct (render_frame_dims (game_window st) tr). naive_solver.
Qed.

(** C27. Every state [main] reaches keeps a 1920x1080 window and shows on
    the display what it drew in the window. *)
Theorem reachable_window ns st :
  reachable ns st ->
  sw (game_window st) = width /\ sh (game_window st) = height /\ shown st = game_window st.
Proof. apply reachable_dims. Qed.

(** C23. The frame a pass hands to [process_frame] is the program's own
    window read by [array3d]: it has one row per column [x] (1920 rows of
    1080 pixels, the transpose of the screen's 1080x1920), and its entry
    [[x][y]] is the window's pixel [(x, y)] in BGR order. *)
Theorem captured_frame_transposed ns st :
  reachable ns st ->
  let frame := map (map rgb2bgr_px) (array3d (game_window st)) in
  has_shape frame 1920 1080 /\
  forall x y, (x < 1920)%nat -> (y < 1080)%nat ->
    (frame !! x) ≫= (fun row => row !! y) =
    Some (rgb2bgr_px (spix (game_window st) (Z.of_nat x) (Z.of_nat y))).
Proof.
  intros Hr frame. destruct (reachable_dims ns st Hr) as (Hw & Hh & _).
  pose proof (array3d_shape (game_window st)) as Hs. rewrite Hw, Hh in Hs.
  split; [apply map_map_shape, Hs|]. intros x y Hx Hy. unfold frame.
  rewrite lookup_map. destruct (array3d (game_window st) !! x) as [row|] eqn:Hrow.
  - simpl. rewrite lookup_map.
    pose proof (array3d_lookup (game_window st) x y ltac:(rewrite Hw; unfold width; lia)
                  ltac:(rewrite Hh; unfold height; lia)) as Hl.
    rewrite Hrow in Hl. simpl in Hl. by rewrite Hl.
  - exfalso. apply lookup_ge_None in Hrow. destruct Hs as [Hlen _].
    change (Z.to_nat width) with 1920%nat in Hlen. lia.
Qed.

(** A pass that drains a [QUIT] still runs to its end, then [running] is
    false. *)
Lemma loop_body_quit ns st events work st' :
  loop_body image_to_string client_translate sys_font font_render blend ns st events work = Ok st' ->
  has_quit events = true -> running st' = false.
Proof.
  intros Hb Hq. destruct (loop_body_Ok _ _ _ _ _ Hb) as (tr & -> & _).
  by rewrite handle_events_spec, Hq, andb_false_r.
Qed.

(** C25. The loop stops at the first batch of events that holds a [QUIT]:
    [main] then has exited (after running that whole pass) or raised, and is
    never still running, whatever the batches after it. *)
Theorem run_loop_stops_at_quit ns st pre events work rest :
  has_quit events = true ->
  match run_loop image_to_string client_translate sys_font font_render blend ns st
          (pre ++ (events, work) :: rest) with
  | Pending _ => False
  | _ => True
  end.
Proof.
  intros Hq. revert st. induction pre as [|[b wb] pre IH]; intros st; simpl.
  - destruct (running st); [|done].
    destruct (loop_body _ _ _ _ _ _ st events work) as [st'|e] eqn:Hb; [|done].
    pose proof (loop_body_quit _ _ _ _ _ Hb Hq) as Hr. destruct rest; simpl; by rewrite Hr.
  - destruct (running st); [|done].
    destruct (loop_body _ _ _ _ _ _ st b wb) as [st'|e]; [apply IH|done].
Qed.

Lemma array3d_const (s : surface) (c : px3) :
  (forall x y, spix s x y = c) -> all_px (fun p => p = c) (array3d s).
Proof.
  intros Hc. apply Forall_forall. intros row Hrow.
  apply list_elem_of_In, in_map_iff in Hrow as (x & <- & _).
  apply Forall_forall. intros p Hp. apply list_elem_of_In, in_map_iff in Hp as (y & <- & _).
  apply Hc.
Qed.

(** The first pass reads the program's own freshly created, black
    window, not the game: under a namespace where the constants resolve,
    [process_frame] returns the empty text, the client is asked to
    translate [""], and the window is redrawn with that translation. *)
Lemma first_pass_blank_core ns events work :
  ns_ok ns -> ns !! "COLOR_RGB2BGR"%string = Some COLOR_RGB2BGR ->
  loop_body image_to_string client_translate sys_font font_render blend ns init_state events work =
  let? tr := detect_and_translate client_translate [] in
  Ok (LoopState (negb (has_quit events)) (render_frame (game_window init_state) tr)
                (render_frame (game_window init_state) tr) 1 (next_clock (clk init_state) work)).
Proof.
  intros Hns Hrgb. rewrite loop_body_unfold by (done || (simpl; lia)).
  rewrite (process_frame_uniform image_to_string ns _ 1920 1080 0 0 0 Hns).
  - cbn [bind]. rewrite handle_events_spec. reflexivity.
  - apply map_map_shape, array3d_shape.
  - lia.
  - lia.
  - apply (all_px_map (fun p => p = BLACK)); [by intros ? ->|]. by apply array3d_const.
  - unfold u8; lia.
  - unfold u8; lia.
  - unfold u8; lia.
Qed.

(** C21. The first pass reads the program's own freshly created, black
    window, not the game: under a namespace where the constants resolve (a
    [cv2] in which [CHAIN_APPROLOGY_SIMPLE] exists and [COLOR_RGB2BGR] is
    read; the installed [cv2] has no such name and the pass raises
    [AttributeError] instead, see C2),
    [process_frame] returns the empty text, the client is asked to
    translate [""], and the window is redrawn with that translation. *)
Theorem first_pass_blank ns events work :
  ns_ok ns -> ns !! "COLOR_RGB2BGR"%string = Some COLOR_RGB2BGR ->
  loop_body image_to_string client_translate sys_font font_render blend ns init_state events work =
  let? tr := detect_and_translate client_translate [] in
  Ok (LoopState (negb (has_quit events)) (render_frame (game_window init_state) tr)
                (render_frame (game_window init_state) tr) 1 (next_clock (clk init_state) work)).
Proof. apply first_pass_blank_core. Qed.

(** C13. A failed translation call ends the program: under a namespace
    where the constants resolve, when the client raises on the blank
    window's text [""], [main] ends with that exception on its first pass,
    before drawing anything. *)
Theorem main_translation_error ns events work rest e :
  ns_ok ns -> ns !! "COLOR_RGB2BGR"%string = Some COLOR_RGB2BGR ->
  client_translate [] (of_ascii "en-US") = Err e ->
  main image_to_string client_translate sys_font font_render blend ns ((events, work) :: rest) =
  Raised e init_state.
Proof.
  intros Hns Hrgb He. unfold main. cbn [run_loop].
  rewrite first_pass_blank_core by done. unfold detect_and_translate. rewrite He. reflexivity.
Qed.

(** A pass redraws the whole window: what the window shows after a
    pass depends only on the translated text and the window's size. *)
Lemma render_replaces_window_core (w w' : surface) (tr : pystr) :
  sw w = sw w' -> sh w = sh w' -> render_frame w tr ≡ render_frame w' tr.
Proof.
  intros Hw Hh. unfold render_frame. destruct (rect_center _ _ _) as [cx cy].
  apply blit_proper; [|done..]. repeat split; simpl; auto.
Qed.

(** C26. A pass redraws the whole window: what the window shows after a
    pass depends only on the translated text and the window's size, never
    on what it showed before (the previous rendering, or the game). *)
Theorem render_replaces_window (w w' : surface) (tr : pystr) :
  sw w = sw w' -> sh w = sh w' -> render_frame w tr ≡ render_frame w' tr.
Proof. apply render_replaces_window_core. Qed.

(** The window of a state reached after at least one pass is the
    rendering of some translation onto the initial window. *)
Lemma reachable_rendered ns st :
  reachable ns st -> (0 < ticks st)%nat ->
  exists tr, game_window st ≡ render_frame (game_window init_state) tr.
Proof.
  intros Hr Ht. destruct Hr as [|st events work st' Hr _ _ Hpass]; [simpl in Ht; lia|].
  destruct (loop_body_Ok _ _ _ _ _ Hpass) as (tr & _ & Hw & _). exists tr. rewrite Hw.
  destruct (reachable_dims ns st Hr) as (Hsw & Hsh & _).
  apply render_replaces_window_core; [by rewrite Hsw|by rewrite Hsh].
Qed.

(** C22. After its first pass the program only ever captures its own
    output: the array [array3d] reads from the window is the capture of
    the previous pass's translation rendered on a black 1920x1080 window,
    whatever the game shows. *)
Theorem capture_reads_own_rendering ns st :
  reachable ns st -> (0 < ticks st)%nat ->
  exists tr, array3d (game_window st) = array3d (render_frame (game_window init_state) tr).
Proof.
  intros Hr Ht. destruct (reachable_rendered ns st Hr Ht) as [tr Heq]. exists tr. by rewrite Heq.
Qed.

(** A pass whose work takes [work >= 0] ms lasts [max 33 work] ms, from
    the end of one [tick] to the end of the next. *)
Lemma clock_tick_period (c : clock) (work : Z) :
  0 <= work ->
  clock_tick c frame_ms (last_tick c + work) =
  (Clock (last_tick c + Z.max frame_ms work), Z.max frame_ms work).
Proof. intros Hw. unfold clock_tick. cbn. f_equal; [f_equal|]; lia. Qed.

Lemma last_tick_next_clock (c : clock) (work : Z) :
  0 <= work -> last_tick (next_clock c work) = last_tick c + Z.max frame_ms work.
Proof. intros Hw. unfold next_clock. by rewrite clock_tick_period. Qed.

(** The state a run of the loop ends in. *)
Definition outcome_state (o : outcome) : loop_state :=
  match o with Exited st | Raised _ st | Pending st => st end.

(** C28. The loop's cadence: when the loop stops after [n] passes (at a
    [QUIT], an exception or the end of the input), the clock has advanced
    by the sum over those passes of [max 33 work]: a pass lasts at least 33
    ms ([clock.tick(30)] caps the loop at 1000/33 passes per second), and
    exactly as long as its work when that takes longer. *)
Theorem run_loop_cadence ns st batches :
  Forall (fun b => 0 <= b.2) batches ->
  let st' := outcome_state (run_loop image_to_string client_translate sys_font font_render blend ns st batches) in
  exists n, (n <= length batches)%nat /\ ticks st' = (ticks st + n)%nat /\
    last_tick (clk st') =
    last_tick (clk st) + foldr Z.add 0 (map (fun b => Z.max frame_ms b.2) (take n batches)).
Proof.
  revert st. induction batches as [|[events work] rest IH]; intros st Hw; simpl.
  { exists 0%nat. destruct (running st); simpl; repeat split; lia. }
  apply Forall_cons in Hw as [Hw0 Hw]. simpl in Hw0.
  destruct (running st); [|exists 0%nat; simpl; repeat split; lia].
  destruct (loop_body _ _ _ _ _ _ st events work) as [st1|e] eqn:Hb;
    [|exists 0%nat; simpl; repeat split; lia].
  destruct (loop_body_Ok _ _ _ _ _ Hb) as (tr & _ & _ & _ & Ht & Hc).
  destruct (IH st1 Hw) as (n & Hn & Htk & Hlt). exists (S n). simpl.
  rewrite Htk, Hlt, Ht, Hc, last_tick_next_clock by done. repeat split; lia.
Qed.
End MainLoopFacts.

(** ** Witnesses *)

Definition client_echo : pystr -> pystr -> result (gmap string pystr) :=
  fun t _ => Ok {["translatedText" := t]}.
Definition font_unit : string -> Z -> unit := fun _ _ => tt.
Definition render_box : unit -> pystr -> bool -> px3 -> text_surface :=
  fun _ _ _ c => TextSurface 2 1 (fun _ _ => (c, 255)).
Definition blend_opaque : px3 * Z -> px3 -> px3 := fun sa _ => sa.1.
Definition client_down : pystr -> pystr -> result (gmap string pystr) :=
  fun _ _ => Err (LibError "google.cloud.translate").

Lemma main_translation_error_witness :
  ns_ok cv2_patched /\ cv2_patched !! "COLOR_RGB2BGR"%string = Some COLOR_RGB2BGR /\
  client_down [] (of_ascii "en-US") = Err (LibError "google.cloud.translate") /\
  main ocr_hello client_down font_unit render_box blend_opaque cv2_patched [([], 5)] =
  Raised (LibError "google.cloud.translate") init_state.
Proof.
  assert (Hrgb : cv2_patched !! "COLOR_RGB2BGR"%string = Some COLOR_RGB2BGR) by (vm_compute; reflexivity).
  split; [exact ns_ok_patched|split; [exact Hrgb|split; [reflexivity|]]].
  exact (main_translation_error ocr_hello client_down font_unit render_box blend_opaque
           cv2_patched [] 5 [] _ ns_ok_patched Hrgb eq_refl).
Defined.

Lemma reachable_window_witness :
  sw (game_window init_state) = width /\ sh (game_window init_state) = height /\
  shown init_state = game_window init_state.
Proof.
  apply (reachable_window ocr_hello client_echo font_unit render_box blend_opaque cv2_patched init_state).
  constructor.
Defined.

Lemma captured_frame_transposed_witness :
  let frame := map (map rgb2bgr_px) (array3d (game_window init_state)) in
  has_shape frame 1920 1080 /\
  forall x y, (x < 1920)%nat -> (y < 1080)%nat ->
    (frame !! x) ≫= (fun row => row !! y) =
    Some (rgb2bgr_px (spix (game_window init_state) (Z.of_nat x) (Z.of_nat y))).
Proof.
  apply (captured_frame_transposed ocr_hello client_echo font_unit render_box blend_opaque cv2_patched init_state).
  constructor.
Defined.

Lemma run_loop_stops_at_quit_witness :
  match run_loop ocr_hello client_echo font_unit render_box blend_opaque cv2_patched init_state
          ([] ++ ([Event QUIT], 5) :: []) with
  | Pending _ => False
  | _ => True
  end.
Proof. apply run_loop_stops_at_quit. reflexivity. Defined.

Lemma first_pass_blank_witness :
  loop_body ocr_hello client_echo font_unit render_box blend_opaque cv2_patched init_state [Event QUIT] 5 =
  let? tr := detect_and_translate client_echo [] in
  Ok (LoopState (negb (has_quit [Event QUIT])) (render_frame font_unit render_box blend_opaque (game_window init_state) tr)
                (render_frame font_unit render_box blend_opaque (game_window init_state) tr) 1
                (next_clock (clk init_state) 5)).
Proof. apply first_pass_blank; [exact ns_ok_patched | vm_compute; reflexivity]. Defined.

Lemma run_loop_cadence_witness :
  Forall (fun b : list event * Z => 0 <= b.2) [([Event QUIT], 40)] /\
  let st' := outcome_state (run_loop ocr_hello client_echo font_unit render_box blend_opaque cv2_module
                              init_state [([Event QUIT], 40)]) in
  exists n, (n <= length [([Event QUIT], 40)])%nat /\ ticks st' = (ticks init_state + n)%nat /\
    last_tick (clk st') =
    last_tick (clk init_state) +
    foldr Z.add 0 (map (fun b : list event * Z => Z.max frame_ms b.2) (take n [([Event QUIT], 40)])).
Proof.
  assert (Hw : Forall (fun b : list event * Z => 0 <= b.2) [([Event QUIT], 40)])
    by (repeat constructor; simpl; lia).
  split; [exact Hw|]. exact (run_loop_cadence ocr_hello client_echo font_unit render_box blend_opaque
                               cv2_module init_state _ Hw).
Defined.

Lemma render_replaces_window_witness :
  sw (Surface 4 3 (fun x y => (x, y, 7))) = sw (Surface 4 3 (fun _ _ => BLACK)) /\
  sh (Surface 4 3 (fun x y => (x, y, 7))) = sh (Surface 4 3 (fun _ _ => BLACK)) /\
  render_frame font_unit render_box blend_opaque (Surface 4 3 (fun x y => (x, y, 7))) [] ≡
  render_frame font_unit render_box blend_opaque (Surface 4 3 (fun _ _ => BLACK)) [].
Proof.
  split; [reflexivity|split; [reflexivity|]].
  apply (render_replaces_window font_unit render_box blend_opaque); reflexivity.
Defined.

Lemma capture_reads_own_rendering_witness :
  reachable ocr_hello client_echo font_unit render_box blend_opaque cv2_patched
    (LoopState true (render_frame font_unit render_box blend_opaque (game_window init_state) [])
               (render_frame font_unit render_box blend_opaque (game_window init_state) []) 1
               (next_clock (clk init_state) 5)) /\
  (0 < 1)%nat /\
  exists tr,
    array3d (render_frame font_unit render_box blend_opaque (game_window init_state) []) =
    array3d (render_frame font_unit render_box blend_opaque (game_window init_state) tr).
Proof.
  assert (Hr : reachable ocr_hello client_echo font_unit render_box blend_opaque cv2_patched
    (LoopState true (render_frame font_unit render_box blend_opaque (game_window init_state) [])
               (render_frame font_unit render_box blend_opaque (game_window init_state) []) 1
               (next_clock (clk init_state) 5))).
  { eapply (reach_pass _ _ _ _ _ _ init_state [] 5); [constructor|reflexivity|lia|].
    rewrite first_pass_blank_core; [reflexivity|exact ns_ok_patched|vm_compute; reflexivity]. }
  split; [exact Hr|split; [lia|]].
  exact (capture_reads_own_rendering ocr_hello client_echo font_unit render_box blend_opaque
           cv2_patched _ Hr ltac:(simpl; lia)).
Defined.
