(* ===== verification/Script.v ===== *)
(** * Script: the module body of [src/main.py] and one run of the script

    Python runs [main.py] top to bottom.  The module body is a list of
    statements ([stmt]) executed in order on the module's globals
    ([globals], a map from names to values): the six imports of lines 1-6,
    [client = translate.Client()] (line 9), the three [def] statements
    (lines 11, 16, 49) and the guard of lines 84-85 ([MainLoop.run_module]).
    An import loads every package of its dotted name in turn, from the
    outermost, and raises [ModuleNotFoundError] at the first one that is not
    installed; [from p import n] raises [ImportError] when [p] provides no
    [n].  The first exception ends the module body: nothing after it runs.
    [run_script] is a run of [python main.py] (or an import of [main] under
    another name): the module body, then the guard.  The client constructor
    [translate.Client()] and the client's [translate] method are parameters. *)

From stdpp Require Import gmap.
From S2P Require Import Prelude PyStr Image Threshold Contours Suzuki Cv2 Pipeline Translate MainLoop.

(** A dotted module name: [google.cloud] is [["google"; "cloud"]]. *)
Definition modname := list string.

Definition dotted (m : modname) : string := String.concat "." m.

(** The statements of the module body. *)
Inductive stmt :=
| Import (m : modname) (asname : string)             (** [import m as asname] *)
| ImportFrom (pkg : modname) (name asname : string)  (** [from pkg import name as asname] *)
| AssignClient (target : string)                     (** [target = translate.Client()] *)
| Def (name : string).                               (** [def name(...): ...] *)

(** Lines 1-11, 16 and 49 of [main.py]. *)
Definition body : list stmt := [
  Import ["cv2"] "cv2";
  Import ["pytesseract"] "pytesseract";
  ImportFrom ["PIL"] "Image" "Image";
  Import ["pygame"] "pygame";
  ImportFrom ["google"; "cloud"] "translate_v2" "translate";
  Import ["numpy"] "np";
  AssignClient "client";
  Def "detect_and_translate";
  Def "process_frame";
  Def "main"].

(** The values the globals hold: modules, the client object, functions. *)
Inductive pyval (C : Type) :=
| ModuleV (m : modname)
| ClientV (c : C)
| FunctionV (name : string).
Arguments ModuleV {C} m.
Arguments ClientV {C} c.
Arguments FunctionV {C} name.

Definition globals (C : Type) := gmap string (pyval C).

Section Script.
Context `{ContourFinder} `{Resizer}.
Variable image_to_string : gray -> pystr -> result pystr.
Context {font : Type}.
Variable sys_font : string -> Z -> font.
Variable font_render : font -> pystr -> bool -> px3 -> text_surface.
Variable blend : px3 * Z -> px3 -> px3.
(** The Cloud Translation client: the constructor [translate.Client()],
    which reads the credentials and may raise, and the method
    [client.translate]. *)
Context {client : Type}.
Variable make_client : result client.
Variable client_translate : client -> pystr -> pystr -> result (gmap string pystr).
(** The installed modules, by dotted name. *)
Variable installed : gset modname.

(** [import a.b.c] loads [a], then [a.b], then [a.b.c]. *)
Fixpoint import_chain (loaded : modname) (rest : list string) : result unit :=
  match rest with
  | [] => Ok tt
  | p :: rest' =>
      let m := loaded ++ [p] in
      if decide (m ∈ installed) then import_chain m rest'
      else Err (ModuleNotFoundError (dotted m))
  end.

Definition import_module (m : modname) : result unit := import_chain [] m.

(** One statement of the module body. *)
Definition exec_stmt (g : globals client) (s : stmt) : result (globals client) :=
  match s with
  | Import m a =>
      let? _ := import_module m in
      Ok (<[a := ModuleV m]> g)
  | ImportFrom p n a =>
      let? _ := import_module p in
      if decide (p ++ [n] ∈ installed) then Ok (<[a := ModuleV (p ++ [n])]> g)
      else Err (ImportError n (dotted p))
  | AssignClient t =>
      match g !! "translate"%string with
      | Some _ => let? c := make_client in Ok (<[t := ClientV c]> g)
      | None => Err (NameError "translate")
      end
  | Def f => Ok (<[f := FunctionV f]> g)
  end.

(** The statements in order; the first exception ends the body. *)
Fixpoint exec_stmts (g : globals client) (ss : list stmt) : result (globals client) :=
  match ss with
  | [] => Ok g
  | s :: ss' => let? g' := exec_stmt g s in exec_stmts g' ss'
  end.

(** [detect_and_translate] reads the global [client] when it is called. *)
Definition global_client (g : globals client) : pystr -> pystr -> result (gmap string pystr) :=
  match g !! "client"%string with
  | Some (ClientV c) => client_translate c
  | _ => fun _ _ => Err (NameError "client")
  end.

(** [python main.py] when [module_name] is ["__main__"], [import main]
    otherwise: the module body, then the guard of lines 84-85.  [Err] is
    an exception of the module body; [Ok None] an import that runs
    nothing; [Ok (Some o)] a run of [main] that ends as [o]. *)
Definition run_script (module_name : string) (batches : list (list event * Z))
    : result (option outcome) :=
  let? g := exec_stmts ∅ body in
  Ok (run_module image_to_string (global_client g) sys_font font_render blend cv2_module
        module_name batches).

(** ** What the module body requires

    The modules and names the imports need, in the order Python checks
    them, each with the exception raised when it is missing. *)
Fixpoint chain_reqs (loaded : modname) (rest : list string) : list (modname * exn) :=
  match rest with
  | [] => []
  | p :: rest' =>
      (loaded ++ [p], ModuleNotFoundError (dotted (loaded ++ [p]))) :: chain_reqs (loaded ++ [p]) rest'
  end.

Definition stmt_reqs (s : stmt) : list (modname * exn) :=
  match s with
  | Import m _ => chain_reqs [] m
  | ImportFrom p n _ => chain_reqs [] p ++ [(p ++ [n], ImportError n (dotted p))]
  | _ => []
  end.

Definition body_reqs : list (modname * exn) := concat (map stmt_reqs body).

(** The first requirement that is not installed raises its exception. *)
Fixpoint first_missing (reqs : list (modname * exn)) : result unit :=
  match reqs with
  | [] => Ok tt
  | (m, e) :: reqs' => if decide (m ∈ installed) then first_missing reqs' else Err e
  end.

(** The globals after a successful module body. *)
Definition body_globals (c : client) : globals client :=
  <["main" := FunctionV "main"]> (<["process_frame" := FunctionV "process_frame"]>
  (<["detect_and_translate" := FunctionV "detect_and_translate"]> (<["client" := ClientV c]>
  (<["np" := ModuleV ["numpy"]]> (<["translate" := ModuleV ["google"; "cloud"; "translate_v2"]]>
  (<["pygame" := ModuleV ["pygame"]]> (<["Image" := ModuleV ["PIL"; "Image"]]>
  (<["pytesseract" := ModuleV ["pytesseract"]]> (<["cv2" := ModuleV ["cv2"]]> ∅))))))))).

Lemma import_chain_reqs (loaded : modname) (rest : list string) :
  import_chain loaded rest = first_missing (chain_reqs loaded rest).
Proof.
  revert loaded. induction rest as [|p rest IH]; intros loaded; [done|]. cbn.
  destruct (decide (loaded ++ [p] ∈ installed)) as [Hm|Hm];
    [rewrite decide_True by done; apply IH|by rewrite decide_False].
Qed.

Lemma first_missing_app (l1 l2 : list (modname * exn)) :
  first_missing (l1 ++ l2) = let? _ := first_missing l1 in first_missing l2.
Proof. induction l1 as [|[m e] l1 IH]; [done|]. cbn. by case_decide. Qed.

Lemma first_missing_installed (l : list (modname * exn)) :
  Forall (fun r => r.1 ∈ installed) l -> first_missing l = Ok tt.
Proof. induction 1 as [|[m e] l Hm _ IH]; [done|]. cbn. by rewrite decide_True. Qed.

Lemma exec_import (g : globals client) m a :
  exec_stmt g (Import m a) = let? _ := first_missing (stmt_reqs (Import m a)) in Ok (<[a := ModuleV m]> g).
Proof. cbn. unfold import_module. by rewrite import_chain_reqs. Qed.

Lemma exec_import_from (g : globals client) p n a :
  exec_stmt g (ImportFrom p n a) =
  let? _ := first_missing (stmt_reqs (ImportFrom p n a)) in Ok (<[a := ModuleV (p ++ [n])]> g).
Proof.
  cbn [exec_stmt stmt_reqs]. unfold import_module. rewrite import_chain_reqs, first_missing_app.
  destruct (first_missing _); [|done]. cbn [first_missing bind].
  destruct (decide (p ++ [n] ∈ installed)); [by rewrite decide_True|by rewrite decide_False].
Qed.

(** A statement whose only failure is a missing requirement. *)
Lemma exec_stmts_req (g g' : globals client) s ss r :
  exec_stmt g s = (let? _ := first_missing r in Ok g') ->
  exec_stmts g (s :: ss) = let? _ := first_missing r in exec_stmts g' ss.
Proof. intros Hs. cbn [exec_stmts]. rewrite Hs. by destruct (first_missing r). Qed.

(** The module body checks the requirements in order, then builds the
    client, then binds the functions. *)
Lemma exec_body :
  exec_stmts ∅ body =
  let? _ := first_missing body_reqs in
  let? c := make_client in
  Ok (body_globals c).
Proof.
  unfold body_reqs, body. cbn [map concat]. rewrite !first_missing_app, !bind_assoc.
  rewrite (exec_stmts_req _ _ _ _ _ (exec_import _ _ _)),
    (exec_stmts_req _ _ _ _ _ (exec_import _ _ _)),
    (exec_stmts_req _ _ _ _ _ (exec_import_from _ _ _ _)),
    (exec_stmts_req _ _ _ _ _ (exec_import _ _ _)),
    (exec_stmts_req _ _ _ _ _ (exec_import_from _ _ _ _)),
    (exec_stmts_req _ _ _ _ _ (exec_import _ _ _)).
  do 6 (destruct (first_missing (stmt_reqs _)); [|done]).
  cbn [exec_stmts exec_stmt stmt_reqs first_missing app bind].
  unfold globals. rewrite lookup_insert_ne, lookup_insert by done. by destruct make_client.
Qed.

Lemma global_client_body (c : client) : global_client (body_globals c) = client_translate c.
Proof. unfold global_client, body_globals, globals. by rewrite !lookup_insert_ne, lookup_insert by done. Qed.

(** The requirements of lines 1-6, in the order Python meets them. *)
Lemma body_reqs_eq :
  body_reqs =
  [(["cv2"], ModuleNotFoundError "cv2");
   (["pytesseract"], ModuleNotFoundError "pytesseract");
   (["PIL"], ModuleNotFoundError "PIL");
   (["PIL"; "Image"], ImportError "Image" "PIL");
   (["pygame"], ModuleNotFoundError "pygame");
   (["google"], ModuleNotFoundError "google");
   (["google"; "cloud"], ModuleNotFoundError "google.cloud");
   (["google"; "cloud"; "translate_v2"], ImportError "translate_v2" "google.cloud");
   (["numpy"], ModuleNotFoundError "numpy")].
Proof. reflexivity. Qed.

Lemma run_script_eq (module_name : string) (batches : list (list event * Z)) :
  run_script module_name batches =
  let? _ := first_missing body_reqs in
  let? c := make_client in
  Ok (run_module image_to_string (client_translate c) sys_font font_render blend cv2_module
        module_name batches).
Proof.
  unfold run_script. rewrite exec_body.
  destruct (first_missing _); [|done]. destruct make_client as [c|]; [|done].
  cbn [bind]. by rewrite global_client_body.
Qed.

(** C19. A run of [main.py] is, statement by statement, this: the imports of
    lines 1-6 check the modules they need in source order and the first
    one missing raises; then [translate.Client()] runs, and its exception
    ends the module; then the guard of lines 84-85 runs [main] with that
    client, or nothing when the module is imported. *)
Theorem run_script_spec (module_name : string) (batches : list (list event * Z)) :
  run_script module_name batches =
  let? _ := first_missing body_reqs in
  let? c := make_client in
  Ok (run_module image_to_string (client_translate c) sys_font font_render blend cv2_module
        module_name batches).
Proof. apply run_script_eq. Qed.

(** C20. With the modules of the requirements before it installed, the
    first missing one raises its exception ([ModuleNotFoundError], or
    [ImportError] for [PIL.Image] and [google.cloud.translate_v2]), before
    the client is built and whatever the module's name. *)
Theorem run_script_missing_module (module_name : string) (batches : list (list event * Z))
    pre m e post :
  body_reqs = pre ++ (m, e) :: post ->
  Forall (fun r => r.1 ∈ installed) pre -> m ∉ installed ->
  run_script module_name batches = Err e.
Proof.
  intros Hb Hpre Hm. rewrite run_script_eq, Hb, first_missing_app, first_missing_installed by done.
  cbn. by rewrite decide_False.
Qed.

(** C5. With every module installed, an exception of [translate.Client()]
    (missing credentials, say) ends the run, also when [main.py] is only
    imported: no test can import [process_frame] without a working
    client. *)
Theorem run_script_client_error (module_name : string) (batches : list (list event * Z)) e :
  Forall (fun r => r.1 ∈ installed) body_reqs -> make_client = Err e ->
  run_script module_name batches = Err e.
Proof. intros Hall Hc. by rewrite run_script_eq, first_missing_installed, Hc. Qed.

(** C4. With every module installed and a client built, [python main.py]
    never completes a pass of its loop: it is still in its first pass with
    no event batch, and otherwise ends with the [AttributeError] of
    [process_frame] in its initial state; [import main] runs nothing. *)
Theorem run_script_outcome (module_name : string) (batches : list (list event * Z)) c :
  Forall (fun r => r.1 ∈ installed) body_reqs -> make_client = Ok c ->
  match run_script module_name batches with
  | Ok None => module_name <> "__main__"
  | Ok (Some o) => module_name = "__main__" /\
      (batches = [] /\ o = Pending init_state \/
       o = Raised (AttributeError "cv2" "CHAIN_APPROLOGY_SIMPLE") init_state)
  | Err _ => False
  end.
Proof.
  intros Hall Hc. rewrite run_script_eq, first_missing_installed, Hc by done. cbn [bind].
  apply run_module_outcome_core.
Qed.
End Script.

(** ** Witnesses *)

(** Every module the imports need. *)
Definition all_installed : gset modname := list_to_set (map fst body_reqs).

(** The modules before [pygame] only. *)
Definition up_to_PIL : gset modname := list_to_set [["cv2"]; ["pytesseract"]; ["PIL"]; ["PIL"; "Image"]].

(** A client constructor without credentials, and one that succeeds. *)
Definition no_credentials : result unit := Err (LibError "google.auth").
Definition with_credentials : result unit := Ok tt.
(** One pass with no event, whose work takes 10 ms. *)
Definition one_pass : list (list event * Z) := [([], 10)].
Definition echo_client : unit -> pystr -> pystr -> result (gmap string pystr) := fun _ => client_echo.

Lemma all_installed_reqs : Forall (fun r => r.1 ∈ all_installed) body_reqs.
Proof. apply (bool_decide_unpack _). vm_compute. reflexivity. Qed.

Lemma run_script_missing_module_witness :
  body_reqs = take 4 body_reqs ++ (["pygame"], ModuleNotFoundError "pygame") :: (drop 5 body_reqs) /\
  Forall (fun r => r.1 ∈ up_to_PIL) (take 4 body_reqs) /\ (["pygame"] ∉ up_to_PIL) /\
  run_script ocr_hello font_unit render_box blend_opaque with_credentials echo_client up_to_PIL
    "__main__" one_pass = Err (ModuleNotFoundError "pygame").
Proof.
  assert (Hb : body_reqs = take 4 body_reqs ++ (["pygame"], ModuleNotFoundError "pygame") :: (drop 5 body_reqs))
    by reflexivity.
  assert (Hpre : Forall (fun r => r.1 ∈ up_to_PIL) (take 4 body_reqs))
    by (apply (bool_decide_unpack _); vm_compute; reflexivity).
  assert (Hm : (["pygame"] ∉ up_to_PIL)) by (apply (bool_decide_unpack _); vm_compute; reflexivity).
  split; [exact Hb|split; [exact Hpre|split; [exact Hm|]]].
  exact (run_script_missing_module ocr_hello font_unit render_box blend_opaque with_credentials
           echo_client up_to_PIL "__main__" one_pass _ _ _ _ Hb Hpre Hm).
Defined.

Lemma run_script_client_error_witness :
  Forall (fun r => r.1 ∈ all_installed) body_reqs /\ no_credentials = Err (LibError "google.auth") /\
  run_script ocr_hello font_unit render_box blend_opaque no_credentials echo_client all_installed
    "main" [] = Err (LibError "google.auth").
Proof.
  split; [exact all_installed_reqs|split; [reflexivity|]].
  exact (run_script_client_error ocr_hello font_unit render_box blend_opaque no_credentials
           echo_client all_installed "main" [] _ all_installed_reqs eq_refl).
Defined.

Lemma run_script_outcome_witness :
  Forall (fun r => r.1 ∈ all_installed) body_reqs /\ with_credentials = Ok tt /\
  match run_script ocr_hello font_unit render_box blend_opaque with_credentials echo_client
          all_installed "__main__" one_pass with
  | Ok None => "__main__" <> "__main__"
  | Ok (Some o) => "__main__" = "__main__" /\
      (one_pass = [] /\ o = Pending init_state \/
       o = Raised (AttributeError "cv2" "CHAIN_APPROLOGY_SIMPLE") init_state)
  | Err _ => False
  end.
Proof.
  split; [exact all_installed_reqs|split; [reflexivity|]].
  exact (run_script_outcome ocr_hello font_unit render_box blend_opaque with_credentials
           echo_client all_installed "__main__" one_pass tt all_installed_reqs eq_refl).
Defined.
