(* ===== verification/Frames.v ===== *)
(** * Frames: what [main] hands to [process_frame] and to Tesseract

    [main] (main.py lines 49-82) captures its own window on every pass
    (line 64) and passes the copy to [process_frame] (line 67).  The
    window is 1920x1080 and, since [set_mode] creates it black and every
    pass only fills it black and blits 8-bit text onto it, each of its
    pixels is an 8-bit colour ([frame_ok], preserved by [loop_body]).  So
    the frame of every pass is a [uint8] array of shape [(1920, 1080, 3)]
    ([Typing.bgr_typed]), the precondition of [Typing]'s theorems, and the
    whole run of [main] depends on the OCR engine only through its answers
    on [uint8] [(200, 500)] images with [lang='chi_sim'].  The font library
    and SDL's blend are parameters; of them this file assumes only what
    SDL's 8-bit surfaces guarantee: rendered text has the 8-bit colour it
    was asked for, and blending two 8-bit colours gives an 8-bit colour. *)

From stdpp Require Import gmap.
From S2P Require Import Prelude PyStr Image Threshold Contours Suzuki Cv2 Pipeline Typing Translate MainLoop.

(** Every pixel of the surface is an 8-bit colour. *)
Definition window_u8 (s : surface) : Prop := forall x y, px_u8 (spix s x y).

(** The window of a loop state is a 1920x1080 surface of 8-bit colours. *)
Definition frame_ok (st : loop_state) : Prop :=
  sw (game_window st) = width /\ sh (game_window st) = height /\ window_u8 (game_window st).

(** ** Generic facts on the capture *)

Lemma array3d_all_px (P : px3 -> Prop) (s : surface) :
  (forall x y, P (spix s x y)) -> all_px P (array3d s).
Proof.
  intros HP. unfold array3d, all_px. apply Forall_map, Forall_forall. intros x _.
  apply Forall_map, Forall_forall. intros y _. apply HP.
Qed.

Lemma rgb2bgr_u8 (p : px3) : px_u8 p -> px_u8 (rgb2bgr_px p).
Proof. destruct p as [[r g] b]. unfold px_u8. cbn. tauto. Qed.

(** A successful [cv2.cvtColor(..., cv2.COLOR_RGB2BGR)] swaps the channels. *)
Lemma cvtColor_bgr_Ok (src screen : image3) (code : Z) :
  cvtColor_bgr src code = Ok screen -> screen = map (map rgb2bgr_px) src.
Proof. unfold cvtColor_bgr. destruct (mat_empty src); [done|]. case_decide; [by intros [= <-]|done]. Qed.

(** The frame captured from a window that is [frame_ok]. *)
Lemma capture_typed (st : loop_state) :
  frame_ok st -> bgr_typed (map (map rgb2bgr_px) (array3d (game_window st))) 1920 1080.
Proof.
  intros (Hw & Hh & Hu). split.
  - pose proof (array3d_shape (game_window st)) as Hs. rewrite Hw, Hh in Hs. by apply map_map_shape.
  - apply (all_px_map px_u8); [apply rgb2bgr_u8|]. by apply array3d_all_px.
Qed.

Section Frames.
Context `{ContourFinder} `{Resizer}.
Variable client_translate : pystr -> pystr -> result (gmap string pystr).
Context {font : Type}.
Variable sys_font : string -> Z -> font.
Variable font_render : font -> pystr -> bool -> px3 -> text_surface.
Variable blend : px3 * Z -> px3 -> px3.
(** SDL's 8-bit surfaces: text rendered in an 8-bit colour has that colour's
    8-bit channels, and blending 8-bit colours gives an 8-bit colour. *)
Hypothesis font_render_u8 : forall f t aa c x y, px_u8 c -> px_u8 (tpix (font_render f t aa c) x y).1.
Hypothesis blend_u8 : forall sa d, px_u8 sa.1 -> px_u8 d -> px_u8 (blend sa d).

Lemma black_white_u8 : px_u8 BLACK /\ px_u8 WHITE.
Proof. unfold px_u8, u8, BLACK, WHITE. cbn. lia. Qed.

Lemma render_frame_u8 (w : surface) (tr : pystr) :
  window_u8 (render_frame sys_font font_render blend w tr).
Proof.
  intros x y. unfold render_frame. destruct (rect_center _ _ _) as [cx cy].
  destruct black_white_u8 as [Hb Hw]. cbn. case_bool_decide; [|exact Hb].
  apply blend_u8; [by apply font_render_u8|exact Hb].
Qed.

Lemma init_frame_ok : frame_ok init_state.
Proof. split; [done|split; [done|]]. intros x y. apply black_white_u8. Qed.

(** A pass of the loop, whatever its OCR engine and namespace, keeps the
    window [frame_ok]. *)
Lemma loop_body_frame_ok ocr ns st events work st' :
  frame_ok st ->
  loop_body ocr client_translate sys_font font_render blend ns st events work = Ok st' ->
  frame_ok st'.
Proof.
  intros (Hw0 & Hh0 & _) Hb. destruct (loop_body_Ok _ _ _ _ _ _ _ _ _ _ Hb) as (tr & _ & Hw & _).
  unfold frame_ok. rewrite Hw.
  destruct (render_frame_dims sys_font font_render blend (game_window st) tr) as [-> ->].
  split; [done|split; [done|apply render_frame_u8]].
Qed.

Lemma reachable_frame_ok ocr ns st :
  reachable ocr client_translate sys_font font_render blend ns st -> frame_ok st.
Proof.
  induction 1 as [|st events work st' _ IH _ _ Hpass]; [exact init_frame_ok|].
  exact (loop_body_frame_ok _ _ _ _ _ _ IH Hpass).
Qed.

(** C24. Every frame [main] captures (line 64) and hands to [process_frame]
    is a [uint8] array of shape [(1920, 1080, 3)]: the window stays a
    1920x1080 surface of 8-bit colours in every state [main] reaches. *)
Theorem captured_frame_typed ocr ns st :
  reachable ocr client_translate sys_font font_render blend ns st ->
  bgr_typed (map (map rgb2bgr_px) (array3d (game_window st))) 1920 1080.
Proof. intros Hr. apply capture_typed. exact (reachable_frame_ok _ _ _ Hr). Qed.

(** Two OCR engines that agree on [uint8] [(200, 500)] images with
    [chi_sim] give the same pass. *)
Lemma loop_body_ocr_ext (ocr1 ocr2 : gray -> pystr -> result pystr) ns st events work :
  ns_ok ns ->
  (forall img, gray_typed img 200 500 -> ocr1 img (of_ascii "chi_sim") = ocr2 img (of_ascii "chi_sim")) ->
  frame_ok st ->
  loop_body ocr1 client_translate sys_font font_render blend ns st events work =
  loop_body ocr2 client_translate sys_font font_render blend ns st events work.
Proof.
  intros Hns Hocr Hst. unfold loop_body.
  destruct (getattr ns "COLOR_RGB2BGR") as [code|]; cbn [bind]; [|done].
  destruct (cvtColor_bgr _ code) as [screen|] eqn:Hc; cbn [bind]; [|done].
  apply cvtColor_bgr_Ok in Hc as ->.
  by rewrite (process_frame_ocr_inputs_core ocr1 ocr2 ns _ 1920 1080 Hns (capture_typed st Hst)
                ltac:(lia) ltac:(lia) Hocr).
Qed.

Lemma run_loop_ocr_ext (ocr1 ocr2 : gray -> pystr -> result pystr) ns st batches :
  ns_ok ns ->
  (forall img, gray_typed img 200 500 -> ocr1 img (of_ascii "chi_sim") = ocr2 img (of_ascii "chi_sim")) ->
  frame_ok st ->
  run_loop ocr1 client_translate sys_font font_render blend ns st batches =
  run_loop ocr2 client_translate sys_font font_render blend ns st batches.
Proof.
  intros Hns Hocr. revert st. induction batches as [|[events work] rest IH]; intros st Hst;
    cbn [run_loop]; destruct (running st); [done|done| |done].
  rewrite (loop_body_ocr_ext ocr1 ocr2 ns st events work Hns Hocr Hst).
  destruct (loop_body ocr2 _ _ _ _ _ _ _ _) as [st'|e] eqn:Hb; [|done].
  apply IH. exact (loop_body_frame_ok _ _ _ _ _ _ Hst Hb).
Qed.

(** C18. The whole run of [main] depends on the OCR engine only through its
    answers on [uint8] images of shape [(200, 500)] with [lang='chi_sim']:
    under a namespace where the constants resolve, two engines that agree
    there give [main] the same outcome, whatever the events, given the two
    facts of SDL's 8-bit surfaces ([font_render_u8], [blend_u8]). *)
Theorem main_ocr_inputs (ocr1 ocr2 : gray -> pystr -> result pystr) ns batches :
  ns_ok ns ->
  (forall img, gray_typed img 200 500 -> ocr1 img (of_ascii "chi_sim") = ocr2 img (of_ascii "chi_sim")) ->
  main ocr1 client_translate sys_font font_render blend ns batches =
  main ocr2 client_translate sys_font font_render blend ns batches.
Proof. intros Hns Hocr. unfold main. exact (run_loop_ocr_ext _ _ _ _ _ Hns Hocr init_frame_ok). Qed.
End Frames.

(** ** Witnesses *)

Lemma render_box_u8 : forall f t aa c x y, px_u8 c -> px_u8 (tpix (render_box f t aa c) x y).1.
Proof. intros f t aa c x y Hc. exact Hc. Qed.

Lemma blend_opaque_u8 : forall sa d, px_u8 sa.1 -> px_u8 d -> px_u8 (blend_opaque sa d).
Proof. intros sa d Hs _. exact Hs. Qed.

Lemma captured_frame_typed_witness :
  reachable ocr_hello client_echo font_unit render_box blend_opaque cv2_patched init_state /\
  bgr_typed (map (map rgb2bgr_px) (array3d (game_window init_state))) 1920 1080.
Proof.
  assert (Hr : reachable ocr_hello client_echo font_unit render_box blend_opaque cv2_patched init_state)
    by constructor.
  split; [exact Hr|].
  exact (captured_frame_typed client_echo font_unit render_box blend_opaque render_box_u8 blend_opaque_u8
           ocr_hello cv2_patched init_state Hr).
Defined.

Lemma main_ocr_inputs_witness :
  ns_ok cv2_patched /\
  (forall img, gray_typed img 200 500 ->
     ocr_hello img (of_ascii "chi_sim") = ocr_rows_checked img (of_ascii "chi_sim")) /\
  main ocr_hello client_echo font_unit render_box blend_opaque cv2_patched [([], 10); ([], 40)] =
  main ocr_rows_checked client_echo font_unit render_box blend_opaque cv2_patched [([], 10); ([], 40)].
Proof.
  split; [exact ns_ok_patched|split; [exact ocr_rows_checked_agrees|]].
  exact (main_ocr_inputs client_echo font_unit render_box blend_opaque render_box_u8 blend_opaque_u8
           ocr_hello ocr_rows_checked cv2_patched [([], 10); ([], 40)] ns_ok_patched ocr_rows_checked_agrees).
Defined.
